(** * ddSeeker: barcode and UMI extraction from ddSeq reads

    A shallow embedding of [ddSeeker.py] ([hamming_dist], [fix_block],
    [make_tags]) together with the Python and Biopython operations the
    three functions rely on, and the properties of the tagging decision
    tree stated over it. *)

From Stdlib Require Import ZArith List String Ascii Bool Lia.
Import ListNotations.

Open Scope string_scope.
Open Scope Z_scope.

(** ** Python values and operations used by the source *)

Module Py.

(** The exceptions that the modelled code can raise. *)
Inductive exn : Type :=
| IndexError
| TypeError
| ValueError.

(** A computation either returns a value or raises. *)
Inductive result (A : Type) : Type :=
| Ok (a : A)
| Raise (e : exn).
Arguments Ok {A} a.
Arguments Raise {A} e.

Definition bind {A B : Type} (m : result A) (f : A -> result B) : result B :=
  match m with
  | Ok a => f a
  | Raise e => Raise e
  end.

(** [len(s)] *)
Definition len (s : string) : Z := Z.of_nat (String.length s).

(** Normalisation of one bound of a slice with step 1: a negative bound
    counts from the end, and every bound is clamped to [0, len]. *)
Definition clamp (i n : Z) : Z :=
  if i <? 0 then Z.max (i + n) 0 else Z.min i n.

(** [s[lo:hi]] *)
Definition slice (s : string) (lo hi : Z) : string :=
  let n := len s in
  let lo' := clamp lo n in
  let hi' := clamp hi n in
  substring (Z.to_nat lo') (Z.to_nat (hi' - lo')) s.

(** [s[:hi]] *)
Definition slice_to (s : string) (hi : Z) : string := slice s 0 hi.

(** [str.upper] on ASCII letters. *)
Definition upper_ascii (c : ascii) : ascii :=
  let n := nat_of_ascii c in
  if ((97 <=? n) && (n <=? 122))%nat then ascii_of_nat (n - 32) else c.

Fixpoint upper (s : string) : string :=
  match s with
  | EmptyString => EmptyString
  | String c s' => String (upper_ascii c) (upper s')
  end.

(** [c in s] for a one-character string [c]. *)
Fixpoint contains (c : ascii) (s : string) : bool :=
  match s with
  | EmptyString => false
  | String d s' => Ascii.eqb c d || contains c s'
  end.

(** ["".join(l)] *)
Definition join (l : list string) : string :=
  fold_right String.append EmptyString l.

(** [l[0]] *)
Definition item0 {A : Type} (l : list A) : result A :=
  match l with
  | [] => Raise IndexError
  | a :: _ => Ok a
  end.

(** A number that is either an integer or [float("inf")]. *)
Inductive num : Type :=
| Int (z : Z)
| Inf.

(** [x > n] for an integer [n]. *)
Definition gt (x : num) (n : Z) : bool :=
  match x with
  | Int z => n <? z
  | Inf => true
  end.

(** [score >= n] where [score] is what a score-only alignment call
    returned: a number, or the empty list (here [None]), whose
    comparison with an integer raises [TypeError]. *)
Definition ge (score : option Z) (n : Z) : result bool :=
  match score with
  | Some z => Ok (n <=? z)
  | None => Raise TypeError
  end.

End Py.

Import Py.

Notation "x <- m ;; k" := (bind m (fun x => k))
  (at level 61, m at next level, right associativity).

(** ** Bio.pairwise2: alignment results and the global score *)

(** One alignment as the library returns it: the two gapped sequences, the
    score, and the begin and end columns of the aligned region. *)
Record alignment : Type := mkAlignment {
  seqA : string;
  seqB : string;
  score : Z;
  begin_ : nat;
  end_ : nat
}.

(** The parts of Bio.pairwise2 that ddSeeker calls, [globalxs] with
    [score_only] and [localxs] with [one_alignment_only]. The library is
    not part of the repository. The scoring is the one these calls
    select: [x], a match scores 1 and a mismatch 0; [s], the same open
    and extend penalties for both sequences, a gap of [n] symbols costing
    [open + (n - 1) * extend]. *)
Module Pairwise2.

(** The [x] match function: identical symbols score 1, others 0. *)
Definition identity_match (x y : ascii) : Z :=
  if Ascii.eqb x y then 1 else 0.

(** What the previous alignment column was; a gap column costs the open
    penalty when it starts a gap and the extend penalty when it
    continues one in the same sequence. *)
Inductive column : Type :=
| NoGap
| GapA
| GapB.

Definition gapA_cost (open extend : Z) (p : column) : Z :=
  match p with GapA => extend | _ => open end.

Definition gapB_cost (open extend : Z) (p : column) : Z :=
  match p with GapB => extend | _ => open end.

(** The optimal score of a global alignment of [a] and [b] with affine
    gap penalties, end gaps penalised: the maximum over all ways of
    pairing the heads or of putting one of them against a gap. *)
Fixpoint global_score (open extend : Z) (a : string)
  : string -> column -> Z :=
  fix inner (b : string) (p : column) : Z :=
    match a, b with
    | EmptyString, EmptyString => 0
    | EmptyString, String _ b' =>
        gapA_cost open extend p + inner b' GapA
    | String _ a', EmptyString =>
        gapB_cost open extend p + global_score open extend a' b GapB
    | String x a', String y b' =>
        Z.max (identity_match x y + global_score open extend a' b' NoGap)
          (Z.max (gapB_cost open extend p
                    + global_score open extend a' b GapB)
                 (gapA_cost open extend p + inner b' GapA))
    end.

(** [pairwise2.align.globalxs(a, b, open, extend, score_only=True)]:
    the library returns an empty list when either sequence is empty and
    the optimal score otherwise. *)
Definition globalxs (a b : string) (open extend : Z) : option Z :=
  match a, b with
  | EmptyString, _ | _, EmptyString => None
  | _, _ => Some (global_score open extend a b NoGap)
  end.

(** *** A reference local aligner

    Smith-Waterman with affine gaps over three matrices: [H] (best score
    of an alignment ending at a cell), [E] (ending with a gap in the
    first sequence) and [F] (ending with a gap in the second). Rows are
    indexed by the first sequence, columns by the second. *)

Definition cell (M : list (list Z)) (i j : nat) : Z :=
  nth j (nth i M []) 0.

Definition symbol (s : list ascii) (i : nat) : ascii :=
  nth i s "-"%char.

(** Columns 1.. of one row; [prevH] starts at the column to the upper
    left, [prevF] at the column above. *)
Fixpoint fill_row (open extend : Z) (x : ascii) (b : list ascii)
  (prevH prevF : list Z) (leftH leftE : Z)
  : list Z * list Z * list Z :=
  match b, prevH, prevF with
  | y :: b', d :: ((u :: _) as prevH'), f :: prevF' =>
      let e := Z.max (leftH + open) (leftE + extend) in
      let f' := Z.max (u + open) (f + extend) in
      let best := Z.max (d + identity_match x y) (Z.max e f') in
      let h := if best <? 0 then 0 else best in
      let '(hs, es, fs) :=
        fill_row open extend x b' prevH' prevF' h e in
      (h :: hs, e :: es, f' :: fs)
  | _, _, _ => ([], [], [])
  end.

(** The penalty of a border gap of [i] symbols that follows another
    gap: [2 * open + (i - 1) * extend]. *)
Definition border (open extend : Z) (i : nat) : Z :=
  2 * open + (Z.of_nat i - 1) * extend.

(** Row [i] of the three matrices, for the symbol [x] of the first
    sequence, from the row above. *)
Definition next_row (open extend : Z) (b : list ascii) (i : nat) (x : ascii)
  (prevH prevF : list Z) : list Z * list Z * list Z :=
  let e0 := border open extend i in
  let '(hs, es, fs) := fill_row open extend x b prevH (tl prevF) 0 e0 in
  (0 :: hs, e0 :: es, 0 :: fs).

(** Rows [i], [i + 1], ... of the three matrices, one for each symbol of
    [a], below the row [(prevH, prevF)]. *)
Fixpoint fill (open extend : Z) (a b : list ascii) (i : nat)
  (prevH prevF : list Z)
  : list (list Z) * list (list Z) * list (list Z) :=
  match a with
  | [] => ([], [], [])
  | x :: a' =>
      let '(h, e, f) := next_row open extend b i x prevH prevF in
      let '(H, E, F) := fill open extend a' b (S i) h f in
      (h :: H, e :: E, f :: F)
  end.

(** Row 0: no symbol of the first sequence consumed. *)
Definition row0 (open extend : Z) (b : list ascii)
  : list Z * list Z * list Z :=
  let m := List.length b in
  (repeat 0 (S m), repeat 0 (S m), 0 :: map (border open extend) (seq 1 m)).

Definition matrices (open extend : Z) (a b : list ascii)
  : list (list Z) * list (list Z) * list (list Z) :=
  let '(H0, E0, F0) := row0 open extend b in
  let '(H, E, F) := fill open extend a b 1 H0 F0 in
  (H0 :: H, E0 :: E, F0 :: F).

Definition matrix_max (M : list (list Z)) : Z :=
  fold_right (fun row acc => fold_right Z.max acc row) 0 M.

(** The cell where the traceback starts. The library lists, in row-major
    order, the cells that hold the best score, leaves out a cell that
    extends another best cell by a zero-score column, and serves the
    last cell of the list first. *)
Definition end_cell (H : list (list Z)) (best : Z) (n m : nat)
  : option (nat * nat) :=
  find (fun '(i, j) =>
          (cell H i j =? best) && negb (cell H (i - 1) (j - 1) =? best))
       (rev (list_prod (seq 1 n) (seq 1 m))).

Inductive walk : Type :=
| InH
| InE
| InF.

(** The traceback from a cell towards the origin; it returns the cell
    where the aligned region begins and the aligned columns. *)
Fixpoint traceback (fuel : nat) (open : Z) (H E F : list (list Z))
  (a b : list ascii) (i j : nat) (w : walk) (colsA colsB : list ascii)
  : nat * nat * list ascii * list ascii :=
  match fuel with
  | O => (i, j, colsA, colsB)
  | S fuel' =>
      match w with
      | InH =>
          let h := cell H i j in
          if (i =? 0)%nat || (j =? 0)%nat || (h <=? 0) then
            (i, j, colsA, colsB)
          else
            let x := symbol a (i - 1) in
            let y := symbol b (j - 1) in
            if h =? cell E i j then
              traceback fuel' open H E F a b i j InE colsA colsB
            else if h =? cell H (i - 1) (j - 1) + identity_match x y then
              traceback fuel' open H E F a b (i - 1) (j - 1) InH
                (x :: colsA) (y :: colsB)
            else if h =? cell F i j then
              traceback fuel' open H E F a b i j InF colsA colsB
            else (i, j, colsA, colsB)
      | InE =>
          let next :=
            if cell E i j =? cell H i (j - 1) + open then InH else InE in
          traceback fuel' open H E F a b i (j - 1) next
            ("-"%char :: colsA) (symbol b (j - 1) :: colsB)
      | InF =>
          let next :=
            if cell F i j =? cell H (i - 1) j + open then InH else InF in
          traceback fuel' open H E F a b (i - 1) j next
            (symbol a (i - 1) :: colsA) ("-"%char :: colsB)
      end
  end.

Definition gaps (n : nat) : list ascii := repeat "-"%char n.

(** [pairwise2.align.localxs(a, b, open, extend,
    one_alignment_only=True)]: no alignment when a sequence is empty or
    no pair of symbols matches; otherwise one optimal local alignment,
    both sequences written out in full and padded with gaps to a common
    length, with the columns of the aligned region. Where several
    cells hold the best score the traceback starts at the last one in
    row-major order, as in the library; from that cell this model
    follows one path (a gap in the first sequence before a pair of
    symbols before a gap in the second) and does not go back to try
    another. *)
Definition localxs (a b : string) (open extend : Z) : list alignment :=
  let la := list_ascii_of_string a in
  let lb := list_ascii_of_string b in
  let n := List.length la in
  let m := List.length lb in
  let '(H, E, F) := matrices open extend la lb in
  let best := matrix_max H in
  if best <=? 0 then []
  else
    match end_cell H best n m with
    | None => []
    | Some (r, c) =>
        let '(i0, j0, colsA, colsB) :=
          traceback (2 * (n + m) + 2) open H E F la lb r c InH [] [] in
        let begin := Nat.max i0 j0 in
        let sA := (gaps (j0 - i0) ++ firstn i0 la ++ colsA
                   ++ skipn r la ++ gaps ((m - c) - (n - r)))%list in
        let sB := (gaps (i0 - j0) ++ firstn j0 lb ++ colsB
                   ++ skipn c lb ++ gaps ((n - r) - (m - c)))%list in
        [ mkAlignment (string_of_list_ascii sA) (string_of_list_ascii sB)
            best begin (begin + List.length colsA)%nat ]
    end.

(** *** The matrices of the reference aligner, cell by cell

    The rows of the matrices written as a function of the row index, to
    state what the cells hold. *)

Definition clip (z : Z) : Z := if z <? 0 then 0 else z.

Fixpoint row_at (open extend : Z) (a b : list ascii) (i : nat)
  : list Z * list Z * list Z :=
  match i with
  | O => row0 open extend b
  | S i' =>
      let '(h, _, f) := row_at open extend a b i' in
      next_row open extend b i (symbol a i') h f
  end.

Definition rH (open extend : Z) (a b : list ascii) (i : nat) : list Z :=
  fst (fst (row_at open extend a b i)).

Definition rE (open extend : Z) (a b : list ascii) (i : nat) : list Z :=
  snd (fst (row_at open extend a b i)).

Definition rF (open extend : Z) (a b : list ascii) (i : nat) : list Z :=
  snd (row_at open extend a b i).

(** The cells under the penalties of the linker alignment, -2 and -1. *)
Definition hc (a b : list ascii) (i j : nat) : Z :=
  nth j (rH (-2) (-1) a b i) 0.

Definition ec (a b : list ascii) (i j : nat) : Z :=
  nth j (rE (-2) (-1) a b i) 0.

Definition fc (a b : list ascii) (i j : nat) : Z :=
  nth j (rF (-2) (-1) a b i) 0.

End Pairwise2.

(** ** ddSeeker.py *)

Definition global_alignment := Pairwise2.globalxs.

Definition _linkers : list string := ["TAGCCATCGCATTGC"; "TACCTCTGAGCTGAA"].

Definition linker1 : string := nth 0 _linkers "".
Definition linker2 : string := nth 1 _linkers "".

(** [sum(el1 != el2 for el1, el2 in zip(s1, s2))] *)
Fixpoint mismatches (s1 s2 : string) : Z :=
  match s1, s2 with
  | String c1 t1, String c2 t2 =>
      (if Ascii.eqb c1 c2 then 0 else 1) + mismatches t1 t2
  | _, _ => 0
  end.

Definition hamming_dist (s1 s2 : string) : result Z :=
  if negb (len s1 =? len s2) then Raise ValueError
  else Ok (mismatches s1 s2).

(** The SAM tags of one read: triples (tag, value, type). *)
Definition tag : Type := (string * string * string)%type.

Definition XE (code : string) : list tag := [("XE", code, "Z")].

Section Tagger.

(** [pairwise2.align.localxs(read, linker, open, extend,
    one_alignment_only=True)]: the list of alignments found. The
    decision tree is stated for every such function. *)
Variable local_alignment : string -> string -> Z -> Z -> list alignment.

(** The module-level barcode list, loaded once in [main]. *)
Variable _barcodes : list string.

(** The acceptance test of [fix_block]:
    [len(block) == 5 and score >= 4 or len(block) >= 6 and score >= 5]. *)
Definition accepts (block : string) (score : option Z) : result bool :=
  c5 <- (if len block =? 5 then ge score 4 else Ok false) ;;
  if c5 then Ok true
  else if 6 <=? len block then ge score 5 else Ok false.

(** The [for bc in _barcodes: ... else: return None] loop. *)
Fixpoint fix_block_in (bcs : list string) (block : string)
  : result (option string) :=
  match bcs with
  | [] => Ok None
  | bc :: rest =>
      let score := global_alignment bc block (-1) (-1) in
      c <- accepts block score ;;
      if c then Ok (Some bc) else fix_block_in rest block
  end.

Definition fix_block (block : string) : result (option string) :=
  fix_block_in _barcodes block.

(** The body of the loop over the linkers, after the alignment call: the
    start offset and the indel adjustment appended to [starts] and [k],
    or [None] when both receive [None]. *)
Definition classify (a : alignment) : option (Z * Z) :=
  let begin := Z.of_nat (begin_ a) in
  let end' := Z.of_nat (end_ a) in
  let length := end' - begin in
  if ((score a =? 14) || (score a =? 15)) && (length =? 15) then
    Some (begin, 0)
  else if (score a =? 14) && (length =? 14) then
    Some (begin - 1, 0)
  else if contains "-" (slice (seqA a) begin end')
          && (score a =? 12) && (length =? 15) then
    Some (begin, -1)
  else if contains "-" (seqB a) && (score a =? 13) && (length =? 16) then
    Some (begin, 1)
  else None.

(** One iteration of the loop: align, take the first alignment,
    classify it. *)
Definition locate (read linker : string) : result (option (Z * Z)) :=
  a <- item0 (local_alignment read linker (-2) (-1)) ;;
  Ok (classify a).

(** [starts[i]] as a condition: [None] and [0] are both false. *)
Definition truthy (l : option (Z * Z)) : option (Z * Z) :=
  match l with
  | Some (start, k) => if start =? 0 then None else Some (start, k)
  | None => None
  end.

(** The [for block in (bc1, bc2, bc3)] loop; [None] stands for the
    early [return] of error B. *)
Fixpoint fix_blocks (blocks : list string) (barcode : list string)
  : result (option (list string)) :=
  match blocks with
  | [] => Ok (Some barcode)
  | block :: rest =>
      fixed <- fix_block block ;;
      match fixed with
      | Some bc =>
          if String.eqb bc "" then Ok None
          else fix_blocks rest (barcode ++ [bc])
      | None => Ok None
      end
  end.

(** The distance to a checkpoint trinucleotide, infinite when
    [hamming_dist] raises [ValueError]. *)
Definition checkpoint_dist (sub tri : string) : result num :=
  match hamming_dist sub tri with
  | Ok d => Ok (Int d)
  | Raise ValueError => Ok Inf
  | Raise e => Raise e
  end.

(** Lines 134-146: block 3, barcode correction, UMI. *)
Definition tag_blocks (read : string) (start2 k2 : Z) (bc1 bc2 : string)
  : result (list tag) :=
  let bc3 := slice read (start2 + 15 + k2) (start2 + 21 + k2) in
  fixed <- fix_blocks [bc1; bc2; bc3] [] ;;
  match fixed with
  | None => Ok (XE "B")
  | Some barcode =>
      let umi := slice read (start2 + 24 + k2) (start2 + 32 + k2) in
      Ok [("XB", join barcode, "Z"); ("XU", umi, "Z")]
  end.

(** Lines 118-132: the ACG and GAC checkpoints. *)
Definition tag_checkpoints (read : string) (start2 k2 : Z)
  (bc1 bc2 : string) : result (list tag) :=
  let acg := slice read (start2 + 21 + k2) (start2 + 24 + k2) in
  dist_acg <- checkpoint_dist acg "ACG" ;;
  if gt dist_acg 1 then Ok (XE "J")
  else
    let gac := slice read (start2 + 32 + k2) (start2 + 35 + k2) in
    dist_gac <- checkpoint_dist gac "GAC" ;;
    if gt dist_gac 1 then Ok (XE "K")
    else tag_blocks read start2 k2 bc1 bc2.

(** Lines 111-116: block 1. *)
Definition tag_bc1 (read : string) (start1 start2 k2 : Z) (bc2 : string)
  : result (list tag) :=
  if start1 <? 5 then Ok (XE "D")
  else if start1 =? 5 then
    tag_checkpoints read start2 k2 (slice_to read start1) bc2
  else
    tag_checkpoints read start2 k2 (slice read (start1 - 6) start1) bc2.

(** Lines 102-109: block 2. *)
Definition tag_bc2 (read : string) (start1 k1 start2 k2 : Z)
  : result (list tag) :=
  if start2 - start1 =? 21 + k1 then
    tag_bc1 read start1 start2 k2 (slice read (start2 - 6) start2)
  else if start2 - start1 =? 20 + k1 then
    tag_bc1 read start1 start2 k2 (slice read (start2 - 5) start2)
  else if start2 - start1 =? 22 + k1 then
    tag_bc1 read start1 start2 k2 (slice read (start2 - 7) start2)
  else Ok (XE "I").

Definition make_tags (read : string) : result (list tag) :=
  let read := upper read in
  l1 <- locate read linker1 ;;
  l2 <- locate read linker2 ;;
  match truthy l1, truthy l2 with
  | None, None => Ok (XE "LX")
  | None, Some _ => Ok (XE "L1")
  | Some _, None => Ok (XE "L2")
  | Some (start1, k1), Some (start2, k2) =>
      tag_bc2 read start1 k1 start2 k2
  end.

End Tagger.

(** ** Notions used to state the properties *)

(** The [width] symbols of [read] at offset [pos]. *)
Definition symbols_at (read : string) (pos width : Z) : string :=
  substring (Z.to_nat pos) (Z.to_nat width) read.

(** The [width] symbols of [read] immediately before offset [pos]. *)
Definition symbols_before (read : string) (pos width : Z) : string :=
  substring (Z.to_nat (pos - width)) (Z.to_nat width) read.

(** A Hamming distance greater than 1, the distance between strings of
    unequal length counting as infinite. *)
Definition far (sub tri : string) : Prop :=
  String.length sub <> String.length tri \/ 1 < mismatches sub tri.

(** The global-alignment score of a dictionary entry against a block,
    gap-open -1 and gap-extend -1. *)
Definition block_score (bc block : string) : Z :=
  Pairwise2.global_score (-1) (-1) bc block Pairwise2.NoGap.

(** The acceptance rule as the specification words it: score at least 4
    for a block of 5 symbols, at least 5 for a block of 6 symbols. *)
Definition meets_threshold (block : string) (z : Z) : Prop :=
  (len block = 5 /\ 4 <= z) \/ (len block = 6 /\ 5 <= z).

(** The condition of [fix_block] on a numeric score, as one boolean. *)
Definition qualifies (block : string) (z : Z) : bool :=
  ((len block =? 5) && (4 <=? z)) || ((6 <=? len block) && (5 <=? z)).

(** [bc] is the first entry of [dict] for which [P] holds. *)
Definition first_entry (P : string -> Prop) (dict : list string)
  (bc : string) : Prop :=
  exists pre post,
    dict = (pre ++ bc :: post)%list /\ P bc /\ Forall (fun e => ~ P e) pre.

Definition error_codes : list string :=
  ["LX"; "L1"; "L2"; "I"; "D"; "J"; "K"; "B"].

(** The two variants of a tag set. *)
Definition is_failure (tags : list tag) : Prop :=
  exists code, In code error_codes /\ tags = [("XE", code, "Z")].

Definition is_success (dict : list string) (tags : list tag) : Prop :=
  exists b1 b2 b3 umi,
    In b1 dict /\ In b2 dict /\ In b3 dict /\ String.length umi = 8%nat
    /\ tags = [("XB", b1 ++ b2 ++ b3, "Z"); ("XU", umi, "Z")].

(** The number of single-symbol edits (substitution, insertion, deletion)
    between two strings. *)
Fixpoint edit_distance (a : string) : string -> nat :=
  fix inner (b : string) : nat :=
    match a, b with
    | EmptyString, _ => String.length b
    | _, EmptyString => String.length a
    | String x a', String y b' =>
        Nat.min ((if Ascii.eqb x y then 0 else 1) + edit_distance a' b')
          (Nat.min (1 + edit_distance a' b) (1 + inner b'))
    end.

(** Both linkers pass the linker step on [read]: the locator gives each a
    start offset and an indel adjustment, and the source takes both start
    offsets as true. *)
Definition linkers_located
  (local_alignment : string -> string -> Z -> Z -> list alignment)
  (read : string) (start1 k1 start2 k2 : Z) : Prop :=
  locate local_alignment (upper read) linker1 = Ok (Some (start1, k1))
  /\ locate local_alignment (upper read) linker2 = Ok (Some (start2, k2))
  /\ start1 <> 0 /\ start2 <> 0.

(** The first alignment that the aligner reports for [linker] in [read]
    is an exact occurrence of it: 15 matching columns without gap, over
    symbols of [read] that spell the linker. *)
Definition exact_hit
  (local_alignment : string -> string -> Z -> Z -> list alignment)
  (read linker : string) : Prop :=
  exists a rest,
    local_alignment read linker (-2) (-1) = a :: rest
    /\ score a = 15 /\ end_ a = (begin_ a + 15)%nat
    /\ substring (begin_ a) 15 read = linker.

(** The distance between the linkers is one that block 2 is derived
    from. *)
Definition gap_accepted (start1 k1 start2 : Z) : Prop :=
  start2 - start1 = 21 + k1 \/ start2 - start1 = 20 + k1
  \/ start2 - start1 = 22 + k1.

(** The read layout of the end-to-end test of the specification. *)
Definition synthetic_read (block1 block2 block3 umi : string) : string :=
  block1 ++ linker1 ++ block2 ++ linker2 ++ block3 ++ "ACG" ++ umi ++ "GAC".

(** A small dictionary for the examples. *)
Definition example_barcodes : list string :=
  ["TTTGGG"; "AAACCC"; "CCCTTT"; "GGGAAA"].

(** A read of the end-to-end layout over that dictionary. *)
Definition example_read : string :=
  synthetic_read "TTTGGG" "AAACCC" "CCCTTT" "AACCGGTT".

(** A read that begins with linker 1: no block 1 before it. *)
Definition read_linker1_first : string :=
  linker1 ++ "AAACCC" ++ linker2 ++ "CCCTTT" ++ "ACG" ++ "AACCGGTT" ++ "GAC".

(** A dictionary with two entries one mismatch apart, and a read of the
    end-to-end layout whose blocks are all the second entry. *)
Definition close_barcodes : list string := ["TTTGGG"; "TTTGGA"].

Definition read_close_blocks : string :=
  synthetic_read "TTTGGA" "TTTGGA" "TTTGGA" "AACCGGTT".

(** The example read with one symbol inserted in block 2. *)
Definition read_block2_insertion : string :=
  "TTTGGG" ++ linker1 ++ "AAAGCCC" ++ linker2 ++ "CCCTTT" ++ "ACG"
  ++ "AACCGGTT" ++ "GAC".

(** ** ddSeeker.py, [main]: the barcode file (line 159) *)

(** The string methods that line 159 calls. A symbol of a string is a
    code point below 256. *)
Module Str.

(** [c.isspace()]: tab, line feed, vertical tab, form feed, carriage
    return (9-13), the four separators 28-31, the space (32), the next
    line control U+0085 (133) and the no-break space U+00A0 (160); no
    other code point below 256 is whitespace. *)
Definition isspace (c : ascii) : bool :=
  let n := nat_of_ascii c in
  (((9 <=? n) && (n <=? 13)) || ((28 <=? n) && (n <=? 32))
   || (n =? 133) || (n =? 160))%nat.

(** [s.rstrip()]: [s] without its trailing whitespace. *)
Fixpoint rstrip (s : string) : string :=
  match s with
  | EmptyString => EmptyString
  | String c s' =>
      match rstrip s' with
      | EmptyString => if isspace c then EmptyString else String c EmptyString
      | t => String c t
      end
  end.

(** [s.split()]: the maximal runs of symbols that are not whitespace, in
    order; [word] is the run read so far. *)
Fixpoint split_from (word s : string) : list string :=
  match s with
  | EmptyString => if String.eqb word "" then [] else [word]
  | String c s' =>
      if isspace c then
        if String.eqb word "" then split_from "" s'
        else word :: split_from "" s'
      else split_from (word ++ String c "") s'
  end.

Definition split (s : string) : list string := split_from "" s.

End Str.

(** [[_.rstrip().split()[0] for _ in lines]]: the comprehension stops at
    the first line whose list of words is empty, with the [IndexError] of
    [[0]]. *)
Fixpoint first_words (lines : list string) : result (list string) :=
  match lines with
  | [] => Ok []
  | line :: rest =>
      bc <- item0 (Str.split (Str.rstrip line)) ;;
      bcs <- first_words rest ;;
      Ok (bc :: bcs)
  end.

(** The value given to [_barcodes], from the lines that
    [open(barcodes_file).readlines()] returns: [readlines()[:96]] keeps
    the first 96 lines. *)
Definition load_barcodes (lines : list string) : result (list string) :=
  first_words (firstn 96 lines).

(** ** ddSeeker.py, [main]: R1, R2 and the summary (lines 174-208) *)

(** [l[i]] for an index that is not negative. *)
Definition getitem {A : Type} (l : list A) (i : nat) : result A :=
  match nth_error l i with
  | Some a => Ok a
  | None => Raise IndexError
  end.

(** [islice(l, start, None, step)]: the elements at the indexes [start],
    [start + step], ...; [skip] counts the elements still to pass over. *)
Fixpoint islice_from {A : Type} (step skip : nat) (l : list A) : list A :=
  match l with
  | [] => []
  | x :: rest =>
      match skip with
      | O => x :: islice_from step (step - 1) rest
      | S skip' => islice_from step skip' rest
      end
  end.

Definition islice {A : Type} (l : list A) (start step : nat) : list A :=
  islice_from step start l.

Module Pysam.

(** A record of the unaligned BAM file, as far as [main] reads and
    changes it. *)
Record segment : Type := mkSegment {
  query_name : string;
  query_sequence : string;
  flag : Z;
  tags : list tag
}.

(** [read.set_tags(new_tags)]: the tags of the record are replaced. *)
Definition set_tags (read : segment) (new_tags : list tag) : segment :=
  mkSegment (query_name read) (query_sequence read) (flag read) new_tags.

(** [read.flag = value] *)
Definition set_flag (read : segment) (value : Z) : segment :=
  mkSegment (query_name read) (query_sequence read) value (tags read).

End Pysam.

(** A Python dictionary from strings to counts, in insertion order. *)
Module Dict.

Definition counts : Type := list (string * Z).

(** [d.get(key, default)] *)
Fixpoint get (d : counts) (key : string) (default : Z) : Z :=
  match d with
  | [] => default
  | (k, v) :: rest => if String.eqb k key then v else get rest key default
  end.

(** [d[key] = value]: a key that is present keeps its place, a new one
    goes last. *)
Fixpoint set (d : counts) (key : string) (value : Z) : counts :=
  match d with
  | [] => [(key, value)]
  | (k, v) :: rest =>
      if String.eqb k key then (k, value) :: rest
      else (k, v) :: set rest key value
  end.

(** [sum(d.values())] *)
Definition sum_values (d : counts) : Z := fold_right Z.add 0 (map snd d).

End Dict.

(** The state of the loop over R2: the records written to the output file
    and the two dictionaries of the summary. *)
Record tally : Type := mkTally {
  written : list Pysam.segment;
  cell_count : Dict.counts;
  error_count : Dict.counts
}.

(** The body of the loop of lines 184-194; [summary] tells whether a
    summary prefix was given. *)
Definition tag_read (summary : bool) (tags : list (list tag)) (st : tally)
  (i : nat) (read : Pysam.segment) : result tally :=
  t <- getitem tags i ;;
  let out := (written st ++ [Pysam.set_flag (Pysam.set_tags read t) 4])%list in
  if summary then
    t0 <- item0 t ;;
    let '(name, value, _) := t0 in
    if String.eqb name "XE" then
      Ok (mkTally out (cell_count st)
            (Dict.set (error_count st) value
               (Dict.get (error_count st) value 0 + 1)))
    else if String.eqb name "XB" then
      Ok (mkTally out
            (Dict.set (cell_count st) value
               (Dict.get (cell_count st) value 0 + 1))
            (Dict.set (error_count st) "PASS"
               (Dict.get (error_count st) "PASS" 0 + 1)))
    else Ok (mkTally out (cell_count st) (error_count st))
  else Ok (mkTally out (cell_count st) (error_count st)).

(** [for (i, read) in enumerate(out_bam_iter)], from index [i] on. *)
Fixpoint tag_reads (summary : bool) (tags : list (list tag)) (st : tally)
  (i : nat) (out_bam_iter : list Pysam.segment) : result tally :=
  match out_bam_iter with
  | [] => Ok st
  | read :: rest =>
      st' <- tag_read summary tags st i read ;;
      tag_reads summary tags st' (S i) rest
  end.

(** Lines 181-194, once [pool.map] has returned [tags]: R2 is every
    second record of the file from the second on. *)
Definition add_tags (summary : bool) (tags : list (list tag))
  (records : list Pysam.segment) : result tally :=
  tag_reads summary tags (mkTally [] [] []) 0 (islice records 1 2).

Definition ordered_tags : list string :=
  ["LX"; "L1"; "L2"; "I"; "D"; "J"; "K"; "B"; "PASS"].

(** The rows of the errors file (lines 205-208): the tag, its count, and
    the fraction as the two integers that are divided; [None] stands for
    the ZeroDivisionError of the division. *)
Fixpoint errors_rows (tags : list string) (error_count : Dict.counts)
  : option (list (string * Z * (Z * Z))) :=
  match tags with
  | [] => Some []
  | tag :: rest =>
      let count := Dict.get error_count tag 0 in
      if Dict.sum_values error_count =? 0 then None
      else
        match errors_rows rest error_count with
        | Some rows =>
            Some ((tag, count, (count, Dict.sum_values error_count)) :: rows)
        | None => None
        end
  end.

(** ** Notions used to state the further properties *)

(** [b] is [a] with one of its symbols removed. *)
Fixpoint removed_one (a b : string) : bool :=
  match a with
  | EmptyString => false
  | String x a' =>
      String.eqb a' b
      || match b with
         | EmptyString => false
         | String y b' => Ascii.eqb x y && removed_one a' b'
         end
  end.

(** Every two different entries of [dict] differ in at least [d]
    positions. *)
Definition pairwise_apart (d : Z) (dict : list string) : bool :=
  forallb (fun e1 =>
    forallb (fun e2 => String.eqb e1 e2 || (d <=? mismatches e1 e2)) dict)
    dict.

(** The blocks that the decision tree cuts out of the upper-case read
    [r]: the symbols before linker 1 (all of them when it starts at
    offset 5, otherwise 6), the symbols between the linkers, and the 6
    symbols after linker 2. *)
Definition block1_of (r : string) (start1 : Z) : string :=
  symbols_before r start1 (Z.min start1 6).

Definition block2_of (r : string) (start1 k1 start2 : Z) : string :=
  symbols_before r start2 (start2 - start1 - 15 - k1).

Definition block3_of (r : string) (start2 k2 : Z) : string :=
  symbols_at r (start2 + 15 + k2) 6.

(** A start offset that the linker step takes as missing: [None], or the
    offset 0. *)
Definition taken_as_missing (l : option (Z * Z)) : Prop :=
  l = None \/ exists k, l = Some (0, k).

Fixpoint all_symbols (f : ascii -> bool) (s : string) : bool :=
  match s with
  | EmptyString => true
  | String c s' => f c && all_symbols f s'
  end.

(** A line of whitespace only. *)
Definition blank (s : string) : bool := all_symbols Str.isspace s.

(** A non-empty string without whitespace. *)
Definition word (s : string) : Prop :=
  s <> "" /\ all_symbols (fun c => negb (Str.isspace c)) s = true.

(** [w] is the first whitespace-delimited word of [line]. *)
Definition first_word (line w : string) : Prop :=
  exists lead tail,
    line = lead ++ w ++ tail /\ blank lead = true /\ word w
    /\ (tail = "" \/ exists c t, tail = String c t /\ Str.isspace c = true).

(** What [pool.map(make_tags, reads)] returns when no call raises: the
    tags of the sequences of R1, every second record of the file from the
    first on. *)
Definition tags_of_R1
  (local_alignment : string -> string -> Z -> Z -> list alignment)
  (dict : list string) (records : list Pysam.segment)
  (tags : list (list tag)) : Prop :=
  Forall2 (fun r t =>
             make_tags local_alignment dict (Pysam.query_sequence r) = Ok t)
    (islice records 0 2) tags.

(** The sum of the counts of the listed keys. *)
Definition sum_over (keys : list string) (d : Dict.counts) : Z :=
  fold_right Z.add 0 (map (fun k => Dict.get d k 0) keys).

(** The first tag of the record has this name and this value. *)
Definition reports (name value : string) (r : Pysam.segment) : bool :=
  match Pysam.tags r with
  | (n, v, _) :: _ => String.eqb n name && String.eqb v value
  | [] => false
  end.

(** The first tag of the record is a cell barcode. *)
Definition tagged (r : Pysam.segment) : bool :=
  match Pysam.tags r with
  | (n, _, _) :: _ => String.eqb n "XB"
  | [] => false
  end.

(** The number of records of [l] that satisfy [f]. *)
Definition number_of (f : Pysam.segment -> bool) (l : list Pysam.segment)
  : Z :=
  Z.of_nat (List.length (filter f l)).

(** What the loop over R2 keeps true of its state. *)
Definition consistent (st : tally) : Prop :=
  Dict.sum_values (error_count st) = Z.of_nat (List.length (written st))
  /\ sum_over ordered_tags (error_count st)
     = Dict.sum_values (error_count st)
  /\ Dict.get (error_count st) "PASS" 0 = Dict.sum_values (cell_count st)
  /\ (forall k,
        Dict.get (error_count st) k 0
        = if String.eqb k "PASS" then number_of tagged (written st)
          else number_of (reports "XE" k) (written st))
  /\ (forall bc,
        Dict.get (cell_count st) bc 0
        = number_of (reports "XB" bc) (written st)).

(** The line feed. *)
Definition LF : string := String "010"%char "".

(** The next-line control U+0085 and the no-break space U+00A0. *)
Definition NEL : string := String "133"%char "".

Definition NBSP : string := String "160"%char "".

(** The lines of a small barcode file: a second column, leading blanks
    and a last line without line feed. *)
Definition example_lines : list string :=
  ["TTTGGG" ++ LF; "AAACCC 2" ++ LF; "  CCCTTT" ++ LF; "GGGAAA"].

(** Three records: a pair, and a first read without its mate. *)
Definition example_records : list Pysam.segment :=
  [Pysam.mkSegment "pair1" example_read 77 [];
   Pysam.mkSegment "pair1" "GATTACAGATTACA" 141 [("RG", "A", "Z")];
   Pysam.mkSegment "pair2" read_linker1_first 77 []].

Definition example_tags : list (list tag) :=
  [[("XB", "TTTGGGAAACCCCCCTTT", "Z"); ("XU", "AACCGGTT", "Z")]; XE "L1"].

(** ** Notions of the specification, stated without the code's helpers *)

(** The threshold of [fix_block] as the amended claim words it: a score
    of at least 4 for a block of 5 symbols, of at least 5 for a block of
    6 symbols or more. *)
Definition reaches_threshold (block : string) (z : Z) : Prop :=
  (len block = 5 /\ 4 <= z) \/ (6 <= len block /\ 5 <= z).

(** Both strings have a symbol at position [i], and the two differ. *)
Definition differs_at (a b : string) (i : nat) : bool :=
  match String.get i a, String.get i b with
  | Some x, Some y => negb (Ascii.eqb x y)
  | _, _ => false
  end.

(** The Hamming distance of the specification: the number of positions
    at which the two strings differ. It is written with the positions,
    not with the loop of [hamming_dist]. *)
Definition hamming_distance (a b : string) : nat :=
  List.length (filter (differs_at a b) (seq 0 (String.length a))).

(** At Hamming distance more than 1, a string of another length being
    infinitely far. *)
Definition distant (sub tri : string) : Prop :=
  String.length sub <> String.length tri
  \/ (1 < hamming_distance sub tri)%nat.

(** A read that begins with linker 1 and has 9 symbols between the
    linkers: linker 2 starts at offset 24. *)
Definition read_linker1_gap24 : string :=
  linker1 ++ "AAACCCGGG" ++ linker2 ++ "CCCTTT" ++ "ACG" ++ "AACCGGTT"
  ++ "GAC".





(** The example read with other symbols at the two checkpoints, and cut
    short inside each of them. *)
Definition read_acg_far : string :=
  "TTTGGG" ++ linker1 ++ "AAACCC" ++ linker2 ++ "CCCTTT" ++ "TTT"
  ++ "AACCGGTT" ++ "GAC".

Definition read_acg_near : string :=
  "TTTGGG" ++ linker1 ++ "AAACCC" ++ linker2 ++ "CCCTTT" ++ "ACT"
  ++ "AACCGGTT" ++ "GAC".

Definition read_gac_far : string :=
  "TTTGGG" ++ linker1 ++ "AAACCC" ++ linker2 ++ "CCCTTT" ++ "ACG"
  ++ "AACCGGTT" ++ "TTT".

Definition read_gac_near : string :=
  "TTTGGG" ++ linker1 ++ "AAACCC" ++ linker2 ++ "CCCTTT" ++ "ACG"
  ++ "AACCGGTT" ++ "GAT".

Definition read_cut_in_acg : string :=
  "TTTGGG" ++ linker1 ++ "AAACCC" ++ linker2 ++ "CCCTTT" ++ "AC".

Definition read_cut_in_gac : string :=
  "TTTGGG" ++ linker1 ++ "AAACCC" ++ linker2 ++ "CCCTTT" ++ "ACG"
  ++ "AACCGGTT" ++ "GA".

(** A read in which no symbol is a symbol of a linker. *)
Definition read_all_N : string := "NNNNNNNNNNNNNNNNNNNNNNNNNNNNNN".

(** * Properties *)

(** ** Strings and slices *)

Lemma substring_min (s : string) :
  forall n m,
    substring n m s = substring n (Nat.min m (String.length s - n)) s.
Proof.
  induction s as [|c s IH]; intros n m.
  - destruct n, m; reflexivity.
  - destruct n as [|n].
    + destruct m as [|m]; [reflexivity|].
      simpl. f_equal. rewrite (IH 0%nat m).
      now rewrite Nat.sub_0_r.
    + simpl. apply IH.
Qed.

Lemma substring_length (s : string) :
  forall n m,
    String.length (substring n m s) = Nat.min m (String.length s - n).
Proof.
  induction s as [|c s IH]; intros n m.
  - destruct n, m; reflexivity.
  - destruct n as [|n].
    + destruct m as [|m]; [reflexivity|].
      simpl. rewrite (IH 0%nat m). now rewrite Nat.sub_0_r.
    + simpl. apply IH.
Qed.

Lemma substring_zero (s : string) : forall n, substring n 0 s = "".
Proof.
  induction s as [|c s IH]; intros [|n]; simpl; auto.
Qed.

(** With non-negative bounds in order, a slice is the substring between
    them: no bound wraps around. *)
Lemma slice_substring (s : string) (lo hi : Z) :
  0 <= lo <= hi ->
  slice s lo hi = substring (Z.to_nat lo) (Z.to_nat (hi - lo)) s.
Proof.
  intros Hb. unfold slice, clamp, len.
  destruct (lo <? 0) eqn:Hlo; [lia|].
  destruct (hi <? 0) eqn:Hhi; [lia|].
  rewrite (substring_min s (Z.to_nat _) (Z.to_nat (Z.min hi _ - _))).
  rewrite (substring_min s (Z.to_nat lo)).
  destruct (Z_le_gt_dec (Z.of_nat (String.length s)) lo) as [Hge|Hlt].
  - rewrite Z.min_r by lia.
    replace (Nat.min _ (String.length s - Z.to_nat (Z.of_nat _))) with 0%nat
      by lia.
    replace (Nat.min _ (String.length s - Z.to_nat lo)) with 0%nat by lia.
    replace (Z.to_nat (Z.of_nat (String.length s)))
      with (String.length s) by lia.
    now rewrite !substring_zero.
  - rewrite (Z.min_l lo) by lia. f_equal. lia.
Qed.

Lemma slice_before (s : string) (pos width : Z) :
  0 <= width <= pos ->
  slice s (pos - width) pos = symbols_before s pos width.
Proof.
  intros H. unfold symbols_before. rewrite slice_substring by lia.
  do 2 f_equal. lia.
Qed.

Lemma slice_at (s : string) (pos width : Z) :
  0 <= pos -> 0 <= width ->
  slice s pos (pos + width) = symbols_at s pos width.
Proof.
  intros H1 H2. unfold symbols_at. rewrite slice_substring by lia.
  do 2 f_equal. lia.
Qed.

Lemma append_empty_r (s : string) : s ++ "" = s.
Proof. induction s as [|c s IH]; simpl; [reflexivity | now rewrite IH]. Qed.

Lemma upper_app (a b : string) : upper (a ++ b) = upper a ++ upper b.
Proof. induction a as [|c a IH]; simpl; [reflexivity | now rewrite IH]. Qed.

(** ** The barcode block matcher *)

Lemma accepts_score (bc block : string) :
  bc <> "" ->
  accepts block (global_alignment bc block (-1) (-1))
  = Ok (qualifies block (block_score bc block)).
Proof.
  intros Hbc. unfold accepts, qualifies, global_alignment, block_score.
  destruct bc as [|x bc]; [congruence|].
  destruct block as [|y block].
  - reflexivity.
  - unfold Pairwise2.globalxs.
    destruct (len (String y block) =? 5) eqn:H5;
      destruct (6 <=? len (String y block)) eqn:H6; simpl;
      try (destruct (4 <=? _)); try (destruct (5 <=? _)); try reflexivity;
      lia.
Qed.

Lemma fix_block_in_find (bcs : list string) (block : string) :
  Forall (fun bc => bc <> "") bcs ->
  fix_block_in bcs block
  = Ok (find (fun bc => qualifies block (block_score bc block)) bcs).
Proof.
  induction 1 as [|bc bcs Hbc _ IH]; [reflexivity|].
  cbn [fix_block_in find]. rewrite accepts_score by assumption.
  cbn [bind]. destruct (qualifies _ _); [reflexivity | exact IH].
Qed.

Lemma find_first {A : Type} (f : A -> bool) (l : list A) (x : A) :
  find f l = Some x <->
  exists pre post,
    l = (pre ++ x :: post)%list /\ f x = true
    /\ Forall (fun e => f e = false) pre.
Proof.
  induction l as [|a l IH]; simpl.
  - split; [discriminate|]. intros (pre & post & H & _).
    destruct pre; discriminate.
  - destruct (f a) eqn:Hfa.
    + split.
      * intros [= ->]. exists [], l. auto.
      * intros (pre & post & H & Hx & Hpre).
        destruct pre as [|e pre]; simpl in H; injection H as -> ->.
        -- reflexivity.
        -- inversion Hpre; congruence.
    + rewrite IH. split.
      * intros (pre & post & -> & Hx & Hpre).
        exists (a :: pre), post. auto.
      * intros (pre & post & H & Hx & Hpre).
        destruct pre as [|e pre]; simpl in H; injection H as -> ->.
        -- congruence.
        -- exists pre, post. inversion Hpre; auto.
Qed.

Lemma find_none_Forall {A : Type} (f : A -> bool) (l : list A) :
  find f l = None <-> Forall (fun e => f e = false) l.
Proof.
  induction l as [|a l IH]; simpl.
  - split; auto.
  - destruct (f a) eqn:Hfa.
    + split; [discriminate|]. inversion 1; congruence.
    + rewrite IH. split; [auto | now inversion 1].
Qed.

(** For blocks of at most 6 symbols the source condition is the rule of
    the specification. *)
Lemma qualifies_threshold (block : string) (z : Z) :
  len block <= 6 ->
  (qualifies block z = true <-> meets_threshold block z).
Proof.
  intros Hlen. unfold qualifies, meets_threshold.
  rewrite orb_true_iff, !andb_true_iff, Z.eqb_eq, !Z.leb_le. lia.
Qed.

(** The source condition, for every block. *)
Lemma qualifies_reaches (block : string) (z : Z) :
  qualifies block z = true <-> reaches_threshold block z.
Proof.
  unfold qualifies, reaches_threshold.
  rewrite orb_true_iff, !andb_true_iff, Z.eqb_eq, !Z.leb_le. tauto.
Qed.

(** For blocks of 6 symbols or more the source condition is a score of
    at least 5. *)
Lemma qualifies_long (block : string) (z : Z) :
  6 <= len block -> qualifies block z = (5 <=? z).
Proof.
  intros Hlen. unfold qualifies.
  destruct (len block =? 5) eqn:H5; [lia|].
  destruct (6 <=? len block) eqn:H6; [reflexivity | lia].
Qed.

Lemma Forall_iff {A : Type} (P Q : A -> Prop) (l : list A) :
  (forall x, P x <-> Q x) -> (Forall P l <-> Forall Q l).
Proof.
  intros H. split; apply Forall_impl; intros x; apply H.
Qed.

Lemma first_entry_iff (P Q : string -> Prop) (dict : list string)
  (bc : string) :
  (forall x, P x <-> Q x) ->
  (first_entry P dict bc <-> first_entry Q dict bc).
Proof.
  intros H. unfold first_entry.
  split; intros (pre & post & Hd & Hbc & Hpre); exists pre, post;
    (split; [exact Hd | split; [now apply H |]]);
    revert Hpre; apply Forall_impl; intros x Hx Hq; apply Hx, H, Hq.
Qed.

(** What [fix_block] returns, for any block, in terms of the source
    condition. *)
Lemma fix_block_first (dict : list string) (block : string) :
  Forall (fun bc => bc <> "") dict ->
  (forall bc,
      fix_block dict block = Ok (Some bc) <->
      first_entry
        (fun e => qualifies block (block_score e block) = true) dict bc)
  /\ (fix_block dict block = Ok None <->
      Forall (fun e => ~ qualifies block (block_score e block) = true) dict).
Proof.
  intros Hne. unfold fix_block. rewrite fix_block_in_find by assumption.
  split.
  - intros bc. split.
    + intros [= H]. apply find_first in H.
      destruct H as (pre & post & Hd & Hbc & Hpre).
      exists pre, post. repeat split; auto.
      revert Hpre. apply Forall_impl. intros e He. congruence.
    + intros (pre & post & Hd & Hbc & Hpre). f_equal.
      apply find_first. exists pre, post. repeat split; auto.
      revert Hpre. apply Forall_impl. intros e He.
      now apply not_true_is_false.
  - split.
    + intros [= H]. apply find_none_Forall in H.
      revert H. apply Forall_impl. intros e He. congruence.
    + intros H. f_equal. apply find_none_Forall.
      revert H. apply Forall_impl. intros e He.
      now apply not_true_is_false.
Qed.

(** [fix_block] returns, without raising, nothing or an entry of the
    dictionary. *)
Lemma fix_block_member (dict : list string) (block bc : string) :
  fix_block dict block = Ok (Some bc) -> In bc dict.
Proof.
  unfold fix_block. induction dict as [|e dict IH]; simpl; [discriminate|].
  destruct (accepts block _) as [[|]|]; simpl; try discriminate.
  - intros [= ->]. now left.
  - intros H. right. now apply IH.
Qed.


(** C3, as amended. For every block and every dictionary of non-empty
    entries, [fix_block] returns the first entry, in dictionary order,
    whose global-alignment score against the block is at least 4 when the
    block has 5 symbols, or at least 5 when it has 6 symbols or more,
    whatever the later entries score, and returns no match exactly when
    no entry reaches that threshold. In the dictionary TTTGGA, TTTGGG the
    block TTTGGG is matched to the first entry, which scores 5, although
    the second scores 6; the block TTTGAA, two mismatches from TTTGGG,
    is not matched. *)
Theorem C3_fix_block_first_qualifying (dict : list string) (block : string) :
  Forall (fun bc => bc <> "") dict ->
  (forall bc,
      fix_block dict block = Ok (Some bc) <->
      first_entry (fun e => reaches_threshold block (block_score e block))
        dict bc)
  /\ (fix_block dict block = Ok None <->
      Forall (fun e => ~ reaches_threshold block (block_score e block)) dict)
  /\ (fix_block ["TTTGGA"; "TTTGGG"] "TTTGGG" = Ok (Some "TTTGGA")
      /\ block_score "TTTGGA" "TTTGGG" = 5
      /\ block_score "TTTGGG" "TTTGGG" = 6
      /\ fix_block example_barcodes "TTTGAA" = Ok None
      /\ block_score "TTTGGG" "TTTGAA" = 4).
Proof.
  intros Hne.
  destruct (fix_block_first dict block Hne) as [Hsome Hnone].
  split; [|split].
  - intros bc. rewrite Hsome. apply first_entry_iff.
    intros e. apply qualifies_reaches.
  - rewrite Hnone. apply Forall_iff. intros e.
    now rewrite qualifies_reaches.
  - repeat split; vm_compute; reflexivity.
Qed.

Lemma C3_fix_block_first_qualifying_witness :
  fix_block example_barcodes "AAAGCCC" = Ok (Some "AAACCC") <->
  first_entry
    (fun e => reaches_threshold "AAAGCCC" (block_score e "AAAGCCC"))
    example_barcodes "AAACCC".
Proof.
  apply (C3_fix_block_first_qualifying example_barcodes "AAAGCCC").
  repeat constructor; discriminate.
Defined.

(** C3, as stated, fails on a block of 7 symbols, which [make_tags]
    passes when the linkers are 22 symbols apart: the stated rule has no
    threshold for it, so no entry meets one and the answer should be no
    match, but [fix_block] applies the test of a 6-symbol block and
    returns the entry AAACCC for the block AAAGCCC. *)
Lemma C3_counterexample_seven_symbol_block :
  len "AAAGCCC" = 7
  /\ Forall (fun e => ~ meets_threshold "AAAGCCC" (block_score e "AAAGCCC"))
       example_barcodes
  /\ fix_block example_barcodes "AAAGCCC" = Ok (Some "AAACCC")
  /\ fix_block example_barcodes "AAAGCCC" <> Ok None.
Proof.
  split; [reflexivity|]. split; [|split].
  - repeat constructor; intros [[H _]|[H _]]; vm_compute in H;
      discriminate H.
  - vm_compute. reflexivity.
  - vm_compute. discriminate.
Qed.

(** ** The linker step *)

Lemma classify_bounds (a : alignment) (start k : Z) :
  classify a = Some (start, k) -> -1 <= start /\ -1 <= k <= 1.
Proof.
  unfold classify.
  repeat match goal with
         | |- context [if ?c then _ else _] => destruct c
         end; intros [= <- <-] || discriminate; lia.
Qed.

Lemma locate_bounds local_alignment (read linker : string) (start k : Z) :
  locate local_alignment read linker = Ok (Some (start, k)) ->
  -1 <= start /\ -1 <= k <= 1.
Proof.
  unfold locate. destruct (local_alignment read linker (-2) (-1)); simpl.
  - discriminate.
  - intros [= H]. now apply classify_bounds in H.
Qed.

Lemma make_tags_located local_alignment dict read start1 k1 start2 k2 :
  linkers_located local_alignment read start1 k1 start2 k2 ->
  make_tags local_alignment dict read
  = tag_bc2 dict (upper read) start1 k1 start2 k2.
Proof.
  intros (H1 & H2 & Hs1 & Hs2). unfold make_tags. rewrite H1, H2. simpl.
  destruct (start1 =? 0) eqn:E1; [lia|].
  destruct (start2 =? 0) eqn:E2; [lia|]. reflexivity.
Qed.

Lemma located_bounds local_alignment read start1 k1 start2 k2 :
  linkers_located local_alignment read start1 k1 start2 k2 ->
  (-1 <= start1 /\ -1 <= k1 <= 1) /\ (-1 <= start2 /\ -1 <= k2 <= 1).
Proof.
  intros (H1 & H2 & _). split; eapply locate_bounds; eassumption.
Qed.

(** ** Block 2 and block 1 *)

Lemma tag_bc2_cases dict (r : string) (start1 k1 start2 k2 : Z) :
  -1 <= start1 -> -1 <= k1 ->
  (start2 - start1 = 21 + k1 ->
   tag_bc2 dict r start1 k1 start2 k2
   = tag_bc1 dict r start1 start2 k2 (symbols_before r start2 6))
  /\ (start2 - start1 = 20 + k1 ->
      tag_bc2 dict r start1 k1 start2 k2
      = tag_bc1 dict r start1 start2 k2 (symbols_before r start2 5))
  /\ (start2 - start1 = 22 + k1 ->
      tag_bc2 dict r start1 k1 start2 k2
      = tag_bc1 dict r start1 start2 k2 (symbols_before r start2 7))
  /\ (start2 - start1 <> 21 + k1 -> start2 - start1 <> 20 + k1 ->
      start2 - start1 <> 22 + k1 ->
      tag_bc2 dict r start1 k1 start2 k2 = Ok (XE "I")).
Proof.
  intros Hs Hk. unfold tag_bc2.
  destruct (start2 - start1 =? 21 + k1) eqn:E21;
    destruct (start2 - start1 =? 20 + k1) eqn:E20;
    destruct (start2 - start1 =? 22 + k1) eqn:E22;
    repeat split; intros; try lia; try reflexivity;
    rewrite slice_before by lia; reflexivity.
Qed.

Lemma tag_bc2_accepted dict (r : string) (start1 k1 start2 k2 : Z) :
  -1 <= start1 -> -1 <= k1 ->
  gap_accepted start1 k1 start2 ->
  tag_bc2 dict r start1 k1 start2 k2
  = tag_bc1 dict r start1 start2 k2
      (symbols_before r start2 (start2 - start1 - 15 - k1)).
Proof.
  intros Hs Hk Hgap.
  destruct (tag_bc2_cases dict r start1 k1 start2 k2 Hs Hk)
    as (H21 & H20 & H22 & _).
  destruct Hgap as [H|[H|H]].
  - rewrite H21 by exact H. do 2 f_equal. lia.
  - rewrite H20 by exact H. do 2 f_equal. lia.
  - rewrite H22 by exact H. do 2 f_equal. lia.
Qed.

Lemma tag_bc1_cases dict (r : string) (start1 start2 k2 : Z) (bc2 : string) :
  (start1 < 5 -> tag_bc1 dict r start1 start2 k2 bc2 = Ok (XE "D"))
  /\ (start1 = 5 ->
      tag_bc1 dict r start1 start2 k2 bc2
      = tag_checkpoints dict r start2 k2 (symbols_before r start1 start1) bc2)
  /\ (5 < start1 ->
      tag_bc1 dict r start1 start2 k2 bc2
      = tag_checkpoints dict r start2 k2 (symbols_before r start1 6) bc2).
Proof.
  unfold tag_bc1.
  destruct (start1 <? 5) eqn:Elt; destruct (start1 =? 5) eqn:Eeq;
    repeat split; intros; try lia; try reflexivity.
  - unfold slice_to. replace 0 with (start1 - start1) by lia.
    rewrite slice_before by lia. reflexivity.
  - rewrite slice_before by lia. reflexivity.
Qed.

(** ** The checkpoints *)

Lemma checkpoint_dist_far (sub tri : string) :
  exists d, checkpoint_dist sub tri = Ok d /\ (gt d 1 = true <-> far sub tri).
Proof.
  unfold checkpoint_dist, hamming_dist, len, far.
  destruct (Z.of_nat (String.length sub) =? Z.of_nat (String.length tri))
    eqn:E; simpl.
  - exists (Int (mismatches sub tri)). split; [reflexivity|].
    simpl. rewrite Z.ltb_lt. split; [now right|].
    intros [H|H]; [lia | exact H].
  - exists Inf. split; [reflexivity|]. simpl. split; [|reflexivity].
    intros _. left. lia.
Qed.

Lemma tag_checkpoints_cases dict (r : string) (start2 k2 : Z)
  (bc1 bc2 : string) :
  0 <= start2 + 21 + k2 ->
  let acg := symbols_at r (start2 + 21 + k2) 3 in
  let gac := symbols_at r (start2 + 32 + k2) 3 in
  (far acg "ACG" /\ tag_checkpoints dict r start2 k2 bc1 bc2 = Ok (XE "J"))
  \/ (~ far acg "ACG" /\ far gac "GAC"
      /\ tag_checkpoints dict r start2 k2 bc1 bc2 = Ok (XE "K"))
  \/ (~ far acg "ACG" /\ ~ far gac "GAC"
      /\ tag_checkpoints dict r start2 k2 bc1 bc2
         = tag_blocks dict r start2 k2 bc1 bc2).
Proof.
  intros Hpos acg gac. unfold tag_checkpoints.
  replace (start2 + 24 + k2) with (start2 + 21 + k2 + 3) by lia.
  replace (start2 + 35 + k2) with (start2 + 32 + k2 + 3) by lia.
  rewrite !slice_at by lia. fold acg gac.
  destruct (checkpoint_dist_far acg "ACG") as (d1 & -> & Hd1).
  destruct (checkpoint_dist_far gac "GAC") as (d2 & -> & Hd2).
  cbn [bind].
  destruct (gt d1 1).
  - left. split; [now apply Hd1 | reflexivity].
  - right. assert (Hn1 : ~ far acg "ACG")
      by (intros H; apply Hd1 in H; discriminate).
    destruct (gt d2 1).
    + left. repeat split; [exact Hn1 | now apply Hd2].
    + right. repeat split; [exact Hn1|].
      intros H; apply Hd2 in H; discriminate.
Qed.

(** ** Barcode correction and the result *)

Lemma fix_blocks_three dict (b1 b2 b3 : string) (barcode : list string) :
  fix_blocks dict [b1; b2; b3] [] = Ok (Some barcode) ->
  exists c1 c2 c3,
    barcode = [c1; c2; c3]
    /\ fix_block dict b1 = Ok (Some c1)
    /\ fix_block dict b2 = Ok (Some c2)
    /\ fix_block dict b3 = Ok (Some c3).
Proof.
  cbn [fix_blocks].
  destruct (fix_block dict b1) as [[c1|]|]; cbn [bind]; try discriminate.
  destruct (String.eqb c1 ""); try discriminate.
  destruct (fix_block dict b2) as [[c2|]|]; cbn [bind]; try discriminate.
  destruct (String.eqb c2 ""); try discriminate.
  destruct (fix_block dict b3) as [[c3|]|]; cbn [bind]; try discriminate.
  destruct (String.eqb c3 ""); try discriminate.
  intros [= <-]. exists c1, c2, c3. auto.
Qed.

Lemma tag_blocks_cases dict (r : string) (start2 k2 : Z) (bc1 bc2 : string)
  (tags : list tag) :
  tag_blocks dict r start2 k2 bc1 bc2 = Ok tags ->
  tags = XE "B"
  \/ exists c1 c2 c3,
       In c1 dict /\ In c2 dict /\ In c3 dict
       /\ tags = [("XB", c1 ++ c2 ++ c3, "Z");
                  ("XU", slice r (start2 + 24 + k2) (start2 + 32 + k2), "Z")].
Proof.
  unfold tag_blocks.
  destruct (fix_blocks dict _ []) as [[barcode|]|] eqn:Hfix; cbn [bind];
    try discriminate.
  - intros [= <-]. right.
    apply fix_blocks_three in Hfix.
    destruct Hfix as (c1 & c2 & c3 & -> & H1 & H2 & H3).
    exists c1, c2, c3.
    repeat split; try (eapply fix_block_member; eassumption).
    simpl. now rewrite append_empty_r.
  - intros [= <-]. now left.
Qed.

Lemma umi_length (r : string) (pos : Z) :
  8 <= pos ->
  String.length (symbols_at r pos 3) = 3%nat ->
  String.length (slice r (pos - 8) pos) = 8%nat.
Proof.
  intros Hpos. unfold symbols_at. rewrite slice_substring by lia.
  rewrite !substring_length. lia.
Qed.

Lemma not_far_length (sub tri : string) :
  ~ far sub tri -> String.length sub = String.length tri.
Proof.
  unfold far. intros H.
  destruct (Nat.eq_dec (String.length sub) (String.length tri)); tauto.
Qed.

Lemma failure_code (code : string) :
  In code error_codes -> is_failure (XE code).
Proof. intros H. exists code. auto. Qed.

Lemma tag_bc2_variant dict (r : string) (start1 k1 start2 k2 : Z)
  (tags : list tag) :
  -1 <= start1 -> -1 <= k1 <= 1 -> -1 <= k2 <= 1 ->
  tag_bc2 dict r start1 k1 start2 k2 = Ok tags ->
  is_failure tags \/ is_success dict tags.
Proof.
  intros Hs Hk1 Hk2.
  destruct (tag_bc2_cases dict r start1 k1 start2 k2 Hs (proj1 Hk1))
    as (_ & _ & _ & HI).
  destruct (Z.eq_dec (start2 - start1) (21 + k1)) as [E21|N21];
    [|destruct (Z.eq_dec (start2 - start1) (20 + k1)) as [E20|N20];
      [|destruct (Z.eq_dec (start2 - start1) (22 + k1)) as [E22|N22]]].
  4: { rewrite HI by assumption. intros [= <-]. left.
       apply failure_code. simpl. tauto. }
  all: rewrite tag_bc2_accepted by (unfold gap_accepted; lia).
  all: destruct (tag_bc1_cases dict r start1 start2 k2
                   (symbols_before r start2 (start2 - start1 - 15 - k1)))
         as (HD & H5 & H6).
  all: destruct (Z_lt_le_dec start1 5) as [Hlt|Hge];
         [ rewrite HD by assumption; intros [= <-]; left;
           apply failure_code; simpl; tauto | ].
  all: assert (Hck : exists bc1 bc2,
                  tag_bc1 dict r start1 start2 k2
                    (symbols_before r start2 (start2 - start1 - 15 - k1))
                  = tag_checkpoints dict r start2 k2 bc1 bc2)
         by (destruct (Z.eq_dec start1 5);
             [rewrite H5 by assumption | rewrite H6 by lia]; eauto).
  all: destruct Hck as (bc1 & bc2 & ->).
  all: destruct (tag_checkpoints_cases dict r start2 k2 bc1 bc2 ltac:(lia))
         as [[_ ->]|[(_ & _ & ->)|(_ & Hgac & ->)]];
         [ intros [= <-]; left; apply failure_code; simpl; tauto
         | intros [= <-]; left; apply failure_code; simpl; tauto
         | ].
  all: intros Htags; apply tag_blocks_cases in Htags.
  all: destruct Htags as [->|(c1 & c2 & c3 & I1 & I2 & I3 & ->)];
         [ left; apply failure_code; simpl; tauto | right ].
  all: exists c1, c2, c3, (slice r (start2 + 24 + k2) (start2 + 32 + k2)).
  all: repeat split; try assumption.
  all: apply not_far_length in Hgac.
  all: replace (start2 + 24 + k2) with (start2 + 32 + k2 - 8) by lia.
  all: apply umi_length; [lia | exact Hgac].
Qed.

Lemma make_tags_cases local_alignment dict (read : string) (tags : list tag) :
  make_tags local_alignment dict read = Ok tags ->
  tags = XE "LX" \/ tags = XE "L1" \/ tags = XE "L2"
  \/ exists start1 k1 start2 k2,
       linkers_located local_alignment read start1 k1 start2 k2
       /\ tag_bc2 dict (upper read) start1 k1 start2 k2 = Ok tags.
Proof.
  unfold make_tags, linkers_located.
  destruct (locate local_alignment (upper read) linker1) as [l1|];
    cbn [bind]; [|discriminate].
  destruct (locate local_alignment (upper read) linker2) as [l2|];
    cbn [bind]; [|discriminate].
  destruct l1 as [[s1 k1]|], l2 as [[s2 k2]|]; cbn [truthy];
    try destruct (s1 =? 0) eqn:E1; try destruct (s2 =? 0) eqn:E2;
    try (intros [= <-]; tauto).
  intros H. do 3 right. exists s1, k1, s2, k2.
  repeat split; try assumption; lia.
Qed.

(** C7. Every tag list that [make_tags] returns is exactly one variant:
    a single failure tag carrying one of the codes LX, L1, L2, I, D, J, K,
    B, or a success whose cell barcode is the concatenation of three
    members of the barcode dictionary and whose UMI has exactly 8
    symbols; never both. *)
Theorem C7_tagset_is_one_variant
  local_alignment dict (read : string) (tags : list tag) :
  make_tags local_alignment dict read = Ok tags ->
  (is_failure tags \/ is_success dict tags)
  /\ ~ (is_failure tags /\ is_success dict tags).
Proof.
  intros H. split.
  - apply make_tags_cases in H.
    destruct H as [->|[->|[->|(s1 & k1 & s2 & k2 & Hloc & H)]]];
      try (left; apply failure_code; simpl; tauto).
    destruct (located_bounds _ _ _ _ _ _ Hloc) as [[Hs Hk1] [_ Hk2]].
    exact (tag_bc2_variant dict _ s1 k1 s2 k2 tags Hs Hk1 Hk2 H).
  - intros [(code & _ & ->) (b1 & b2 & b3 & umi & _ & _ & _ & _ & E)].
    discriminate.
Qed.

Lemma make_tags_checkpoints
  local_alignment dict (read : string) (start1 k1 start2 k2 : Z) :
  linkers_located local_alignment read start1 k1 start2 k2 ->
  gap_accepted start1 k1 start2 ->
  5 <= start1 ->
  0 <= start2 + 21 + k2
  /\ exists bc1 bc2,
       make_tags local_alignment dict read
       = tag_checkpoints dict (upper read) start2 k2 bc1 bc2.
Proof.
  intros Hloc Hgap H5.
  destruct (located_bounds _ _ _ _ _ _ Hloc) as [[Hs Hk1] [_ Hk2]].
  split; [unfold gap_accepted in Hgap; lia|].
  rewrite (make_tags_located _ dict _ _ _ _ _ Hloc).
  rewrite tag_bc2_accepted by (assumption || lia).
  destruct (tag_bc1_cases dict (upper read) start1 start2 k2
              (symbols_before (upper read) start2
                 (start2 - start1 - 15 - k1))) as (_ & E5 & E6).
  destruct (Z.eq_dec start1 5);
    [rewrite E5 by assumption | rewrite E6 by lia]; eauto.
Qed.

Lemma tag_blocks_not_checkpoint_error dict (r : string) (start2 k2 : Z)
  (bc1 bc2 : string) :
  tag_blocks dict r start2 k2 bc1 bc2 <> Ok (XE "J")
  /\ tag_blocks dict r start2 k2 bc1 bc2 <> Ok (XE "K").
Proof.
  split; intros H; apply tag_blocks_cases in H;
    destruct H as [H|(c1 & c2 & c3 & _ & _ & _ & H)]; discriminate.
Qed.

(** The checkpoint errors in terms of the distance that the code
    computes. *)
Lemma make_tags_checkpoint_errors
  local_alignment dict (read : string) (start1 k1 start2 k2 : Z) :
  linkers_located local_alignment read start1 k1 start2 k2 ->
  gap_accepted start1 k1 start2 ->
  5 <= start1 ->
  let acg := symbols_at (upper read) (start2 + 21 + k2) 3 in
  let gac := symbols_at (upper read) (start2 + 32 + k2) 3 in
  (make_tags local_alignment dict read = Ok (XE "J") <-> far acg "ACG")
  /\ (~ far acg "ACG" ->
      (make_tags local_alignment dict read = Ok (XE "K") <-> far gac "GAC")).
Proof.
  intros Hloc Hgap H5 acg gac.
  destruct (make_tags_checkpoints _ dict _ _ _ _ _ Hloc Hgap H5)
    as (Hpos & bc1 & bc2 & ->).
  destruct (tag_blocks_not_checkpoint_error dict (upper read) start2 k2
              bc1 bc2) as [HnJ HnK].
  destruct (tag_checkpoints_cases dict (upper read) start2 k2 bc1 bc2 Hpos)
    as [[Hacg ->]|[(Hacg & Hgac & ->)|(Hacg & Hgac & ->)]];
    fold acg gac in Hacg; try fold gac in Hgac.
  - split; [tauto|]. intros; contradiction.
  - split; [split; [discriminate | contradiction]|]. tauto.
  - split; [split; [intros; contradiction | contradiction]|].
    intros _. split; [intros; contradiction | contradiction].
Qed.

(** ** Exceptions *)

Lemma fix_block_returns dict (block : string) :
  Forall (fun bc => bc <> "") dict ->
  exists fixed, fix_block dict block = Ok fixed.
Proof.
  intros Hne. unfold fix_block. rewrite fix_block_in_find by assumption.
  eauto.
Qed.

Lemma fix_blocks_returns dict (blocks barcode : list string) :
  Forall (fun bc => bc <> "") dict ->
  exists fixed, fix_blocks dict blocks barcode = Ok fixed.
Proof.
  intros Hne. revert barcode.
  induction blocks as [|block blocks IH]; intros barcode; cbn [fix_blocks].
  - eauto.
  - destruct (fix_block_returns dict block Hne) as [[bc|] ->]; cbn [bind].
    + destruct (String.eqb bc ""); eauto.
    + eauto.
Qed.

Lemma tag_bc2_returns dict (r : string) (start1 k1 start2 k2 : Z) :
  Forall (fun bc => bc <> "") dict ->
  exists tags, tag_bc2 dict r start1 k1 start2 k2 = Ok tags.
Proof.
  intros Hne.
  assert (Hblocks : forall bc1 bc2,
             exists tags, tag_blocks dict r start2 k2 bc1 bc2 = Ok tags).
  { intros bc1 bc2. unfold tag_blocks.
    destruct (fix_blocks_returns dict
                [bc1; bc2; slice r (start2 + 15 + k2) (start2 + 21 + k2)]
                [] Hne) as [[barcode|] ->]; cbn [bind]; eauto. }
  assert (Hck : forall bc1 bc2,
             exists tags, tag_checkpoints dict r start2 k2 bc1 bc2 = Ok tags).
  { intros bc1 bc2. unfold tag_checkpoints.
    destruct (checkpoint_dist_far
                (slice r (start2 + 21 + k2) (start2 + 24 + k2)) "ACG")
      as (d1 & -> & _).
    destruct (checkpoint_dist_far
                (slice r (start2 + 32 + k2) (start2 + 35 + k2)) "GAC")
      as (d2 & -> & _).
    cbn [bind]. destruct (gt d1 1); [eauto|]. destruct (gt d2 1); eauto. }
  assert (Hbc1 : forall bc2,
             exists tags, tag_bc1 dict r start1 start2 k2 bc2 = Ok tags).
  { intros bc2. unfold tag_bc1.
    destruct (start1 <? 5); [eauto|]. destruct (start1 =? 5); eauto. }
  unfold tag_bc2.
  repeat match goal with
         | |- context [if ?c then _ else _] => destruct c
         end; eauto.
Qed.

Lemma accepts_raises (block : string) (score : option Z) (e : exn) :
  accepts block score = Raise e -> e = TypeError.
Proof.
  unfold accepts, ge.
  destruct (len block =? 5), (6 <=? len block), score as [z|]; cbn [bind];
    try destruct (4 <=? z); try discriminate; now intros [= <-].
Qed.

Lemma fix_block_raises dict (block : string) (e : exn) :
  fix_block dict block = Raise e -> e = TypeError.
Proof.
  unfold fix_block. induction dict as [|bc dict IH]; cbn [fix_block_in].
  - discriminate.
  - destruct (accepts block _) as [[|]|e'] eqn:Ha; cbn [bind].
    + discriminate.
    + exact IH.
    + intros [= <-]. eapply accepts_raises; eassumption.
Qed.

Lemma fix_blocks_raises dict (blocks barcode : list string) (e : exn) :
  fix_blocks dict blocks barcode = Raise e -> e = TypeError.
Proof.
  revert barcode.
  induction blocks as [|block blocks IH]; intros barcode; cbn [fix_blocks].
  - discriminate.
  - destruct (fix_block dict block) as [[bc|]|e'] eqn:Hf; cbn [bind].
    + destruct (String.eqb bc ""); [discriminate | apply IH].
    + discriminate.
    + intros [= <-]. eapply fix_block_raises; eassumption.
Qed.

Lemma tag_bc2_raises dict (r : string) (start1 k1 start2 k2 : Z) (e : exn) :
  tag_bc2 dict r start1 k1 start2 k2 = Raise e -> e = TypeError.
Proof.
  assert (Hblocks : forall bc1 bc2,
             tag_blocks dict r start2 k2 bc1 bc2 = Raise e -> e = TypeError).
  { intros bc1 bc2. unfold tag_blocks.
    destruct (fix_blocks dict _ []) as [[barcode|]|e'] eqn:Hf; cbn [bind];
      try discriminate.
    intros [= <-]. eapply fix_blocks_raises; eassumption. }
  assert (Hck : forall bc1 bc2,
             tag_checkpoints dict r start2 k2 bc1 bc2 = Raise e ->
             e = TypeError).
  { intros bc1 bc2. unfold tag_checkpoints.
    destruct (checkpoint_dist_far
                (slice r (start2 + 21 + k2) (start2 + 24 + k2)) "ACG")
      as (d1 & -> & _).
    destruct (checkpoint_dist_far
                (slice r (start2 + 32 + k2) (start2 + 35 + k2)) "GAC")
      as (d2 & -> & _).
    cbn [bind]. destruct (gt d1 1); [discriminate|].
    destruct (gt d2 1); [discriminate | apply Hblocks]. }
  assert (Hbc1 : forall bc2,
             tag_bc1 dict r start1 start2 k2 bc2 = Raise e -> e = TypeError).
  { intros bc2. unfold tag_bc1.
    destruct (start1 <? 5); [discriminate|].
    destruct (start1 =? 5); apply Hck. }
  unfold tag_bc2.
  repeat match goal with
         | |- context [if ?c then _ else _] => destruct c
         end; try apply Hbc1; discriminate.
Qed.

Lemma locate_raises local_alignment (read linker : string) (e : exn) :
  locate local_alignment read linker = Raise e ->
  e = IndexError /\ local_alignment read linker (-2) (-1) = [].
Proof.
  unfold locate. destruct (local_alignment read linker (-2) (-1));
    cbn [item0 bind]; [|discriminate].
  intros [= <-]. auto.
Qed.

Lemma make_tags_raises local_alignment dict (read : string) (e : exn) :
  make_tags local_alignment dict read = Raise e ->
  e = IndexError \/ e = TypeError.
Proof.
  unfold make_tags.
  destruct (locate local_alignment (upper read) linker1) as [l1|e1] eqn:H1;
    cbn [bind].
  2: { intros [= <-]. left. eapply locate_raises; eassumption. }
  destruct (locate local_alignment (upper read) linker2) as [l2|e2] eqn:H2;
    cbn [bind].
  2: { intros [= <-]. left. eapply locate_raises; eassumption. }
  destruct (truthy l1) as [[s1 k1]|], (truthy l2) as [[s2 k2]|];
    try discriminate.
  intros H. right. eapply tag_bc2_raises; eassumption.
Qed.

Lemma locate_returns local_alignment (read linker : string) :
  local_alignment read linker (-2) (-1) <> [] ->
  exists l, locate local_alignment read linker = Ok l.
Proof.
  unfold locate. destruct (local_alignment read linker (-2) (-1));
    [congruence|]. cbn [item0 bind]. eauto.
Qed.

(** [make_tags] never lets the [ValueError] of [hamming_dist] escape,
    whatever the read; and it returns a tag list, without raising, for
    every read for which the aligner reports at least one alignment of
    each linker, given a dictionary of non-empty entries. *)
Lemma make_tags_returns_when_linkers_align
  local_alignment dict (read : string) :
  make_tags local_alignment dict read <> Raise ValueError
  /\ (local_alignment (upper read) linker1 (-2) (-1) <> [] ->
      local_alignment (upper read) linker2 (-2) (-1) <> [] ->
      Forall (fun bc => bc <> "") dict ->
      exists tags, make_tags local_alignment dict read = Ok tags).
Proof.
  split.
  - intros H. apply make_tags_raises in H. destruct H; discriminate.
  - intros H1 H2 Hne. unfold make_tags.
    destruct (locate_returns _ _ _ H1) as [l1 ->].
    destruct (locate_returns _ _ _ H2) as [l2 ->]. cbn [bind].
    destruct (truthy l1) as [[s1 k1]|], (truthy l2) as [[s2 k2]|]; eauto.
    now apply tag_bc2_returns.
Qed.

(** ** The reference aligner on a linker that occurs once *)

Module AlignerFacts.

Import Pairwise2.

Lemma fill_row_spec (open extend : Z) (x : ascii) (b : list ascii) :
  forall (prevH prevF : list Z) (leftH leftE : Z) hs es fs,
    List.length prevH = S (List.length b) ->
    List.length prevF = List.length b ->
    fill_row open extend x b prevH prevF leftH leftE = (hs, es, fs) ->
    List.length hs = List.length b
    /\ List.length es = List.length b
    /\ List.length fs = List.length b
    /\ forall j, (j < List.length b)%nat ->
         nth j es 0 = Z.max (nth j (leftH :: hs) 0 + open)
                        (nth j (leftE :: es) 0 + extend)
         /\ nth j fs 0 = Z.max (nth (S j) prevH 0 + open)
                           (nth j prevF 0 + extend)
         /\ nth j hs 0
            = clip (Z.max (nth j prevH 0 + identity_match x (symbol b j))
                      (Z.max (nth j es 0) (nth j fs 0))).
Proof.
  induction b as [|y b IH]; intros prevH prevF leftH leftE hs es fs LH LF Hrow.
  - simpl in Hrow. injection Hrow as <- <- <-.
    split; [|split; [|split]]; auto.
    intros j Hj. simpl in Hj. lia.
  - destruct prevH as [|d [|u prevH]]; try discriminate LH.
    destruct prevF as [|f prevF]; try discriminate LF.
    cbn [fill_row] in Hrow.
    set (e := Z.max (leftH + open) (leftE + extend)) in *.
    set (f' := Z.max (u + open) (f + extend)) in *.
    set (best := Z.max (d + identity_match x y) (Z.max e f')) in *.
    set (h := if best <? 0 then 0 else best) in *.
    destruct (fill_row open extend x b (u :: prevH) prevF h e)
      as [[hs' es'] fs'] eqn:Hrec.
    injection Hrow as <- <- <-.
    destruct (IH (u :: prevH) prevF h e hs' es' fs') as (L1 & L2 & L3 & Hn);
      [simpl in *; lia | simpl in *; lia | exact Hrec |].
    split; [|split; [|split]]; try (simpl; lia).
    intros [|j] Hj.
    + repeat split.
    + simpl in Hj. destruct (Hn j ltac:(lia)) as (He & Hf & Hh).
      repeat split; assumption.
Qed.

Section Rows.

Variables (open extend : Z) (a b : list ascii).

Local Abbreviation rH := (Pairwise2.rH open extend a b).
Local Abbreviation rE := (Pairwise2.rE open extend a b).
Local Abbreviation rF := (Pairwise2.rF open extend a b).

Lemma row_at_eq (i : nat) : row_at open extend a b i = (rH i, rE i, rF i).
Proof.
  unfold Pairwise2.rH, Pairwise2.rE, Pairwise2.rF.
  now destruct (row_at open extend a b i) as [[? ?] ?].
Qed.

Lemma nth_tl (l : list Z) (j : nat) : nth j (tl l) 0 = nth (S j) l 0.
Proof. destruct l; [now destruct j | reflexivity]. Qed.

Lemma row_at_S (i : nat) :
  exists hs es fs,
    fill_row open extend (symbol a i) b (rH i) (tl (rF i)) 0
      (border open extend (S i)) = (hs, es, fs)
    /\ rH (S i) = 0 :: hs
    /\ rE (S i) = border open extend (S i) :: es
    /\ rF (S i) = 0 :: fs.
Proof.
  unfold Pairwise2.rH at 2, Pairwise2.rE, Pairwise2.rF at 2.
  cbn [row_at]. rewrite (row_at_eq i).
  unfold next_row.
  destruct (fill_row open extend (symbol a i) b (rH i) (tl (rF i)) 0
              (border open extend (S i))) as [[hs es] fs].
  exists hs, es, fs. repeat split.
Qed.

Lemma row_at_length (i : nat) :
  List.length (rH i) = S (List.length b)
  /\ List.length (rE i) = S (List.length b)
  /\ List.length (rF i) = S (List.length b).
Proof.
  induction i as [|i (LH & LE & LF)].
  - unfold Pairwise2.rH, Pairwise2.rE, Pairwise2.rF. cbn [row_at row0 fst snd].
    rewrite repeat_length. cbn [List.length].
    rewrite length_map, length_seq. auto.
  - destruct (row_at_S i) as (hs & es & fs & Hrow & -> & -> & ->).
    apply fill_row_spec in Hrow.
    + destruct Hrow as (L1 & L2 & L3 & _). cbn [List.length]. lia.
    + exact LH.
    + destruct (rF i); simpl in *; lia.
Qed.

Lemma row0_H (j : nat) : nth j (rH 0) 0 = 0.
Proof.
  unfold Pairwise2.rH. cbn [row_at row0 fst]. apply nth_repeat.
Qed.

Lemma row0_F (j : nat) :
  (j < List.length b)%nat -> nth (S j) (rF 0) 0 = border open extend (S j).
Proof.
  intros Hj. unfold Pairwise2.rF. cbn [row_at row0 snd nth].
  rewrite (nth_indep _ 0 (border open extend 0))
    by (rewrite length_map, length_seq; lia).
  rewrite map_nth. rewrite seq_nth by lia. reflexivity.
Qed.

Lemma col0_H (i : nat) : nth 0 (rH i) 0 = 0.
Proof.
  destruct i; [apply row0_H|].
  destruct (row_at_S i) as (hs & es & fs & _ & -> & _). reflexivity.
Qed.

Lemma col0_E (i : nat) : nth 0 (rE (S i)) 0 = border open extend (S i).
Proof.
  destruct (row_at_S i) as (hs & es & fs & _ & _ & -> & _). reflexivity.
Qed.

Lemma cell_S (i j : nat) :
  (j < List.length b)%nat ->
  nth (S j) (rE (S i)) 0
  = Z.max (nth j (rH (S i)) 0 + open) (nth j (rE (S i)) 0 + extend)
  /\ nth (S j) (rF (S i)) 0
     = Z.max (nth (S j) (rH i) 0 + open) (nth (S j) (rF i) 0 + extend)
  /\ nth (S j) (rH (S i)) 0
     = clip (Z.max (nth j (rH i) 0 + identity_match (symbol a i) (symbol b j))
               (Z.max (nth (S j) (rE (S i)) 0) (nth (S j) (rF (S i)) 0))).
Proof.
  intros Hj.
  destruct (row_at_S i) as (hs & es & fs & Hrow & -> & -> & ->).
  destruct (row_at_length i) as (LH & _ & LF).
  apply fill_row_spec in Hrow;
    [| exact LH | destruct (rF i); simpl in *; lia].
  destruct Hrow as (_ & _ & _ & Hn).
  destruct (Hn j Hj) as (He & Hf & Hh).
  rewrite nth_tl in Hf. cbn [nth]. repeat split; assumption.
Qed.

End Rows.

Lemma fill_rows (open extend : Z) (whole b : list ascii) :
  forall (a' : list ascii) (i : nat) H E F,
    (forall k, (k < List.length a')%nat ->
               symbol a' k = symbol whole (i + k)) ->
    fill open extend a' b (S i) (rH open extend whole b i)
      (rF open extend whole b i) = (H, E, F) ->
    forall k, (k < List.length a')%nat ->
      nth k H [] = rH open extend whole b (S i + k)
      /\ nth k E [] = rE open extend whole b (S i + k)
      /\ nth k F [] = rF open extend whole b (S i + k).
Proof.
  induction a' as [|x a' IH]; intros i H E F Hsym Hfill k Hk.
  - simpl in Hk. lia.
  - cbn [fill] in Hfill.
    assert (Hx : x = symbol whole i).
    { specialize (Hsym 0%nat ltac:(simpl; lia)).
      unfold symbol in *. cbn [nth] in Hsym.
      now rewrite Nat.add_0_r in Hsym. }
    assert (Hnext : next_row open extend b (S i) x
                      (rH open extend whole b i) (rF open extend whole b i)
                    = (rH open extend whole b (S i),
                       rE open extend whole b (S i),
                       rF open extend whole b (S i))).
    { rewrite <- row_at_eq. cbn [row_at]. rewrite (row_at_eq _ _ _ _ i).
      now rewrite Hx. }
    rewrite Hnext in Hfill.
    destruct (fill open extend a' b (S (S i)) _ _) as [[H' E'] F'] eqn:Hrec.
    injection Hfill as <- <- <-.
    destruct k as [|k].
    + rewrite Nat.add_0_r. repeat split.
    + cbn [nth]. replace (S i + S k)%nat with (S (S i) + k)%nat by lia.
      apply (IH (S i) H' E' F'); [| exact Hrec | simpl in Hk; lia].
      intros k' Hk'. specialize (Hsym (S k') ltac:(simpl; lia)).
      unfold symbol in *. cbn [nth] in Hsym. rewrite Hsym. f_equal. lia.
Qed.

Lemma matrices_rows (open extend : Z) (a b : list ascii) H E F :
  matrices open extend a b = (H, E, F) ->
  forall i, (i <= List.length a)%nat ->
    nth i H [] = rH open extend a b i
    /\ nth i E [] = rE open extend a b i
    /\ nth i F [] = rF open extend a b i.
Proof.
  unfold matrices. intros Hm i Hi.
  pose proof (row_at_eq open extend a b 0) as H0. cbn [row_at] in H0.
  rewrite H0 in Hm.
  destruct (fill open extend a b 1 _ _) as [[H' E'] F'] eqn:Hfill.
  injection Hm as <- <- <-.
  destruct i as [|i]; [repeat split|].
  cbn [nth].
  apply (fill_rows open extend a b a 0 H' E' F'); [| exact Hfill | lia].
  intros k _. reflexivity.
Qed.

Section Scores.

Variables (a b : list ascii).

Local Abbreviation hc := (Pairwise2.hc a b).
Local Abbreviation ec := (Pairwise2.ec a b).
Local Abbreviation fc := (Pairwise2.fc a b).

Lemma identity_match_range (x y : ascii) :
  (identity_match x y = 1 /\ x = y) \/ (identity_match x y = 0 /\ x <> y).
Proof.
  unfold identity_match. destruct (Ascii.eqb_spec x y); auto.
Qed.

Lemma scores_rec (i j : nat) :
  (j < List.length b)%nat ->
  ec (S i) (S j) = Z.max (hc (S i) j - 2) (ec (S i) j - 1)
  /\ fc (S i) (S j) = Z.max (hc i (S j) - 2) (fc i (S j) - 1)
  /\ hc (S i) (S j)
     = clip (Z.max (hc i j + identity_match (symbol a i) (symbol b j))
               (Z.max (ec (S i) (S j)) (fc (S i) (S j)))).
Proof.
  intros Hj. unfold Pairwise2.hc, Pairwise2.ec, Pairwise2.fc.
  destruct (cell_S (-2) (-1) a b i j Hj) as (He & Hf & Hh).
  rewrite He, Hf at 1. rewrite Hh at 1. repeat split.
Qed.

Lemma scores_bounds (i : nat) :
  forall j, (j <= List.length b)%nat ->
    0 <= hc i j <= Z.of_nat j
    /\ (forall i', i = S i' -> ec i j <= Z.of_nat j - 1)
    /\ ((1 <= j)%nat -> fc i j <= Z.of_nat j - 1).
Proof.
  induction i as [|i IHi].
  - intros j Hj. unfold Pairwise2.hc. rewrite row0_H. split; [lia|]. split.
    + discriminate.
    + intros H1. destruct j as [|j]; [lia|]. unfold Pairwise2.fc.
      rewrite row0_F by lia. unfold border. lia.
  - induction j as [|j IHj]; intros Hj.
    + unfold Pairwise2.hc, Pairwise2.ec. rewrite col0_H, col0_E. unfold border.
      split; [lia|]. split; [intros; lia | lia].
    + destruct (IHj ltac:(lia)) as (Hh & He & _).
      specialize (He i eq_refl).
      destruct (IHi j ltac:(lia)) as (Hd & _ & _).
      destruct (IHi (S j) Hj) as (Hu & _ & Hf).
      specialize (Hf ltac:(lia)).
      destruct (scores_rec i j ltac:(lia)) as (Ee & Ef & Eh).
      destruct (identity_match_range (symbol a i) (symbol b j))
        as [[Hs _]|[Hs _]];
        rewrite Eh, Ee, Ef, Hs; unfold clip;
        repeat match goal with
               | |- context [if ?c then _ else _] => destruct c eqn:?
               end; repeat split; intros; lia.
Qed.

Lemma scores_diag (i j : nat) :
  (j < List.length b)%nat ->
  hc (S i) (S j) = Z.of_nat (S j) ->
  hc i j = Z.of_nat j /\ symbol a i = symbol b j.
Proof.
  intros Hj Hfull.
  destruct (scores_bounds i j ltac:(lia)) as (Hd & _ & _).
  destruct (scores_bounds (S i) (S j) ltac:(lia)) as (_ & He & Hf).
  specialize (He i eq_refl). specialize (Hf ltac:(lia)).
  destruct (scores_rec i j Hj) as (_ & _ & Eh).
  rewrite Eh in Hfull. unfold clip in Hfull.
  destruct (identity_match_range (symbol a i) (symbol b j))
    as [[Hs Heq]|[Hs _]]; rewrite Hs in Hfull;
    destruct (_ <? 0) in Hfull; try lia.
  split; [lia | exact Heq].
Qed.

Lemma scores_match (i j : nat) :
  (j < List.length b)%nat ->
  symbol a i = symbol b j ->
  hc i j + 1 <= hc (S i) (S j).
Proof.
  intros Hj Heq.
  destruct (scores_rec i j Hj) as (_ & _ & Eh).
  rewrite Eh. unfold identity_match. rewrite Heq, Ascii.eqb_refl.
  unfold clip. destruct (_ <? 0) eqn:E; lia.
Qed.

(** A full score in column [j] is a run of [j] matching symbols. *)
Lemma scores_full (j : nat) :
  forall i, (j <= List.length b)%nat ->
    hc i j = Z.of_nat j ->
    (j <= i)%nat
    /\ forall t, (t < j)%nat -> symbol a (i - j + t) = symbol b t.
Proof.
  induction j as [|j IH]; intros i Hj Hfull.
  - split; [lia|]. intros t Ht. lia.
  - destruct i as [|i].
    + unfold Pairwise2.hc in Hfull. rewrite row0_H in Hfull. lia.
    + apply scores_diag in Hfull; [|lia]. destruct Hfull as [Hd Heq].
      destruct (IH i ltac:(lia) Hd) as [Hle Hrun].
      split; [lia|]. intros t Ht.
      destruct (Nat.eq_dec t j) as [->|Hne].
      * replace (S i - S j + j)%nat with i by lia. exact Heq.
      * replace (S i - S j + t)%nat with (i - j + t)%nat by lia.
        apply Hrun. lia.
Qed.

(** A run of matching symbols scores in full. *)
Lemma scores_run (p : nat) :
  forall j, (j <= List.length b)%nat ->
    (forall t, (t < j)%nat -> symbol a (p + t) = symbol b t) ->
    hc (p + j) j = Z.of_nat j.
Proof.
  induction j as [|j IH]; intros Hj Hrun.
  - unfold Pairwise2.hc. now rewrite col0_H.
  - pose proof (IH ltac:(lia) ltac:(intros; apply Hrun; lia)) as Hd.
    pose proof (scores_match (p + j) j ltac:(lia) (Hrun j ltac:(lia))) as Hm.
    destruct (scores_bounds (S (p + j)) (S j) Hj) as (Hb & _).
    replace (p + S j)%nat with (S (p + j)) by lia. lia.
Qed.

End Scores.

Lemma fill_length (open extend : Z) (b : list ascii) :
  forall (a' : list ascii) (i : nat) prevH prevF H E F,
    fill open extend a' b i prevH prevF = (H, E, F) ->
    List.length H = List.length a'.
Proof.
  induction a' as [|x a' IH]; intros i prevH prevF H E F Hfill.
  - injection Hfill as <- <- <-. reflexivity.
  - cbn [fill] in Hfill.
    destruct (next_row open extend b i x prevH prevF) as [[h e] f].
    destruct (fill open extend a' b (S i) h f) as [[H' E'] F'] eqn:Hrec.
    injection Hfill as <- <- <-. cbn [List.length]. f_equal.
    eapply IH. exact Hrec.
Qed.

Lemma matrices_length (open extend : Z) (a b : list ascii) H E F :
  matrices open extend a b = (H, E, F) ->
  List.length H = S (List.length a).
Proof.
  unfold matrices. destruct (row0 open extend b) as [[H0 E0] F0].
  destruct (fill open extend a b 1 H0 F0) as [[H' E'] F'] eqn:Hfill.
  intros [= <- <- <-]. cbn [List.length]. f_equal.
  eapply fill_length. exact Hfill.
Qed.

Lemma fold_max_bounds (row : list Z) (acc B : Z) :
  acc <= B -> (forall v, In v row -> v <= B) ->
  acc <= fold_right Z.max acc row <= B
  /\ forall v, In v row -> v <= fold_right Z.max acc row.
Proof.
  intros Hacc Hrow. induction row as [|x row IH]; simpl.
  - split; [lia|]. intros v [].
  - destruct IH as [[IH1 IH2] IH3]; [intros v Hv; apply Hrow; now right|].
    pose proof (Hrow x (or_introl eq_refl)).
    split; [lia|]. intros v [<-|Hv]; [lia|]. specialize (IH3 v Hv). lia.
Qed.

Lemma matrix_max_bounds (M : list (list Z)) (B : Z) :
  0 <= B -> (forall row, In row M -> forall v, In v row -> v <= B) ->
  0 <= matrix_max M <= B
  /\ forall row, In row M -> forall v, In v row -> v <= matrix_max M.
Proof.
  intros HB HM. unfold matrix_max. induction M as [|r M IH]; simpl.
  - split; [lia|]. intros row [].
  - destruct IH as [[IH1 IH2] IH3];
      [intros row Hrow; apply HM; now right|].
    destruct (fold_max_bounds r _ B IH2 (HM r (or_introl eq_refl)))
      as [[F1 F2] F3].
    split; [lia|]. intros row [<-|Hrow] v Hv.
    + now apply F3.
    + specialize (IH3 row Hrow v Hv). lia.
Qed.

Lemma find_unique {A : Type} (f : A -> bool) (l : list A) (x : A) :
  In x l -> f x = true ->
  (forall y, In y l -> f y = true -> y = x) ->
  find f l = Some x.
Proof.
  induction l as [|a l IH]; intros Hin Hx Huniq; [destruct Hin|].
  simpl. destruct (f a) eqn:Hfa.
  - f_equal. apply Huniq; [now left | exact Hfa].
  - destruct Hin as [->|Hin]; [congruence|].
    apply IH; auto. intros y Hy. apply Huniq. now right.
Qed.

Section UniqueOccurrence.

Variables (a b : list ascii) (p : nat).

Let n := List.length a.
Let m := List.length b.

Hypothesis b_nonempty : (1 <= m)%nat.
Hypothesis occurs_in_range : (p + m <= n)%nat.
Hypothesis occurs :
  forall t, (t < m)%nat -> symbol a (p + t) = symbol b t.
Hypothesis occurs_once :
  forall q, (q + m <= n)%nat ->
    (forall t, (t < m)%nat -> symbol a (q + t) = symbol b t) -> q = p.

Variables H E F : list (list Z).
Hypothesis HEF : matrices (-2) (-1) a b = (H, E, F).

Lemma cell_H (i j : nat) : (i <= n)%nat -> cell H i j = hc a b i j.
Proof.
  intros Hi. unfold cell, Pairwise2.hc.
  now destruct (matrices_rows _ _ _ _ _ _ _ HEF i Hi) as (-> & _).
Qed.

Lemma cell_E (i j : nat) : (i <= n)%nat -> cell E i j = ec a b i j.
Proof.
  intros Hi. unfold cell, Pairwise2.ec.
  now destruct (matrices_rows _ _ _ _ _ _ _ HEF i Hi) as (_ & -> & _).
Qed.

Lemma full_score_cell (i j : nat) :
  (i <= n)%nat -> (j <= m)%nat ->
  hc a b i j = Z.of_nat m -> i = (p + m)%nat /\ j = m.
Proof.
  intros Hi Hj Hfull.
  destruct (scores_bounds a b i j Hj) as (Hb & _).
  assert (j = m) by lia. subst j. split; [|reflexivity].
  destruct (scores_full a b m i Hj Hfull) as [Hle Hrun].
  assert (i - m = p)%nat by (apply occurs_once; [lia | exact Hrun]).
  lia.
Qed.

Lemma best_score : matrix_max H = Z.of_nat m.
Proof.
  assert (Hrows : forall row, In row H -> forall v, In v row ->
                    v <= Z.of_nat m).
  { intros row Hrow v Hv.
    destruct (In_nth _ _ [] Hrow) as (i & Hi & <-).
    rewrite (matrices_length _ _ _ _ _ _ _ HEF) in Hi.
    destruct (matrices_rows _ _ _ _ _ _ _ HEF i ltac:(lia)) as (Ei & _).
    rewrite Ei in Hv.
    destruct (In_nth _ _ 0 Hv) as (j & Hj & <-).
    destruct (row_at_length (-2) (-1) a b i) as (LH & _).
    rewrite LH in Hj.
    destruct (scores_bounds a b i j ltac:(fold m; lia)) as (Hb & _).
    unfold Pairwise2.hc in Hb. lia. }
  destruct (matrix_max_bounds H (Z.of_nat m) ltac:(lia) Hrows) as [Hle Hge].
  assert (Hcell : Z.of_nat m <= matrix_max H).
  { apply (Hge (nth (p + m) H [])).
    - apply nth_In. rewrite (matrices_length _ _ _ _ _ _ _ HEF). fold n. lia.
    - destruct (matrices_rows _ _ _ _ _ _ _ HEF (p + m)%nat ltac:(fold n; lia))
        as (Ei & _).
      rewrite Ei.
      rewrite <- (scores_run a b p m (le_n _) occurs).
      unfold Pairwise2.hc. apply nth_In.
      destruct (row_at_length (-2) (-1) a b (p + m)) as (LH & _).
      rewrite LH. fold m. lia. }
  lia.
Qed.

Lemma best_end_cell : end_cell H (Z.of_nat m) n m = Some ((p + m)%nat, m).
Proof.
  unfold end_cell. apply find_unique.
  - apply -> in_rev. apply in_prod; apply in_seq; lia.
  - rewrite cell_H by lia.
    rewrite (scores_run a b p m (le_n _) occurs), Z.eqb_refl.
    rewrite cell_H by lia.
    destruct (scores_bounds a b (p + m - 1) (m - 1) ltac:(fold m; lia))
      as (Hb & _).
    destruct (Z.eqb_spec (hc a b (p + m - 1) (m - 1)) (Z.of_nat m));
      [lia | reflexivity].
  - intros [i j] Hin Hf. apply in_rev in Hin. apply in_prod_iff in Hin.
    destruct Hin as [Hi Hj]. apply in_seq in Hi, Hj.
    apply andb_prop in Hf. destruct Hf as [Hf _].
    apply Z.eqb_eq in Hf. rewrite cell_H in Hf by lia.
    destruct (full_score_cell i j ltac:(lia) ltac:(lia) Hf) as [-> ->].
    reflexivity.
Qed.

Lemma traceback_run (t : nat) :
  forall fuel colsA colsB,
    (t <= m)%nat -> (t < fuel)%nat ->
    exists colsA' colsB',
      traceback fuel (-2) H E F a b (p + t) t InH colsA colsB
      = (p, 0%nat, colsA', colsB')
      /\ List.length colsA' = (t + List.length colsA)%nat.
Proof.
  induction t as [|t IH]; intros fuel colsA colsB Ht Hfuel;
    (destruct fuel as [|fuel]; [lia|]).
  - cbn [traceback]. rewrite Nat.add_0_r.
    replace ((p =? 0)%nat || (0 =? 0)%nat || (cell H p 0 <=? 0)) with true
      by (cbn [Nat.eqb]; now rewrite orb_true_r).
    exists colsA, colsB. split; reflexivity.
  - cbn [traceback].
    assert (Hh : cell H (p + S t) (S t) = Z.of_nat (S t)).
    { rewrite cell_H by lia. apply scores_run; [fold m; lia|].
      intros; apply occurs; lia. }
    assert (He : cell E (p + S t) (S t) <= Z.of_nat (S t) - 1).
    { rewrite cell_E by lia.
      destruct (scores_bounds a b (p + S t) (S t) ltac:(fold m; lia))
        as (_ & Hec & _).
      apply (Hec (p + t)%nat). lia. }
    assert (Hd : cell H (p + S t - 1) (S t - 1) = Z.of_nat t).
    { replace (p + S t - 1)%nat with (p + t)%nat by lia.
      replace (S t - 1)%nat with t by lia.
      rewrite cell_H by lia. apply scores_run; [fold m; lia|].
      intros; apply occurs; lia. }
    assert (Hs : identity_match (symbol a (p + S t - 1)) (symbol b (S t - 1))
                 = 1).
    { replace (p + S t - 1)%nat with (p + t)%nat by lia.
      replace (S t - 1)%nat with t by lia.
      unfold identity_match. rewrite (occurs t ltac:(lia)).
      now rewrite Ascii.eqb_refl. }
    rewrite Hh, Hd, Hs.
    replace ((p + S t =? 0)%nat || (S t =? 0)%nat || (Z.of_nat (S t) <=? 0))
      with false.
    2: { destruct (Nat.eqb_spec (p + S t) 0); [lia|]. cbn [orb Nat.eqb].
         destruct (Z.leb_spec (Z.of_nat (S t)) 0); [lia | reflexivity]. }
    destruct (Z.eqb_spec (Z.of_nat (S t)) (cell E (p + S t) (S t))); [lia|].
    destruct (Z.eqb_spec (Z.of_nat (S t)) (Z.of_nat t + 1)); [|lia].
    replace (p + S t - 1)%nat with (p + t)%nat by lia.
    replace (S t - 1)%nat with t by lia.
    destruct (IH fuel (symbol a (p + t) :: colsA) (symbol b t :: colsB)
                ltac:(lia) ltac:(lia)) as (cA & cB & -> & Hlen).
    exists cA, cB. split; [reflexivity|]. cbn [List.length] in Hlen. lia.
Qed.

End UniqueOccurrence.

Lemma localxs_lists (s l : string) (p : nat) :
  let a := list_ascii_of_string s in
  let b := list_ascii_of_string l in
  (1 <= List.length b)%nat ->
  (p + List.length b <= List.length a)%nat ->
  (forall t, (t < List.length b)%nat -> symbol a (p + t) = symbol b t) ->
  (forall q, (q + List.length b <= List.length a)%nat ->
     (forall t, (t < List.length b)%nat -> symbol a (q + t) = symbol b t) ->
     q = p) ->
  exists sA sB,
    localxs s l (-2) (-1)
    = [mkAlignment sA sB (Z.of_nat (List.length b)) p
         (p + List.length b)].
Proof.
  intros a b Hm Hrange Hocc Honce. unfold localxs. fold a b.
  destruct (matrices (-2) (-1) a b) as [[H E] F] eqn:HEF.
  assert (Hbest : matrix_max H = Z.of_nat (List.length b))
    by (eapply best_score; eassumption).
  assert (Hend : end_cell H (Z.of_nat (List.length b)) (List.length a)
                   (List.length b)
                 = Some ((p + List.length b)%nat, List.length b))
    by (eapply best_end_cell; eassumption).
  assert (Htrace : exists cA cB,
             traceback (2 * (List.length a + List.length b) + 2) (-2)
               H E F a b (p + List.length b) (List.length b) InH [] []
             = (p, 0%nat, cA, cB)
             /\ List.length cA = (List.length b + 0)%nat).
  { eapply traceback_run; try eassumption; lia. }
  rewrite Hbest.
  destruct (Z.leb_spec (Z.of_nat (List.length b)) 0); [lia|].
  rewrite Hend. destruct Htrace as (cA & cB & -> & Hlen).
  rewrite Nat.add_0_r in Hlen.
  rewrite Nat.max_0_r, Hlen. eauto.
Qed.

Lemma list_ascii_of_substring (s : string) :
  forall p m,
    list_ascii_of_string (substring p m s)
    = firstn m (skipn p (list_ascii_of_string s)).
Proof.
  induction s as [|c s IH]; intros p m.
  - destruct p, m; reflexivity.
  - destruct p as [|p].
    + destruct m as [|m]; [reflexivity|].
      cbn [substring list_ascii_of_string skipn firstn]. f_equal.
      apply (IH 0%nat m).
    + cbn [substring list_ascii_of_string skipn]. apply IH.
Qed.

Lemma list_ascii_length (s : string) :
  List.length (list_ascii_of_string s) = String.length s.
Proof. induction s; simpl; auto. Qed.

Lemma substring_symbols (s l : string) (q : nat) :
  (1 <= String.length l)%nat ->
  substring q (String.length l) s = l <->
  (q + String.length l <= String.length s)%nat
  /\ forall t, (t < String.length l)%nat ->
       symbol (list_ascii_of_string s) (q + t)
       = symbol (list_ascii_of_string l) t.
Proof.
  intros Hl. split.
  - intros Hsub. split.
    + apply (f_equal String.length) in Hsub.
      rewrite substring_length in Hsub. lia.
    + intros t Ht. apply (f_equal list_ascii_of_string) in Hsub.
      rewrite list_ascii_of_substring in Hsub. unfold symbol.
      rewrite <- Hsub. rewrite nth_firstn.
      destruct (Nat.ltb_spec t (String.length l)); [|lia].
      now rewrite nth_skipn.
  - intros [Hrange Hsym].
    rewrite <- (string_of_list_ascii_of_string (substring _ _ _)).
    rewrite <- (string_of_list_ascii_of_string l) at 2. f_equal.
    rewrite list_ascii_of_substring.
    apply (nth_ext _ _ "-"%char "-"%char).
    + rewrite length_firstn, length_skipn, !list_ascii_length. lia.
    + intros t Ht.
      rewrite length_firstn, length_skipn, !list_ascii_length in Ht.
      rewrite nth_firstn.
      destruct (Nat.ltb_spec t (String.length l)); [|lia].
      rewrite nth_skipn. apply Hsym. lia.
Qed.

(** When [linker] occurs in [read] at offset [p] and nowhere else, the
    reference aligner reports that occurrence: every symbol matched, no
    gap. *)
Lemma localxs_unique_occurrence (read linker : string) (p : nat) :
  linker <> ""%string ->
  substring p (String.length linker) read = linker ->
  (forall q, substring q (String.length linker) read = linker -> q = p) ->
  exists sA sB,
    localxs read linker (-2) (-1)
    = [mkAlignment sA sB (len linker) p (p + String.length linker)].
Proof.
  intros Hne Hocc Honce.
  assert (Hl : (1 <= String.length linker)%nat)
    by (destruct linker; [congruence | simpl; lia]).
  apply substring_symbols in Hocc; [|exact Hl].
  destruct Hocc as [Hrange Hsym].
  unfold len. rewrite <- !list_ascii_length. apply localxs_lists.
  - now rewrite list_ascii_length.
  - rewrite !list_ascii_length. exact Hrange.
  - rewrite list_ascii_length. exact Hsym.
  - rewrite !list_ascii_length. intros q Hq Hrun. apply Honce.
    apply substring_symbols; auto.
Qed.

End AlignerFacts.

(** ** The end-to-end read *)

(** Pairing every symbol of a sequence with itself is one global
    alignment, so the optimal score of a sequence against itself is at
    least its length. *)
Lemma global_score_self (open extend : Z) (a : string) :
  forall p, len a <= Pairwise2.global_score open extend a a p.
Proof.
  unfold len. induction a as [|x a IH]; intros p.
  - simpl. lia.
  - cbn [Pairwise2.global_score String.length].
    unfold Pairwise2.identity_match at 1. rewrite Ascii.eqb_refl.
    specialize (IH Pairwise2.NoGap). lia.
Qed.

(** An entry of the dictionary with 6 symbols or more is matched, by
    itself at the latest. *)
Lemma fix_block_entry (dict : list string) (b : string) :
  Forall (fun bc => bc <> "") dict ->
  In b dict -> 6 <= len b ->
  exists c,
    fix_block dict b = Ok (Some c) /\ In c dict /\ c <> ""
    /\ 5 <= block_score c b.
Proof.
  intros Hne Hin Hlen. unfold fix_block.
  rewrite fix_block_in_find by assumption.
  destruct (find (fun bc => qualifies b (block_score bc b)) dict)
    as [c|] eqn:Hfind.
  - apply find_some in Hfind. destruct Hfind as [Hc Hq].
    exists c. repeat split; auto.
    + rewrite Forall_forall in Hne. now apply Hne.
    + rewrite qualifies_long in Hq by assumption. lia.
  - exfalso. apply (find_none _ _ Hfind) in Hin.
    rewrite qualifies_long in Hin by assumption.
    pose proof (global_score_self (-1) (-1) b Pairwise2.NoGap) as Hs.
    unfold block_score in Hin. lia.
Qed.

Lemma string_length_S (s : string) (n : nat) :
  String.length s = S n ->
  exists c t, s = String c t /\ String.length t = n.
Proof.
  destruct s as [|c t]; simpl; [discriminate|].
  intros [= H]. eauto.
Qed.

Lemma string_length_0 (s : string) : String.length s = 0%nat -> s = "".
Proof. destruct s; [reflexivity | discriminate]. Qed.

(** Writes a string of known length as its symbols. *)
Ltac explode H :=
  repeat (let c := fresh "c" in
          let t := fresh "t" in
          apply string_length_S in H; destruct H as (c & t & -> & H));
  apply string_length_0 in H; subst.

(** Where the pieces of the end-to-end layout lie in the read. *)
Lemma synthetic_read_layout (b1 b2 b3 umi : string) :
  String.length b1 = 6%nat -> String.length b2 = 6%nat ->
  String.length b3 = 6%nat -> String.length umi = 8%nat ->
  let r := synthetic_read b1 b2 b3 umi in
  symbols_before r 6 6 = b1
  /\ symbols_before r 27 6 = b2
  /\ slice r (27 + 15 + 0) (27 + 21 + 0) = b3
  /\ symbols_at r (27 + 21 + 0) 3 = "ACG"
  /\ slice r (27 + 24 + 0) (27 + 32 + 0) = umi
  /\ symbols_at r (27 + 32 + 0) 3 = "GAC".
Proof.
  intros H1 H2 H3 H4.
  explode H1. explode H2. explode H3. explode H4.
  repeat split; reflexivity.
Qed.

Lemma synthetic_read_upper (b1 b2 b3 umi : string) :
  upper b1 = b1 -> upper b2 = b2 -> upper b3 = b3 -> upper umi = umi ->
  upper (synthetic_read b1 b2 b3 umi) = synthetic_read b1 b2 b3 umi.
Proof.
  intros H1 H2 H3 H4. unfold synthetic_read.
  rewrite !upper_app, H1, H2, H3, H4. reflexivity.
Qed.

Lemma not_far_self (tri : string) : ~ far tri tri.
Proof.
  assert (E : mismatches tri tri = 0).
  { induction tri as [|c t IH]; simpl; [reflexivity|].
    rewrite Ascii.eqb_refl. exact IH. }
  unfold far. intros [H|H]; [now apply H | lia].
Qed.

Lemma fix_blocks_fixed dict (b1 b2 b3 c1 c2 c3 : string) :
  fix_block dict b1 = Ok (Some c1) -> c1 <> "" ->
  fix_block dict b2 = Ok (Some c2) -> c2 <> "" ->
  fix_block dict b3 = Ok (Some c3) -> c3 <> "" ->
  fix_blocks dict [b1; b2; b3] [] = Ok (Some [c1; c2; c3]).
Proof.
  intros F1 N1 F2 N2 F3 N3. cbn [fix_blocks].
  rewrite F1, F2, F3. cbn [bind].
  apply String.eqb_neq in N1, N2, N3. rewrite N1, N2, N3. reflexivity.
Qed.

Lemma exact_hit_locate local_alignment (read linker : string) :
  exact_hit local_alignment read linker ->
  exists p : nat,
    locate local_alignment read linker = Ok (Some (Z.of_nat p, 0))
    /\ substring p 15 read = linker.
Proof.
  intros (a & rest & Ha & Hscore & Hend & Hsub).
  exists (begin_ a). split; [|exact Hsub].
  unfold locate. rewrite Ha. cbn [item0 bind]. unfold classify.
  rewrite Hscore, Hend.
  replace (Z.of_nat (begin_ a + 15) - Z.of_nat (begin_ a)) with 15 by lia.
  reflexivity.
Qed.

(** In a read of the end-to-end layout each linker occurs once, whatever
    the blocks and the UMI are. *)
Lemma linker1_occurs_once (b1 b2 b3 umi : string) (p : nat) :
  String.length b1 = 6%nat -> String.length b2 = 6%nat ->
  String.length b3 = 6%nat -> String.length umi = 8%nat ->
  substring p 15 (synthetic_read b1 b2 b3 umi) = linker1 -> p = 6%nat.
Proof.
  intros H1 H2 H3 H4 H.
  explode H1. explode H2. explode H3. explode H4.
  assert (Hp : (p <= 47)%nat).
  { apply (f_equal String.length) in H. rewrite substring_length in H.
    vm_compute String.length in H. lia. }
  do 48 (destruct p as [|p];
         [try reflexivity; vm_compute in H; discriminate H|]).
  lia.
Qed.

Lemma linker2_occurs_once (b1 b2 b3 umi : string) (p : nat) :
  String.length b1 = 6%nat -> String.length b2 = 6%nat ->
  String.length b3 = 6%nat -> String.length umi = 8%nat ->
  substring p 15 (synthetic_read b1 b2 b3 umi) = linker2 -> p = 27%nat.
Proof.
  intros H1 H2 H3 H4 H.
  explode H1. explode H2. explode H3. explode H4.
  assert (Hp : (p <= 47)%nat).
  { apply (f_equal String.length) in H. rewrite substring_length in H.
    vm_compute String.length in H. lia. }
  do 48 (destruct p as [|p];
         [try reflexivity; vm_compute in H; discriminate H|]).
  lia.
Qed.

Lemma synthetic_read_located local_alignment (b1 b2 b3 umi : string) :
  String.length b1 = 6%nat -> String.length b2 = 6%nat ->
  String.length b3 = 6%nat -> String.length umi = 8%nat ->
  upper b1 = b1 -> upper b2 = b2 -> upper b3 = b3 -> upper umi = umi ->
  exact_hit local_alignment (synthetic_read b1 b2 b3 umi) linker1 ->
  exact_hit local_alignment (synthetic_read b1 b2 b3 umi) linker2 ->
  linkers_located local_alignment (synthetic_read b1 b2 b3 umi) 6 0 27 0.
Proof.
  intros L1 L2 L3 L4 U1 U2 U3 U4 X1 X2.
  apply exact_hit_locate in X1, X2.
  destruct X1 as (p1 & Hl1 & Hp1), X2 as (p2 & Hl2 & Hp2).
  apply linker1_occurs_once in Hp1; try assumption.
  apply linker2_occurs_once in Hp2; try assumption.
  subst p1 p2. unfold linkers_located.
  rewrite synthetic_read_upper by assumption.
  repeat split; try assumption; discriminate.
Qed.

(** The tags of a read of the end-to-end layout, for every aligner whose
    first alignment of each linker is an exact occurrence of it. *)
Lemma synthetic_read_tags
  local_alignment dict (block1 block2 block3 umi : string) :
  String.length block1 = 6%nat -> String.length block2 = 6%nat ->
  String.length block3 = 6%nat -> String.length umi = 8%nat ->
  upper block1 = block1 -> upper block2 = block2 ->
  upper block3 = block3 -> upper umi = umi ->
  In block1 dict -> In block2 dict -> In block3 dict ->
  Forall (fun bc => bc <> "") dict ->
  exact_hit local_alignment (synthetic_read block1 block2 block3 umi)
    linker1 ->
  exact_hit local_alignment (synthetic_read block1 block2 block3 umi)
    linker2 ->
  exists c1 c2 c3,
    fix_block dict block1 = Ok (Some c1)
    /\ fix_block dict block2 = Ok (Some c2)
    /\ fix_block dict block3 = Ok (Some c3)
    /\ make_tags local_alignment dict
         (synthetic_read block1 block2 block3 umi)
       = Ok [("XB", c1 ++ c2 ++ c3, "Z"); ("XU", umi, "Z")]
    /\ ((forall e, In e dict -> 5 <= block_score e block1 -> e = block1) ->
        c1 = block1)
    /\ ((forall e, In e dict -> 5 <= block_score e block2 -> e = block2) ->
        c2 = block2)
    /\ ((forall e, In e dict -> 5 <= block_score e block3 -> e = block3) ->
        c3 = block3).
Proof.
  intros L1 L2 L3 L4 U1 U2 U3 U4 I1 I2 I3 Hne X1 X2.
  pose proof (synthetic_read_located local_alignment block1 block2 block3
                umi L1 L2 L3 L4 U1 U2 U3 U4 X1 X2) as Hloc.
  destruct (fix_block_entry dict block1 Hne I1) as (c1 & F1 & M1 & N1 & S1);
    [unfold len; lia|].
  destruct (fix_block_entry dict block2 Hne I2) as (c2 & F2 & M2 & N2 & S2);
    [unfold len; lia|].
  destruct (fix_block_entry dict block3 Hne I3) as (c3 & F3 & M3 & N3 & S3);
    [unfold len; lia|].
  exists c1, c2, c3. repeat split; auto.
  rewrite (make_tags_located _ dict _ _ _ _ _ Hloc).
  rewrite synthetic_read_upper by assumption.
  destruct (synthetic_read_layout block1 block2 block3 umi L1 L2 L3 L4)
    as (E1 & E2 & E3 & Eacg & Eumi & Egac).
  set (r := synthetic_read block1 block2 block3 umi) in *.
  destruct (tag_bc2_cases dict r 6 0 27 0) as (H21 & _); try lia.
  rewrite H21 by lia.
  destruct (tag_bc1_cases dict r 6 27 0 (symbols_before r 27 6))
    as (_ & _ & H6).
  rewrite H6 by lia. rewrite E1, E2.
  destruct (tag_checkpoints_cases dict r 27 0 block1 block2 ltac:(lia))
    as [[Hfar _]|[(_ & Hfar & _)|(_ & _ & ->)]].
  - rewrite Eacg in Hfar. now apply not_far_self in Hfar.
  - rewrite Egac in Hfar. now apply not_far_self in Hfar.
  - unfold tag_blocks. rewrite E3, Eumi.
    rewrite (fix_blocks_fixed dict block1 block2 block3 c1 c2 c3)
      by assumption.
    cbn [bind join fold_right]. now rewrite append_empty_r.
Qed.

(** The reference aligner reports each linker of a read of the end-to-end
    layout at its one occurrence. *)
Lemma synthetic_read_exact_hits (b1 b2 b3 umi : string) :
  String.length b1 = 6%nat -> String.length b2 = 6%nat ->
  String.length b3 = 6%nat -> String.length umi = 8%nat ->
  exact_hit Pairwise2.localxs (synthetic_read b1 b2 b3 umi) linker1
  /\ exact_hit Pairwise2.localxs (synthetic_read b1 b2 b3 umi) linker2.
Proof.
  intros L1 L2 L3 L4.
  assert (O1 : substring 6 (String.length linker1)
                 (synthetic_read b1 b2 b3 umi) = linker1).
  { explode L1. explode L2. explode L3. explode L4. reflexivity. }
  assert (O2 : substring 27 (String.length linker2)
                 (synthetic_read b1 b2 b3 umi) = linker2).
  { explode L1. explode L2. explode L3. explode L4. reflexivity. }
  split.
  - destruct (AlignerFacts.localxs_unique_occurrence
                (synthetic_read b1 b2 b3 umi) linker1 6) as (sA & sB & E).
    + discriminate.
    + exact O1.
    + intros q Hq.
      exact (linker1_occurs_once b1 b2 b3 umi q L1 L2 L3 L4 Hq).
    + eexists; eexists. split; [exact E|]. repeat split. exact O1.
  - destruct (AlignerFacts.localxs_unique_occurrence
                (synthetic_read b1 b2 b3 umi) linker2 27) as (sA & sB & E).
    + discriminate.
    + exact O2.
    + intros q Hq.
      exact (linker2_occurs_once b1 b2 b3 umi q L1 L2 L3 L4 Hq).
    + eexists; eexists. split; [exact E|]. repeat split. exact O2.
Qed.

(** C2, as amended. For every read of the form block1 + linker1 + block2
    + linker2 + block3 + ACG + umi + GAC, with upper-case blocks of 6
    symbols that are entries of a dictionary of non-empty entries and an
    upper-case UMI of 8 symbols, [make_tags], run with the reference
    aligner, returns a success whose cell barcode is the concatenation of
    the entries that [fix_block] returns for the three blocks and whose
    UMI is the UMI substring exactly; the entry returned for a block is
    the block itself whenever no other entry of the dictionary scores 5
    or more against it. *)
Theorem C2_synthetic_read_tags
  dict (block1 block2 block3 umi : string) :
  String.length block1 = 6%nat -> String.length block2 = 6%nat ->
  String.length block3 = 6%nat -> String.length umi = 8%nat ->
  upper block1 = block1 -> upper block2 = block2 ->
  upper block3 = block3 -> upper umi = umi ->
  In block1 dict -> In block2 dict -> In block3 dict ->
  Forall (fun bc => bc <> "") dict ->
  exists c1 c2 c3,
    fix_block dict block1 = Ok (Some c1)
    /\ fix_block dict block2 = Ok (Some c2)
    /\ fix_block dict block3 = Ok (Some c3)
    /\ make_tags Pairwise2.localxs dict
         (synthetic_read block1 block2 block3 umi)
       = Ok [("XB", c1 ++ c2 ++ c3, "Z"); ("XU", umi, "Z")]
    /\ ((forall e, In e dict -> 5 <= block_score e block1 -> e = block1) ->
        c1 = block1)
    /\ ((forall e, In e dict -> 5 <= block_score e block2 -> e = block2) ->
        c2 = block2)
    /\ ((forall e, In e dict -> 5 <= block_score e block3 -> e = block3) ->
        c3 = block3).
Proof.
  intros L1 L2 L3 L4 U1 U2 U3 U4 I1 I2 I3 Hne.
  destruct (synthetic_read_exact_hits block1 block2 block3 umi L1 L2 L3 L4)
    as [X1 X2].
  now apply synthetic_read_tags.
Qed.

Lemma C2_synthetic_read_tags_witness :
  exists c1 c2 c3,
    fix_block example_barcodes "TTTGGG" = Ok (Some c1)
    /\ fix_block example_barcodes "AAACCC" = Ok (Some c2)
    /\ fix_block example_barcodes "CCCTTT" = Ok (Some c3)
    /\ make_tags Pairwise2.localxs example_barcodes
         (synthetic_read "TTTGGG" "AAACCC" "CCCTTT" "AACCGGTT")
       = Ok [("XB", c1 ++ c2 ++ c3, "Z"); ("XU", "AACCGGTT", "Z")]
    /\ ((forall e, In e example_barcodes -> 5 <= block_score e "TTTGGG" ->
         e = "TTTGGG") -> c1 = "TTTGGG")
    /\ ((forall e, In e example_barcodes -> 5 <= block_score e "AAACCC" ->
         e = "AAACCC") -> c2 = "AAACCC")
    /\ ((forall e, In e example_barcodes -> 5 <= block_score e "CCCTTT" ->
         e = "CCCTTT") -> c3 = "CCCTTT").
Proof.
  apply (C2_synthetic_read_tags example_barcodes
           "TTTGGG" "AAACCC" "CCCTTT" "AACCGGTT");
    try reflexivity.
  - simpl; tauto.
  - simpl; tauto.
  - simpl; tauto.
  - repeat constructor; discriminate.
Defined.

(** C2, as stated, fails where two entries of the dictionary are one
    mismatch apart: with the dictionary TTTGGG, TTTGGA and the three
    blocks equal to the entry TTTGGA, the cell barcode is three times
    TTTGGG, the first entry that qualifies, and not the concatenation of
    the blocks. *)
Lemma C2_counterexample_first_entry_wins :
  In "TTTGGA" close_barcodes
  /\ make_tags Pairwise2.localxs close_barcodes
       (synthetic_read "TTTGGA" "TTTGGA" "TTTGGA" "AACCGGTT")
     = Ok [("XB", "TTTGGGTTTGGGTTTGGG", "Z"); ("XU", "AACCGGTT", "Z")]
  /\ make_tags Pairwise2.localxs close_barcodes
       (synthetic_read "TTTGGA" "TTTGGA" "TTTGGA" "AACCGGTT")
     <> Ok [("XB", "TTTGGA" ++ "TTTGGA" ++ "TTTGGA", "Z");
            ("XU", "AACCGGTT", "Z")].
Proof.
  split; [simpl; tauto|]. split.
  - vm_compute. reflexivity.
  - vm_compute. discriminate.
Qed.

(** ** Linker errors *)

(** C1. On a read that begins with linker 1 (here linker1 + AAACCC +
    linker2 + CCCTTT + ACG + AACCGGTT + GAC) the locator gives both
    linkers a start offset, 0 for linker 1 and 21 for linker 2, and
    [make_tags] nevertheless returns error L1: the test [not starts[0]]
    takes the offset 0 for a missing one. *)
Theorem C1_linker_at_offset_0_reported_missing :
  locate Pairwise2.localxs (upper read_linker1_first) linker1
  = Ok (Some (0, 0))
  /\ locate Pairwise2.localxs (upper read_linker1_first) linker2
     = Ok (Some (21, 0))
  /\ make_tags Pairwise2.localxs example_barcodes read_linker1_first
     = Ok (XE "L1").
Proof.
  repeat split; vm_compute; reflexivity.
Qed.

(** ** Witnesses of the decision-tree properties on the example read *)

Lemma example_read_located :
  linkers_located Pairwise2.localxs example_read 6 0 27 0.
Proof.
  repeat split; try (vm_compute; reflexivity); discriminate.
Defined.

Lemma C7_tagset_is_one_variant_witness :
  (is_failure [("XB", "TTTGGGAAACCCCCCTTT", "Z"); ("XU", "AACCGGTT", "Z")]
   \/ is_success example_barcodes
        [("XB", "TTTGGGAAACCCCCCTTT", "Z"); ("XU", "AACCGGTT", "Z")])
  /\ ~ (is_failure
          [("XB", "TTTGGGAAACCCCCCTTT", "Z"); ("XU", "AACCGGTT", "Z")]
        /\ is_success example_barcodes
             [("XB", "TTTGGGAAACCCCCCTTT", "Z"); ("XU", "AACCGGTT", "Z")]).
Proof.
  apply (C7_tagset_is_one_variant Pairwise2.localxs example_barcodes
           example_read).
  vm_compute. reflexivity.
Defined.

Lemma make_tags_returns_on_example_read :
  exists tags,
    make_tags Pairwise2.localxs example_barcodes example_read = Ok tags.
Proof.
  apply (proj2 (make_tags_returns_when_linkers_align Pairwise2.localxs
                  example_barcodes example_read)).
  - vm_compute. discriminate.
  - vm_compute. discriminate.
  - repeat constructor; discriminate.
Defined.

(** ** The 7-symbol block 2 *)

Lemma accepts_long (block : string) (score : option Z) :
  6 <= len block -> accepts block score = ge score 5.
Proof.
  intros Hlen. unfold accepts.
  destruct (len block =? 5) eqn:E5; [lia|]. cbn [bind].
  destruct (6 <=? len block) eqn:E6; [reflexivity | lia].
Qed.

(** C10. When both linkers pass the linker step and the gap between them
    is [22 + k1] (the one-insertion path), [make_tags] goes on with a
    block 2 made of the 7 symbols before [start2]; [fix_block] accepts an
    entry for a 7-symbol block under the test it applies to a 6-symbol
    block, a score of at least 5, and returns the first entry that
    reaches it; so a 7-symbol block within two edits of an entry can be
    accepted: AAAGCCC, one edit from the entry AAACCC, is matched to it,
    and the example read with that block 2 is tagged successfully. *)
Theorem C10_seven_symbol_block2_threshold
  local_alignment dict (read : string) (start1 k1 start2 k2 : Z) :
  linkers_located local_alignment read start1 k1 start2 k2 ->
  start2 - start1 = 22 + k1 ->
  Forall (fun bc => bc <> "") dict ->
  make_tags local_alignment dict read
  = tag_bc1 dict (upper read) start1 start2 k2
      (symbols_before (upper read) start2 7)
  /\ (forall block7 : string,
         len block7 = 7 ->
         (forall (block6 : string) (score : option Z),
             len block6 = 6 -> accepts block7 score = accepts block6 score)
         /\ (forall bc,
                fix_block dict block7 = Ok (Some bc) <->
                first_entry (fun e => 5 <= block_score e block7) dict bc))
  /\ ((edit_distance "AAAGCCC" "AAACCC" <= 2)%nat
      /\ fix_block example_barcodes "AAAGCCC" = Ok (Some "AAACCC")
      /\ make_tags Pairwise2.localxs example_barcodes read_block2_insertion
         = Ok [("XB", "TTTGGGAAACCCCCCTTT", "Z"); ("XU", "AACCGGTT", "Z")]).
Proof.
  intros Hloc Hgap Hne. split; [|split].
  - rewrite (make_tags_located _ dict _ _ _ _ _ Hloc).
    destruct (located_bounds _ _ _ _ _ _ Hloc) as [[Hs Hk] _].
    now apply tag_bc2_cases; try lia.
  - intros block7 H7. split.
    + intros block6 score H6. now rewrite !accepts_long by lia.
    + intros bc.
      rewrite (proj1 (fix_block_first dict block7 Hne) bc).
      apply first_entry_iff. intros e.
      rewrite qualifies_long by lia. apply Z.leb_le.
  - split; [|split].
    + vm_compute. repeat constructor.
    + vm_compute. reflexivity.
    + vm_compute. reflexivity.
Qed.

Lemma read_block2_insertion_located :
  linkers_located Pairwise2.localxs read_block2_insertion 6 0 28 0.
Proof.
  repeat split; try (vm_compute; reflexivity); discriminate.
Defined.

Lemma C10_seven_symbol_block2_threshold_witness :
  make_tags Pairwise2.localxs example_barcodes read_block2_insertion
  = tag_bc1 example_barcodes (upper read_block2_insertion) 6 28 0
      (symbols_before (upper read_block2_insertion) 28 7).
Proof.
  assert (Hgap : 28 - 6 = 22 + 0) by reflexivity.
  assert (Hne : Forall (fun bc => bc <> "") example_barcodes)
    by (repeat constructor; discriminate).
  exact (proj1 (C10_seven_symbol_block2_threshold Pairwise2.localxs
                  example_barcodes read_block2_insertion 6 0 28 0
                  read_block2_insertion_located Hgap Hne)).
Defined.

(** ** The scenarios of the specification, on the reference aligner *)

Example hamming_dist_ACG_ACT : hamming_dist "ACG" "ACT" = Ok 1.
Proof. reflexivity. Qed.

Example hamming_dist_unequal : hamming_dist "AC" "ACG" = Raise ValueError.
Proof. reflexivity. Qed.

Example fix_block_exact :
  fix_block example_barcodes "TTTGGG" = Ok (Some "TTTGGG").
Proof. vm_compute. reflexivity. Qed.

Example fix_block_one_mismatch :
  fix_block example_barcodes "TTTGAG" = Ok (Some "TTTGGG").
Proof. vm_compute. reflexivity. Qed.

Example fix_block_two_mismatches :
  fix_block example_barcodes "TTTGAA" = Ok None.
Proof. vm_compute. reflexivity. Qed.

(** The four located outcomes of the loop over the linkers: a full match,
    a mismatch in the first symbol, a deletion and an insertion. *)
Example locate_outcomes :
  locate Pairwise2.localxs ("TTTGGG" ++ "TAGCCATCGCATTGC" ++ "AAACCC") linker1
  = Ok (Some (6, 0))
  /\ locate Pairwise2.localxs
       ("TTTGGG" ++ "CAGCCATCGCATTGC" ++ "AAACCC") linker1
     = Ok (Some (6, 0))
  /\ locate Pairwise2.localxs
       ("TTTGGG" ++ "TAGCCATGCATTGC" ++ "AAACCC") linker1
     = Ok (Some (6, -1))
  /\ locate Pairwise2.localxs
       ("TTTGGG" ++ "TAGCCATCAGCATTGC" ++ "AAACCC") linker1
     = Ok (Some (6, 1)).
Proof. repeat split; vm_compute; reflexivity. Qed.

Example scrambled_linker1 :
  make_tags Pairwise2.localxs example_barcodes
    ("TTTGGG" ++ "NNNNNNNNNNNNNNN" ++ "AAACCC" ++ linker2 ++ "CCCTTT"
     ++ "ACG" ++ "AACCGGTT" ++ "GAC")
  = Ok (XE "L1").
Proof. vm_compute. reflexivity. Qed.

Example scrambled_linker2 :
  make_tags Pairwise2.localxs example_barcodes
    ("TTTGGG" ++ linker1 ++ "AAACCC" ++ "NNNNNNNNNNNNNNN" ++ "CCCTTT"
     ++ "ACG" ++ "AACCGGTT" ++ "GAC")
  = Ok (XE "L2").
Proof. vm_compute. reflexivity. Qed.

Example scrambled_linkers :
  make_tags Pairwise2.localxs example_barcodes
    ("TTTGGG" ++ "NNNNNNNNNNNNNNN" ++ "AAACCC" ++ "NNNNNNNNNNNNNNN"
     ++ "CCCTTT" ++ "ACG" ++ "AACCGGTT" ++ "GAC")
  = Ok (XE "LX").
Proof. vm_compute. reflexivity. Qed.

Example block2_deletion :
  make_tags Pairwise2.localxs example_barcodes
    ("TTTGGG" ++ linker1 ++ "AACCC" ++ linker2 ++ "CCCTTT" ++ "ACG"
     ++ "AACCGGTT" ++ "GAC")
  = Ok [("XB", "TTTGGGAAACCCCCCTTT", "Z"); ("XU", "AACCGGTT", "Z")].
Proof. vm_compute. reflexivity. Qed.

Example short_block1 :
  make_tags Pairwise2.localxs example_barcodes
    ("GGG" ++ linker1 ++ "AAACCC" ++ linker2 ++ "CCCTTT" ++ "ACG"
     ++ "AACCGGTT" ++ "GAC")
  = Ok (XE "D").
Proof. vm_compute. reflexivity. Qed.

Example truncated_read :
  make_tags Pairwise2.localxs example_barcodes
    ("TTTGGG" ++ linker1 ++ "AAACCC" ++ linker2 ++ "CCCTTT" ++ "AC")
  = Ok (XE "J").
Proof. vm_compute. reflexivity. Qed.

(** * Further properties of the code *)

(** ** Lengths and mismatches *)

Lemma len_String (c : ascii) (s : string) : len (String c s) = len s + 1.
Proof. unfold len. cbn [String.length]. lia. Qed.

Lemma len_nonneg (s : string) : 0 <= len s.
Proof. unfold len. lia. Qed.

(** The number of mismatches lies between 0 and the shorter length. *)
Lemma mismatches_range (s1 s2 : string) :
  0 <= mismatches s1 s2 <= Z.min (len s1) (len s2).
Proof.
  revert s2. induction s1 as [|c1 s1 IH]; intros [|c2 s2];
    cbn [mismatches]; rewrite ?len_String;
    try (pose proof (len_nonneg s1)); try (pose proof (len_nonneg s2));
    try (unfold len; simpl; lia).
  specialize (IH s2). destruct (Ascii.eqb c1 c2); lia.
Qed.

Lemma mismatches_sym (s1 s2 : string) : mismatches s1 s2 = mismatches s2 s1.
Proof.
  revert s2. induction s1 as [|c1 s1 IH]; intros [|c2 s2];
    cbn [mismatches]; try reflexivity.
  rewrite (IH s2), (Ascii.eqb_sym c1 c2). reflexivity.
Qed.

Lemma mismatches_zero (s1 s2 : string) :
  len s1 = len s2 -> (mismatches s1 s2 = 0 <-> s1 = s2).
Proof.
  revert s2. induction s1 as [|c1 s1 IH]; intros [|c2 s2];
    rewrite ?len_String; intros Hlen;
    try (pose proof (len_nonneg s1)); try (pose proof (len_nonneg s2));
    try (unfold len in Hlen; simpl in Hlen; lia).
  - split; reflexivity.
  - cbn [mismatches]. pose proof (mismatches_range s1 s2) as Hr.
    destruct (Ascii.eqb_spec c1 c2) as [->|Hne].
    + rewrite Z.add_0_l, (IH s2) by lia.
      split; [now intros -> | now intros [= ->]].
    + split; [lia | intros [= -> _]; congruence].
Qed.

(** ** The global score under unit gap penalties *)

(** The optimal global score under the gap penalties of [fix_block],
    open -1 and extend -1. *)
Local Abbreviation unit_gap_score := (Pairwise2.global_score (-1) (-1)).

Lemma gapA_unit p : Pairwise2.gapA_cost (-1) (-1) p = -1.
Proof. now destruct p. Qed.

Lemma gapB_unit p : Pairwise2.gapB_cost (-1) (-1) p = -1.
Proof. now destruct p. Qed.

Lemma unit_gap_nil_r (a : string) p : unit_gap_score a "" p = - len a.
Proof.
  revert p. induction a as [|x a IH]; intros p; [reflexivity|].
  cbn [Pairwise2.global_score]. rewrite gapB_unit, IH, len_String. lia.
Qed.

Lemma unit_gap_nil_l (b : string) p : unit_gap_score "" b p = - len b.
Proof.
  revert p. induction b as [|y b IH]; intros p; [reflexivity|].
  cbn [Pairwise2.global_score]. cbn [Pairwise2.global_score] in IH.
  rewrite gapA_unit, IH, len_String. lia.
Qed.

Lemma unit_gap_cons (x y : ascii) (a b : string) p :
  unit_gap_score (String x a) (String y b) p
  = Z.max (Pairwise2.identity_match x y + unit_gap_score a b Pairwise2.NoGap)
      (Z.max (-1 + unit_gap_score a (String y b) Pairwise2.GapB)
             (-1 + unit_gap_score (String x a) b Pairwise2.GapA)).
Proof.
  cbn [Pairwise2.global_score]. now rewrite gapA_unit, gapB_unit.
Qed.

(** An alignment with gaps pays for them: between strings of the same
    length the score is at most the number of matching positions, or 3
    below the length; between strings of different lengths it is at most
    the shorter length minus the difference. *)
Lemma unit_gap_bound (a : string) :
  forall b p,
    (len a = len b ->
     unit_gap_score a b p <= Z.max (len a - mismatches a b) (len a - 3))
    /\ (len a < len b -> unit_gap_score a b p <= 2 * len a - len b)
    /\ (len b < len a -> unit_gap_score a b p <= 2 * len b - len a).
Proof.
  induction a as [|x a IHa]; intros b.
  - intros p. rewrite unit_gap_nil_l. pose proof (len_nonneg b).
    change (len "") with 0. destruct b; cbn [mismatches];
      repeat split; intros; lia.
  - induction b as [|y b IHb]; intros p.
    + rewrite unit_gap_nil_r. pose proof (len_nonneg (String x a)).
      change (len "") with 0. cbn [mismatches]. repeat split; intros; lia.
    + rewrite unit_gap_cons. cbn [mismatches].
      destruct (IHa b Pairwise2.NoGap) as (D1 & D2 & D3).
      destruct (IHa (String y b) Pairwise2.GapB) as (U1 & U2 & U3).
      destruct (IHb Pairwise2.GapA) as (L1 & L2 & L3).
      clear IHa IHb.
      pose proof (mismatches_range a (String y b)) as R1.
      pose proof (mismatches_range (String x a) b) as R2.
      pose proof (mismatches_range a b) as R3.
      pose proof (len_nonneg a). pose proof (len_nonneg b).
      rewrite !len_String in *.
      set (la := len a) in *. set (lb := len b) in *.
      set (g1 := unit_gap_score a b Pairwise2.NoGap) in *.
      set (g2 := unit_gap_score a (String y b) Pairwise2.GapB) in *.
      set (g3 := unit_gap_score (String x a) b Pairwise2.GapA) in *.
      set (m1 := mismatches a b) in *.
      set (m2 := mismatches a (String y b)) in *.
      set (m3 := mismatches (String x a) b) in *.
      unfold Pairwise2.identity_match.
      destruct (Ascii.eqb x y).
      * repeat split; intros Hlen; repeat apply Z.max_lub; lia.
      * repeat split; intros Hlen; repeat apply Z.max_lub; lia.
Qed.

(** Pairing the symbols position by position is one alignment. *)
Lemma unit_gap_diag (a : string) :
  forall b p, len a = len b -> len a - mismatches a b <= unit_gap_score a b p.
Proof.
  induction a as [|x a IH]; intros [|y b] p Hlen;
    rewrite ?len_String in Hlen;
    try (pose proof (len_nonneg a)); try (pose proof (len_nonneg b));
    try (change (len "") with 0 in Hlen; lia).
  - cbn. change (len "") with 0. lia.
  - rewrite unit_gap_cons, len_String. cbn [mismatches].
    specialize (IH b Pairwise2.NoGap ltac:(lia)).
    unfold Pairwise2.identity_match. destruct (Ascii.eqb x y); lia.
Qed.

(** Open and extend penalties being equal, the previous column does not
    matter. *)
Lemma unit_gap_column (a b : string) p q :
  unit_gap_score a b p = unit_gap_score a b q.
Proof.
  destruct a as [|x a]; [now rewrite !unit_gap_nil_l|].
  destruct b as [|y b]; [now rewrite !unit_gap_nil_r|].
  now rewrite !unit_gap_cons.
Qed.

Lemma unit_gap_sym (a : string) :
  forall b p, unit_gap_score a b p = unit_gap_score b a p.
Proof.
  induction a as [|x a IHa]; intros b p.
  - now rewrite unit_gap_nil_l, unit_gap_nil_r.
  - revert p. induction b as [|y b IHb]; intros p.
    + now rewrite unit_gap_nil_l, unit_gap_nil_r.
    + rewrite !unit_gap_cons.
      rewrite (IHa b Pairwise2.NoGap), (IHa (String y b) Pairwise2.GapB),
        (IHb Pairwise2.GapA).
      rewrite (unit_gap_column (String y b) a Pairwise2.GapB Pairwise2.GapA).
      rewrite (unit_gap_column b (String x a) Pairwise2.GapA Pairwise2.GapB).
      unfold Pairwise2.identity_match. rewrite (Ascii.eqb_sym x y). lia.
Qed.

(** Equal lengths: a score within 1 of the length is at most one
    mismatch. *)
Lemma unit_gap_one_mismatch (a b : string) p :
  len a = len b ->
  (len a - 1 <= unit_gap_score a b p <-> mismatches a b <= 1).
Proof.
  intros Hlen. destruct (unit_gap_bound a b p) as (B & _).
  specialize (B Hlen). pose proof (unit_gap_diag a b p Hlen). lia.
Qed.

Lemma unit_gap_equal (a b : string) p :
  len a = len b -> (unit_gap_score a b p = len a <-> a = b).
Proof.
  intros Hlen. destruct (unit_gap_bound a b p) as (B & _).
  specialize (B Hlen). pose proof (unit_gap_diag a b p Hlen) as D.
  pose proof (mismatches_range a b) as R.
  rewrite <- (mismatches_zero a b Hlen). lia.
Qed.

(** One symbol more on one side: the score is at most the shorter length
    minus 1, and reaches it exactly when the shorter string is the longer
    one with a symbol removed. *)
Lemma unit_gap_one_removed (a : string) :
  forall b p,
    len a = len b + 1 ->
    unit_gap_score a b p <= len b - 1
    /\ (unit_gap_score a b p = len b - 1 <-> removed_one a b = true).
Proof.
  induction a as [|x a IH]; intros b p Hlen.
  - pose proof (len_nonneg b). change (len "") with 0 in Hlen. lia.
  - rewrite len_String in Hlen. destruct b as [|y b].
    + change (len "") with 0 in *.
      assert (a = "") as Ha.
      { destruct a as [|z a']; [reflexivity|]. rewrite len_String in Hlen.
        pose proof (len_nonneg a'). lia. }
      subst a. rewrite unit_gap_nil_r, len_String. change (len "") with 0.
      cbn [removed_one String.eqb]. split; [lia|].
      split; intros; [reflexivity | lia].
    + rewrite len_String in *. rewrite unit_gap_cons.
      destruct (IH b Pairwise2.NoGap ltac:(lia)) as [D1 D2].
      destruct (unit_gap_bound a (String y b) Pairwise2.GapB) as (U & _ & _).
      rewrite len_String in U. specialize (U ltac:(lia)).
      pose proof (unit_gap_equal a (String y b) Pairwise2.GapB) as UE.
      rewrite len_String in UE. specialize (UE ltac:(lia)).
      pose proof (mismatches_range a (String y b)) as R.
      destruct (unit_gap_bound (String x a) b Pairwise2.GapA) as (_ & _ & L).
      rewrite len_String in L. specialize (L ltac:(lia)).
      cbn [removed_one]. rewrite orb_true_iff, andb_true_iff.
      rewrite String.eqb_eq, <- UE, <- D2.
      unfold Pairwise2.identity_match.
      destruct (Ascii.eqb_spec x y) as [->|Hne].
      * split; [lia|]. split; [intros; lia|]. intros [E|[_ E]]; lia.
      * split; [lia|]. split; [intros; lia|].
        intros [E|[E _]]; [lia | congruence].
Qed.

(** ** hamming_dist *)

Lemma mismatches_triangle (a : string) :
  forall b c,
    len a = len b -> len b = len c ->
    mismatches a c <= mismatches a b + mismatches b c.
Proof.
  induction a as [|x a IH]; intros [|y b] [|z c]; rewrite ?len_String;
    intros H1 H2;
    try (pose proof (len_nonneg a)); try (pose proof (len_nonneg b));
    try (pose proof (len_nonneg c));
    try (change (len "") with 0 in *; lia).
  - cbn. lia.
  - cbn [mismatches]. specialize (IH b c ltac:(lia) ltac:(lia)).
    destruct (Ascii.eqb_spec x z) as [Hxz|Hxz];
      destruct (Ascii.eqb_spec x y) as [Hxy|Hxy];
      destruct (Ascii.eqb_spec y z) as [Hyz|Hyz]; try lia; congruence.
Qed.

Lemma hamming_dist_equal_length (s1 s2 : string) :
  len s1 = len s2 -> hamming_dist s1 s2 = Ok (mismatches s1 s2).
Proof.
  intros H. unfold hamming_dist. rewrite H, Z.eqb_refl. reflexivity.
Qed.

Lemma hamming_dist_unequal_length (s1 s2 : string) :
  len s1 <> len s2 -> hamming_dist s1 s2 = Raise ValueError.
Proof.
  intros H. unfold hamming_dist.
  destruct (len s1 =? len s2) eqn:E; [lia | reflexivity].
Qed.

Lemma hamming_dist_returns (s1 s2 : string) (d : Z) :
  hamming_dist s1 s2 = Ok d -> len s1 = len s2 /\ d = mismatches s1 s2.
Proof.
  unfold hamming_dist. destruct (len s1 =? len s2) eqn:E; cbn [negb].
  - intros [= <-]. split; [lia | reflexivity].
  - discriminate.
Qed.

(** X1. [hamming_dist] raises [ValueError] exactly when the two strings
    differ in length, and otherwise returns a number between 0 and their
    common length. *)
Theorem hamming_dist_total_range (s1 s2 : string) :
  (len s1 <> len s2 <-> hamming_dist s1 s2 = Raise ValueError)
  /\ (len s1 = len s2 <->
      exists d, hamming_dist s1 s2 = Ok d /\ 0 <= d <= len s1).
Proof.
  split; split.
  - apply hamming_dist_unequal_length.
  - intros H E. rewrite hamming_dist_equal_length in H by exact E.
    discriminate.
  - intros E. exists (mismatches s1 s2).
    split; [now apply hamming_dist_equal_length|].
    pose proof (mismatches_range s1 s2). lia.
  - intros (d & H & _). now apply hamming_dist_returns in H.
Qed.

(** X2. [hamming_dist] returns 0 exactly when the two strings are equal. *)
Theorem hamming_dist_zero_iff_equal (s1 s2 : string) :
  hamming_dist s1 s2 = Ok 0 <-> s1 = s2.
Proof.
  split.
  - intros H. apply hamming_dist_returns in H. destruct H as [E H].
    now apply (mismatches_zero s1 s2 E).
  - intros ->. rewrite hamming_dist_equal_length by reflexivity.
    f_equal. now apply mismatches_zero.
Qed.

(** X3. [hamming_dist] is symmetric: swapping the arguments gives the same
    number, or the same [ValueError]. *)
Theorem hamming_dist_symmetric (s1 s2 : string) :
  hamming_dist s1 s2 = hamming_dist s2 s1.
Proof.
  unfold hamming_dist. rewrite (Z.eqb_sym (len s1)), (mismatches_sym s1 s2).
  reflexivity.
Qed.

(** X4. [hamming_dist] obeys the triangle inequality: when it returns [d1]
    for [a], [b] and [d2] for [b], [c], it returns for [a], [c] a number
    that is at most [d1 + d2]. *)
Theorem hamming_dist_triangle (a b c : string) (d1 d2 : Z) :
  hamming_dist a b = Ok d1 -> hamming_dist b c = Ok d2 ->
  exists d, hamming_dist a c = Ok d /\ d <= d1 + d2.
Proof.
  intros H1 H2. apply hamming_dist_returns in H1, H2.
  destruct H1 as [E1 ->], H2 as [E2 ->].
  exists (mismatches a c). split.
  - apply hamming_dist_equal_length. congruence.
  - now apply mismatches_triangle.
Qed.

Lemma hamming_dist_triangle_witness :
  exists d, hamming_dist "ACG" "TCT" = Ok d /\ d <= 1 + 1.
Proof.
  apply (hamming_dist_triangle "ACG" "ACT" "TCT" 1 1); reflexivity.
Defined.

(** ** fix_block: substitutions, deletions, insertions *)

Lemma first_entry_iff_in (P Q : string -> Prop) (dict : list string)
  (bc : string) :
  (forall x, In x dict -> (P x <-> Q x)) ->
  (first_entry P dict bc <-> first_entry Q dict bc).
Proof.
  intros H. unfold first_entry.
  split; intros (pre & post & Hd & Hbc & Hpre); exists pre, post;
    (split; [exact Hd | split]).
  - apply H; [subst dict; apply in_elt | exact Hbc].
  - rewrite Forall_forall in *. intros x Hx Hq. apply (Hpre x Hx).
    apply H; [subst dict; apply in_or_app; now left | exact Hq].
  - apply H; [subst dict; apply in_elt | exact Hbc].
  - rewrite Forall_forall in *. intros x Hx Hq. apply (Hpre x Hx).
    apply H; [subst dict; apply in_or_app; now left | exact Hq].
Qed.

Lemma Forall_iff_in {A : Type} (P Q : A -> Prop) (l : list A) :
  (forall x, In x l -> (P x <-> Q x)) -> (Forall P l <-> Forall Q l).
Proof.
  intros H. rewrite !Forall_forall. split; intros F x Hx; apply H, F; exact Hx.
Qed.

Lemma six_symbols_nonempty (dict : list string) :
  Forall (fun bc => len bc = 6) dict -> Forall (fun bc => bc <> "") dict.
Proof.
  apply Forall_impl. intros bc H ->. discriminate H.
Qed.

(** What [fix_block] returns in terms of any reading [P] of its
    condition that agrees with it on the entries of the dictionary. *)
Lemma fix_block_reading (P : string -> Prop) (dict : list string)
  (block : string) :
  Forall (fun bc => bc <> "") dict ->
  (forall e, In e dict ->
     (qualifies block (block_score e block) = true <-> P e)) ->
  (forall bc, fix_block dict block = Ok (Some bc) <-> first_entry P dict bc)
  /\ (fix_block dict block = Ok None <-> Forall (fun e => ~ P e) dict).
Proof.
  intros Hne HP. destruct (fix_block_first dict block Hne) as [Hsome Hnone].
  split.
  - intros bc. rewrite Hsome. now apply first_entry_iff_in.
  - rewrite Hnone. apply Forall_iff_in. intros e He. now rewrite (HP e He).
Qed.

Lemma qualifies_five (block : string) (z : Z) :
  len block = 5 -> qualifies block z = (4 <=? z).
Proof.
  intros H. unfold qualifies. rewrite H.
  change (5 =? 5) with true. change (6 <=? 5) with false.
  now rewrite andb_true_l, andb_false_l, orb_false_r.
Qed.

Lemma qualifies_substitution (e block : string) :
  len e = 6 -> len block = 6 ->
  (qualifies block (block_score e block) = true <-> mismatches e block <= 1).
Proof.
  intros He Hb. rewrite qualifies_long by lia. rewrite Z.leb_le.
  unfold block_score.
  rewrite <- (unit_gap_one_mismatch e block Pairwise2.NoGap) by lia. lia.
Qed.

Lemma qualifies_deletion (e block : string) :
  len e = 6 -> len block = 5 ->
  (qualifies block (block_score e block) = true <-> removed_one e block = true).
Proof.
  intros He Hb. rewrite qualifies_five by exact Hb. rewrite Z.leb_le.
  unfold block_score.
  destruct (unit_gap_one_removed e block Pairwise2.NoGap ltac:(lia)) as [U <-].
  lia.
Qed.

Lemma qualifies_insertion (e block : string) :
  len e = 6 -> len block = 7 ->
  (qualifies block (block_score e block) = true <-> removed_one block e = true).
Proof.
  intros He Hb. rewrite qualifies_long by lia. rewrite Z.leb_le.
  unfold block_score. rewrite unit_gap_sym.
  destruct (unit_gap_one_removed block e Pairwise2.NoGap ltac:(lia)) as [U <-].
  lia.
Qed.

(** X5. For a block of 6 symbols and a dictionary of 6-symbol entries,
    [fix_block] returns the first entry that differs from the block in at
    most one position, and [None] exactly when every entry differs from it
    in two positions or more: with gap penalties of 1, a score of 5 cannot
    be reached through gaps. *)
Theorem fix_block_substitution (dict : list string) (block : string) :
  len block = 6 ->
  Forall (fun bc => len bc = 6) dict ->
  (forall bc,
      fix_block dict block = Ok (Some bc) <->
      first_entry (fun e => mismatches e block <= 1) dict bc)
  /\ (fix_block dict block = Ok None <->
      Forall (fun e => ~ mismatches e block <= 1) dict).
Proof.
  intros Hb Hd. apply fix_block_reading.
  - now apply six_symbols_nonempty.
  - rewrite Forall_forall in Hd. intros e He.
    apply qualifies_substitution; auto.
Qed.

Lemma fix_block_substitution_witness :
  fix_block example_barcodes "TTTGAG" = Ok (Some "TTTGGG") <->
  first_entry (fun e => mismatches e "TTTGAG" <= 1) example_barcodes "TTTGGG".
Proof.
  apply (proj1 (fix_block_substitution example_barcodes "TTTGAG"
                  ltac:(reflexivity) ltac:(repeat constructor))).
Defined.

(** X6. For a block of 5 symbols and a dictionary of 6-symbol entries,
    [fix_block] returns the first entry from which the block arises by
    removing one symbol, and [None] exactly when there is no such entry. *)
Theorem fix_block_deletion (dict : list string) (block : string) :
  len block = 5 ->
  Forall (fun bc => len bc = 6) dict ->
  (forall bc,
      fix_block dict block = Ok (Some bc) <->
      first_entry (fun e => removed_one e block = true) dict bc)
  /\ (fix_block dict block = Ok None <->
      Forall (fun e => ~ removed_one e block = true) dict).
Proof.
  intros Hb Hd. apply fix_block_reading.
  - now apply six_symbols_nonempty.
  - rewrite Forall_forall in Hd. intros e He.
    apply qualifies_deletion; auto.
Qed.

Lemma fix_block_deletion_witness :
  fix_block example_barcodes "AACCC" = Ok (Some "AAACCC") <->
  first_entry (fun e => removed_one e "AACCC" = true) example_barcodes "AAACCC".
Proof.
  apply (proj1 (fix_block_deletion example_barcodes "AACCC"
                  ltac:(reflexivity) ltac:(repeat constructor))).
Defined.

(** X7. For a block of 7 symbols and a dictionary of 6-symbol entries,
    [fix_block] returns the first entry that arises from the block by
    removing one symbol, and [None] exactly when there is no such entry. *)
Theorem fix_block_insertion (dict : list string) (block : string) :
  len block = 7 ->
  Forall (fun bc => len bc = 6) dict ->
  (forall bc,
      fix_block dict block = Ok (Some bc) <->
      first_entry (fun e => removed_one block e = true) dict bc)
  /\ (fix_block dict block = Ok None <->
      Forall (fun e => ~ removed_one block e = true) dict).
Proof.
  intros Hb Hd. apply fix_block_reading.
  - now apply six_symbols_nonempty.
  - rewrite Forall_forall in Hd. intros e He.
    apply qualifies_insertion; auto.
Qed.

Lemma fix_block_insertion_witness :
  fix_block example_barcodes "AAAGCCC" = Ok (Some "AAACCC") <->
  first_entry (fun e => removed_one "AAAGCCC" e = true) example_barcodes
    "AAACCC".
Proof.
  apply (proj1 (fix_block_insertion example_barcodes "AAAGCCC"
                  ltac:(reflexivity) ltac:(repeat constructor))).
Defined.

Lemma pairwise_apart_spec (d : Z) (dict : list string) (e1 e2 : string) :
  pairwise_apart d dict = true ->
  In e1 dict -> In e2 dict -> e1 = e2 \/ d <= mismatches e1 e2.
Proof.
  unfold pairwise_apart. rewrite forallb_forall. intros H H1 H2.
  specialize (H e1 H1). rewrite forallb_forall in H. specialize (H e2 H2).
  apply orb_true_iff in H. destruct H as [H|H].
  - left. now apply String.eqb_eq.
  - right. now apply Z.leb_le.
Qed.

Lemma accepts_short (block : string) (score : option Z) :
  len block < 5 -> accepts block score = Ok false.
Proof.
  intros H. unfold accepts.
  destruct (len block =? 5) eqn:E5; [lia|]. cbn [bind].
  destruct (6 <=? len block) eqn:E6; [lia | reflexivity].
Qed.

Lemma accepts_empty_entry (block : string) :
  5 <= len block ->
  accepts block (global_alignment "" block (-1) (-1)) = Raise TypeError.
Proof.
  intros H. unfold accepts, global_alignment. cbn [Pairwise2.globalxs ge].
  destruct (len block =? 5) eqn:E5; [reflexivity|]. cbn [bind].
  destruct (6 <=? len block) eqn:E6; [reflexivity | lia].
Qed.

Lemma fix_block_in_short (dict : list string) (block : string) :
  len block < 5 -> fix_block_in dict block = Ok None.
Proof.
  intros H. induction dict as [|bc dict IH]; cbn [fix_block_in];
    [reflexivity|].
  rewrite accepts_short by exact H. exact IH.
Qed.

(** X8. A block of fewer than 5 symbols is never matched, whatever the
    dictionary holds (the score is not even compared); against entries of 6
    symbols a block of more than 7 symbols is never matched either. *)
Theorem fix_block_length_window (dict : list string) (block : string) :
  (len block < 5 -> fix_block dict block = Ok None)
  /\ (7 < len block -> Forall (fun bc => len bc = 6) dict ->
      fix_block dict block = Ok None).
Proof.
  split.
  - apply fix_block_in_short.
  - intros Hb Hd.
    destruct (fix_block_first dict block (six_symbols_nonempty dict Hd))
      as [_ Hnone].
    apply Hnone. revert Hd. apply Forall_impl. intros e He.
    rewrite qualifies_long by lia. rewrite Z.leb_le. unfold block_score.
    destruct (unit_gap_bound e block Pairwise2.NoGap) as (_ & U & _).
    specialize (U ltac:(lia)). lia.
Qed.

Lemma fix_block_length_window_witness :
  fix_block example_barcodes "TTTGGGAA" = Ok None.
Proof.
  apply (proj2 (fix_block_length_window example_barcodes "TTTGGGAA")).
  - vm_compute. reflexivity.
  - repeat constructor.
Defined.

(** X9. [fix_block] raises exactly when the block has 5 symbols or more and
    the dictionary holds an empty entry that no matching entry precedes; the
    exception is then the [TypeError] of comparing the empty list that the
    aligner returns with a number. *)
Theorem fix_block_type_error (dict : list string) (block : string) (e : exn) :
  fix_block dict block = Raise e <->
  e = TypeError /\ 5 <= len block
  /\ exists pre post,
       dict = (pre ++ "" :: post)%list
       /\ Forall (fun bc =>
                    bc <> "" /\ qualifies block (block_score bc block) = false)
            pre.
Proof.
  unfold fix_block. induction dict as [|bc dict IH].
  - cbn [fix_block_in]. split; [discriminate|].
    intros (_ & _ & pre & post & H & _). destruct pre; discriminate.
  - cbn [fix_block_in]. destruct (string_dec bc "") as [->|Hbc].
    + destruct (Z_lt_le_dec (len block) 5) as [Hlt|Hge].
      * rewrite accepts_short by exact Hlt. cbn [bind].
        rewrite fix_block_in_short by exact Hlt.
        split; [discriminate | intros (_ & H & _); lia].
      * rewrite accepts_empty_entry by exact Hge. cbn [bind]. split.
        -- intros [= <-]. repeat split; [exact Hge|].
           exists [], dict. split; [reflexivity | constructor].
        -- now intros (-> & _).
    + rewrite accepts_score by exact Hbc. cbn [bind].
      destruct (qualifies block (block_score bc block)) eqn:Hq.
      * split; [discriminate|].
        intros (_ & _ & pre & post & H & Hpre).
        destruct pre as [|x pre]; cbn in H; injection H as -> ->.
        -- congruence.
        -- inversion Hpre as [|? ? [_ Hx] _]; congruence.
      * rewrite IH. split.
        -- intros (-> & Hge & pre & post & -> & Hpre).
           repeat split; [exact Hge|]. exists (bc :: pre), post.
           split; [reflexivity|]. constructor; auto.
        -- intros (-> & Hge & pre & post & H & Hpre).
           repeat split; [exact Hge|].
           destruct pre as [|x pre]; cbn in H; injection H as -> ->.
           ++ congruence.
           ++ exists pre, post. split; [reflexivity|]. now inversion Hpre.
Qed.

Example fix_block_empty_entry :
  fix_block ["TTTGGG"; ""; "AAACCC"] "AAACCC" = Raise TypeError
  /\ fix_block ["TTTGGG"; ""; "AAACCC"] "TTTGGG" = Ok (Some "TTTGGG")
  /\ fix_block ["TTTGGG"; ""; "AAACCC"] "AAAC" = Ok None.
Proof. repeat split; vm_compute; reflexivity. Qed.

Lemma fix_block_find_substitution (dict : list string) (block : string) :
  len block = 6 ->
  Forall (fun bc => len bc = 6) dict ->
  fix_block dict block
  = Ok (find (fun e => mismatches e block <=? 1) dict).
Proof.
  intros Hb Hd. unfold fix_block.
  rewrite fix_block_in_find by now apply six_symbols_nonempty.
  f_equal. induction Hd as [|e dict He _ IH]; [reflexivity|].
  cbn [find]. rewrite IH.
  replace (qualifies block (block_score e block))
    with (mismatches e block <=? 1); [reflexivity|].
  apply eq_true_iff_eq. rewrite Z.leb_le.
  symmetry. now apply qualifies_substitution.
Qed.

(** X10. In a dictionary of 6-symbol entries that differ pairwise in at
    least 3 positions, a 6-symbol block is matched to an entry exactly when
    that entry is within one mismatch of it: there is at most one such
    entry, so the order of the dictionary does not matter. *)
Theorem fix_block_order_independent (dict : list string) (block bc : string) :
  len block = 6 ->
  Forall (fun e => len e = 6) dict ->
  pairwise_apart 3 dict = true ->
  (fix_block dict block = Ok (Some bc) <->
   In bc dict /\ mismatches bc block <= 1).
Proof.
  intros Hb Hd Hsep. rewrite fix_block_find_substitution by assumption.
  split.
  - intros [= H]. apply find_some in H. now rewrite Z.leb_le in H.
  - intros [Hin Hm].
    destruct (find (fun e => mismatches e block <=? 1) dict) as [c|] eqn:Hf.
    + apply find_some in Hf. destruct Hf as [Hc Hcm]. rewrite Z.leb_le in Hcm.
      destruct (pairwise_apart_spec 3 dict c bc Hsep Hc Hin) as [->|Hfar];
        [reflexivity|].
      rewrite Forall_forall in Hd.
      pose proof (mismatches_triangle c block bc) as T.
      rewrite (mismatches_sym block bc) in T.
      specialize (T ltac:(rewrite (Hd c Hc); lia)
                    ltac:(rewrite (Hd bc Hin); lia)).
      lia.
    + apply (find_none _ _ Hf) in Hin. rewrite Z.leb_gt in Hin. lia.
Qed.

Lemma fix_block_order_independent_witness :
  fix_block example_barcodes "CCCTAT" = Ok (Some "CCCTTT") <->
  In "CCCTTT" example_barcodes /\ mismatches "CCCTTT" "CCCTAT" <= 1.
Proof.
  apply (fix_block_order_independent example_barcodes "CCCTAT" "CCCTTT").
  - reflexivity.
  - repeat constructor.
  - vm_compute. reflexivity.
Defined.

(** X11. In a dictionary of 6-symbol entries that differ pairwise in at
    least 2 positions, [fix_block] matches every entry to itself. *)
Theorem fix_block_entry_unchanged (dict : list string) (bc : string) :
  Forall (fun e => len e = 6) dict ->
  pairwise_apart 2 dict = true ->
  In bc dict ->
  fix_block dict bc = Ok (Some bc).
Proof.
  intros Hd Hsep Hin.
  assert (Hb : len bc = 6) by (rewrite Forall_forall in Hd; auto).
  rewrite fix_block_find_substitution by assumption. f_equal.
  assert (Hself : mismatches bc bc = 0) by now apply mismatches_zero.
  destruct (find (fun e => mismatches e bc <=? 1) dict) as [c|] eqn:Hf.
  - apply find_some in Hf. destruct Hf as [Hc Hcm]. rewrite Z.leb_le in Hcm.
    destruct (pairwise_apart_spec 2 dict c bc Hsep Hc Hin) as [->|Hfar];
      [reflexivity | lia].
  - apply (find_none _ _ Hf) in Hin. rewrite Z.leb_gt in Hin. lia.
Qed.

Lemma fix_block_entry_unchanged_witness :
  fix_block example_barcodes "GGGAAA" = Ok (Some "GGGAAA").
Proof.
  apply (fix_block_entry_unchanged example_barcodes "GGGAAA").
  - repeat constructor.
  - vm_compute. reflexivity.
  - vm_compute. tauto.
Defined.

(** ** make_tags: the decision list *)

Lemma upper_ascii_idempotent (c : ascii) :
  upper_ascii (upper_ascii c) = upper_ascii c.
Proof.
  destruct c as [[] [] [] [] [] [] [] []]; vm_compute; reflexivity.
Qed.

Lemma upper_idempotent (s : string) : upper (upper s) = upper s.
Proof.
  induction s as [|c s IH]; cbn [upper]; [reflexivity|].
  now rewrite upper_ascii_idempotent, IH.
Qed.

Lemma upper_length (s : string) : String.length (upper s) = String.length s.
Proof. induction s as [|c s IH]; cbn; [reflexivity | now rewrite IH]. Qed.

Lemma upper_substring (s : string) :
  forall n m, upper (substring n m s) = substring n m (upper s).
Proof.
  induction s as [|c s IH]; intros [|n] [|m]; cbn; try reflexivity;
    try apply IH.
  now rewrite IH.
Qed.

Lemma upper_slice (s : string) (lo hi : Z) :
  upper (slice s lo hi) = slice (upper s) lo hi.
Proof.
  unfold slice, len. now rewrite upper_length, upper_substring.
Qed.

Lemma truthy_missing (l : option (Z * Z)) :
  truthy l = None <-> taken_as_missing l.
Proof.
  unfold taken_as_missing. destruct l as [[s k]|]; cbn [truthy].
  - destruct (s =? 0) eqn:E.
    + split; [|reflexivity]. intros _. right. exists k.
      apply Z.eqb_eq in E. now subst.
    + split; [discriminate|]. intros [H|[k' H]]; [discriminate|].
      injection H as -> _. discriminate.
  - split; [now left | reflexivity].
Qed.

Lemma truthy_some (l : option (Z * Z)) (s k : Z) :
  truthy l = Some (s, k) <-> l = Some (s, k) /\ s <> 0.
Proof.
  destruct l as [[s' k']|]; cbn [truthy].
  - destruct (s' =? 0) eqn:E.
    + split; [discriminate|]. intros [[= -> ->] H]. lia.
    + split.
      * intros [= -> ->]. split; [reflexivity | lia].
      * now intros [[= -> ->] _].
  - split; [discriminate | now intros [? _]].
Qed.

(** The decision list of lines 102-132: the first check that fails gives
    the error code. *)
Lemma tag_bc2_outcome dict (r : string) (start1 k1 start2 k2 : Z) :
  -1 <= start1 -> -1 <= k1 <= 1 -> -1 <= k2 <= 1 ->
  let acg := symbols_at r (start2 + 21 + k2) 3 in
  let gac := symbols_at r (start2 + 32 + k2) 3 in
  let out := tag_bc2 dict r start1 k1 start2 k2 in
  (~ gap_accepted start1 k1 start2 /\ out = Ok (XE "I"))
  \/ (gap_accepted start1 k1 start2 /\ start1 < 5 /\ out = Ok (XE "D"))
  \/ (gap_accepted start1 k1 start2 /\ 5 <= start1 /\ far acg "ACG"
      /\ out = Ok (XE "J"))
  \/ (gap_accepted start1 k1 start2 /\ 5 <= start1 /\ ~ far acg "ACG"
      /\ far gac "GAC" /\ out = Ok (XE "K"))
  \/ (gap_accepted start1 k1 start2 /\ 5 <= start1 /\ ~ far acg "ACG"
      /\ ~ far gac "GAC"
      /\ out = tag_blocks dict r start2 k2 (block1_of r start1)
                 (block2_of r start1 k1 start2)).
Proof.
  intros Hs Hk1 Hk2 acg gac out. subst out.
  destruct (tag_bc2_cases dict r start1 k1 start2 k2 Hs (proj1 Hk1))
    as (_ & _ & _ & HI).
  assert (Hdec : gap_accepted start1 k1 start2
                 \/ ~ gap_accepted start1 k1 start2)
    by (unfold gap_accepted; lia).
  destruct Hdec as [Hgap|Hgap].
  2: { left. split; [exact Hgap|]. apply HI; unfold gap_accepted in Hgap; lia. }
  right. rewrite tag_bc2_accepted by (assumption || lia).
  fold (block2_of r start1 k1 start2).
  destruct (tag_bc1_cases dict r start1 start2 k2
              (block2_of r start1 k1 start2)) as (HD & H5 & H6).
  destruct (Z_lt_le_dec start1 5) as [Hlt|Hge].
  { left. repeat split; auto. }
  right.
  assert (E : tag_bc1 dict r start1 start2 k2 (block2_of r start1 k1 start2)
              = tag_checkpoints dict r start2 k2 (block1_of r start1)
                  (block2_of r start1 k1 start2)).
  { unfold block1_of. destruct (Z.eq_dec start1 5) as [->|Hne].
    - now rewrite H5.
    - rewrite H6 by lia. now rewrite Z.min_r by lia. }
  rewrite E.
  assert (Hpos : 0 <= start2 + 21 + k2) by (unfold gap_accepted in Hgap; lia).
  destruct (tag_checkpoints_cases dict r start2 k2 (block1_of r start1)
              (block2_of r start1 k1 start2) Hpos)
    as [[Hacg ->]|[(Hacg & Hgac & ->)|(Hacg & Hgac & ->)]];
    fold acg in Hacg; try fold gac in Hgac.
  - left. auto.
  - right. left. auto.
  - right. right. auto 6.
Qed.

(** Lines 134-146 for a dictionary of non-empty entries. *)
Lemma tag_blocks_outcome dict (r : string) (start2 k2 : Z) (b1 b2 : string) :
  Forall (fun bc => bc <> "") dict ->
  0 <= start2 + 15 + k2 ->
  let b3 := block3_of r start2 k2 in
  (exists c1 c2 c3,
      fix_block dict b1 = Ok (Some c1) /\ fix_block dict b2 = Ok (Some c2)
      /\ fix_block dict b3 = Ok (Some c3)
      /\ tag_blocks dict r start2 k2 b1 b2
         = Ok [("XB", c1 ++ c2 ++ c3, "Z");
               ("XU", symbols_at r (start2 + 24 + k2) 8, "Z")])
  \/ ((fix_block dict b1 = Ok None \/ fix_block dict b2 = Ok None
       \/ fix_block dict b3 = Ok None)
      /\ tag_blocks dict r start2 k2 b1 b2 = Ok (XE "B")).
Proof.
  intros Hne Hpos b3. unfold tag_blocks.
  replace (start2 + 21 + k2) with (start2 + 15 + k2 + 6) by lia.
  replace (start2 + 32 + k2) with (start2 + 24 + k2 + 8) by lia.
  rewrite !slice_at by lia. fold (block3_of r start2 k2). fold b3.
  assert (Hmem : forall b c, fix_block dict b = Ok (Some c) ->
                             String.eqb c "" = false).
  { intros b c H. apply fix_block_member in H. rewrite Forall_forall in Hne.
    apply String.eqb_neq. now apply Hne. }
  cbn [fix_blocks].
  destruct (fix_block_returns dict b1 Hne) as [[c1|] F1]; rewrite F1;
    cbn [bind]; [rewrite (Hmem _ _ F1) | right; auto].
  destruct (fix_block_returns dict b2 Hne) as [[c2|] F2]; rewrite F2;
    cbn [bind]; [rewrite (Hmem _ _ F2) | right; auto].
  destruct (fix_block_returns dict b3 Hne) as [[c3|] F3]; rewrite F3;
    cbn [bind]; [rewrite (Hmem _ _ F3) | right; auto].
  left. exists c1, c2, c3. repeat split.
  cbn. now rewrite append_empty_r.
Qed.

Lemma example_barcodes_nonempty :
  Forall (fun bc => bc <> "") example_barcodes.
Proof. repeat constructor; discriminate. Defined.

Lemma tag_bc2_not_linker_error dict (r : string) (start1 k1 start2 k2 : Z)
  (code : string) :
  -1 <= start1 -> -1 <= k1 <= 1 -> -1 <= k2 <= 1 ->
  tag_bc2 dict r start1 k1 start2 k2 = Ok (XE code) ->
  In code ["I"; "D"; "J"; "K"; "B"].
Proof.
  intros Hs Hk1 Hk2.
  destruct (tag_bc2_outcome dict r start1 k1 start2 k2 Hs Hk1 Hk2)
    as [(G & ->)|[(G & S & ->)|[(G & S & A & ->)|[(G & S & A & C & ->)
       |(G & S & A & C & ->)]]]];
    try (intros [= <-]; simpl; tauto).
  intros H. apply tag_blocks_cases in H.
  destruct H as [[= <-]|(c1 & c2 & c3 & _ & _ & _ & H)];
    [simpl; tauto | discriminate].
Qed.

(** X12. When the aligner reports an alignment of each linker, [make_tags]
    returns LX exactly when both start offsets are missing or 0, L1 exactly
    when only that of linker 1 is, and L2 exactly when only that of linker 2
    is: no later step returns one of these codes. *)
Theorem make_tags_linker_errors
  local_alignment dict (read : string) (l1 l2 : option (Z * Z)) :
  locate local_alignment (upper read) linker1 = Ok l1 ->
  locate local_alignment (upper read) linker2 = Ok l2 ->
  (make_tags local_alignment dict read = Ok (XE "LX") <->
   taken_as_missing l1 /\ taken_as_missing l2)
  /\ (make_tags local_alignment dict read = Ok (XE "L1") <->
      taken_as_missing l1 /\ ~ taken_as_missing l2)
  /\ (make_tags local_alignment dict read = Ok (XE "L2") <->
      ~ taken_as_missing l1 /\ taken_as_missing l2).
Proof.
  intros H1 H2. unfold make_tags. rewrite H1, H2. cbn [bind].
  rewrite <- !truthy_missing.
  destruct (truthy l1) as [[s1 k1]|] eqn:T1;
    destruct (truthy l2) as [[s2 k2]|] eqn:T2.
  - assert (B1 : -1 <= s1 /\ -1 <= k1 <= 1).
    { apply truthy_some in T1. destruct T1 as [-> _].
      eapply locate_bounds; eassumption. }
    assert (B2 : -1 <= s2 /\ -1 <= k2 <= 1).
    { apply truthy_some in T2. destruct T2 as [-> _].
      eapply locate_bounds; eassumption. }
    split; [|split];
      (split; [|intros [? ?]; congruence]);
      intros H; apply tag_bc2_not_linker_error in H; try lia;
      simpl in H; intuition discriminate.
  - split; [|split]; (split; [intros H | intros [? ?]]);
      try discriminate; try congruence; split; congruence.
  - split; [|split]; (split; [intros H | intros [? ?]]);
      try discriminate; try congruence; split; congruence.
  - split; [|split]; (split; [intros H | intros [? ?]]);
      try discriminate; try congruence; split; congruence.
Qed.

Lemma make_tags_linker_errors_witness :
  make_tags Pairwise2.localxs example_barcodes read_linker1_first
  = Ok (XE "L1")
  <-> taken_as_missing (Some (0, 0)) /\ ~ taken_as_missing (Some (21, 0)).
Proof.
  apply (make_tags_linker_errors Pairwise2.localxs example_barcodes
           read_linker1_first (Some (0, 0)) (Some (21, 0)));
    vm_compute; reflexivity.
Defined.

(** X13. For a read whose two linkers pass the linker step, [make_tags]
    returns error I exactly when the gap between the linkers is none of the
    three accepted ones, and error D exactly when the gap is accepted and
    linker 1 starts before offset 5. *)
Theorem make_tags_errors_I_D
  local_alignment dict (read : string) (start1 k1 start2 k2 : Z) :
  linkers_located local_alignment read start1 k1 start2 k2 ->
  (make_tags local_alignment dict read = Ok (XE "I") <->
   ~ gap_accepted start1 k1 start2)
  /\ (make_tags local_alignment dict read = Ok (XE "D") <->
      gap_accepted start1 k1 start2 /\ start1 < 5).
Proof.
  intros Hloc.
  rewrite (make_tags_located _ dict _ _ _ _ _ Hloc).
  destruct (located_bounds _ _ _ _ _ _ Hloc) as [[Hs Hk1] [_ Hk2]].
  destruct (tag_bc2_outcome dict (upper read) start1 k1 start2 k2 Hs Hk1 Hk2)
    as [(G & ->)|[(G & S & ->)|[(G & S & A & ->)|[(G & S & A & C & ->)
       |(G & S & A & C & ->)]]]].
  1-4: split; split; intros H; try tauto; try discriminate; lia.
  split; split; intros H; try tauto; try lia;
    apply tag_blocks_cases in H;
    destruct H as [H|(c1 & c2 & c3 & _ & _ & _ & H)]; discriminate.
Qed.

Lemma make_tags_errors_I_D_witness :
  make_tags Pairwise2.localxs example_barcodes example_read = Ok (XE "I")
  <-> ~ gap_accepted 6 0 27.
Proof.
  exact (proj1 (make_tags_errors_I_D Pairwise2.localxs example_barcodes
                  example_read 6 0 27 0 example_read_located)).
Defined.

(** X14. For a read whose two linkers pass the linker step and a dictionary
    of non-empty entries, [make_tags] returns error B exactly when the gap
    is accepted, linker 1 starts at offset 5 or later, both checkpoints are
    within one mismatch, and [fix_block] finds no entry for one of the three
    blocks. *)
Theorem make_tags_error_B
  local_alignment dict (read : string) (start1 k1 start2 k2 : Z) :
  linkers_located local_alignment read start1 k1 start2 k2 ->
  Forall (fun bc => bc <> "") dict ->
  let r := upper read in
  make_tags local_alignment dict read = Ok (XE "B")
  <->
  gap_accepted start1 k1 start2 /\ 5 <= start1
  /\ ~ far (symbols_at r (start2 + 21 + k2) 3) "ACG"
  /\ ~ far (symbols_at r (start2 + 32 + k2) 3) "GAC"
  /\ (fix_block dict (block1_of r start1) = Ok None
      \/ fix_block dict (block2_of r start1 k1 start2) = Ok None
      \/ fix_block dict (block3_of r start2 k2) = Ok None).
Proof.
  intros Hloc Hne r.
  rewrite (make_tags_located _ dict _ _ _ _ _ Hloc). fold r.
  destruct (located_bounds _ _ _ _ _ _ Hloc) as [[Hs Hk1] [_ Hk2]].
  destruct (tag_bc2_outcome dict r start1 k1 start2 k2 Hs Hk1 Hk2)
    as [(G & ->)|[(G & S & ->)|[(G & S & A & ->)|[(G & S & A & C & ->)
       |(G & S & A & C & ->)]]]];
    try (split; [discriminate | intros (? & ? & ? & ? & _); tauto || lia]).
  assert (Hpos : 0 <= start2 + 15 + k2) by (unfold gap_accepted in G; lia).
  destruct (tag_blocks_outcome dict r start2 k2 (block1_of r start1)
              (block2_of r start1 k1 start2) Hne Hpos)
    as [(c1 & c2 & c3 & F1 & F2 & F3 & ->)|[Hnone ->]].
  - split; [discriminate|].
    intros (_ & _ & _ & _ & [H|[H|H]]); congruence.
  - split; [|reflexivity]. intros _. auto.
Qed.

Lemma make_tags_error_B_witness :
  make_tags Pairwise2.localxs example_barcodes example_read = Ok (XE "B")
  <->
  gap_accepted 6 0 27 /\ 5 <= 6
  /\ ~ far (symbols_at (upper example_read) (27 + 21 + 0) 3) "ACG"
  /\ ~ far (symbols_at (upper example_read) (27 + 32 + 0) 3) "GAC"
  /\ (fix_block example_barcodes (block1_of (upper example_read) 6) = Ok None
      \/ fix_block example_barcodes (block2_of (upper example_read) 6 0 27)
         = Ok None
      \/ fix_block example_barcodes (block3_of (upper example_read) 27 0)
         = Ok None).
Proof.
  exact (make_tags_error_B Pairwise2.localxs example_barcodes
           example_read 6 0 27 0
           example_read_located example_barcodes_nonempty).
Defined.

(** X15. For a read whose two linkers pass the linker step and a dictionary
    of non-empty entries, [make_tags] returns the tags XB [barcode] and XU
    [umi] exactly when the gap is accepted, linker 1 starts at offset 5 or
    later, both checkpoints are within one mismatch, [fix_block] matches the
    three blocks to entries whose concatenation is [barcode], and [umi] is
    the 8 symbols at offset [start2 + 24 + k2]. *)
Theorem make_tags_success_iff
  local_alignment dict (read : string) (start1 k1 start2 k2 : Z)
  (barcode umi : string) :
  linkers_located local_alignment read start1 k1 start2 k2 ->
  Forall (fun bc => bc <> "") dict ->
  let r := upper read in
  make_tags local_alignment dict read
  = Ok [("XB", barcode, "Z"); ("XU", umi, "Z")]
  <->
  gap_accepted start1 k1 start2 /\ 5 <= start1
  /\ ~ far (symbols_at r (start2 + 21 + k2) 3) "ACG"
  /\ ~ far (symbols_at r (start2 + 32 + k2) 3) "GAC"
  /\ (exists c1 c2 c3,
         fix_block dict (block1_of r start1) = Ok (Some c1)
         /\ fix_block dict (block2_of r start1 k1 start2) = Ok (Some c2)
         /\ fix_block dict (block3_of r start2 k2) = Ok (Some c3)
         /\ barcode = c1 ++ c2 ++ c3)
  /\ umi = symbols_at r (start2 + 24 + k2) 8.
Proof.
  intros Hloc Hne r.
  rewrite (make_tags_located _ dict _ _ _ _ _ Hloc). fold r.
  destruct (located_bounds _ _ _ _ _ _ Hloc) as [[Hs Hk1] [_ Hk2]].
  destruct (tag_bc2_outcome dict r start1 k1 start2 k2 Hs Hk1 Hk2)
    as [(G & ->)|[(G & S & ->)|[(G & S & A & ->)|[(G & S & A & C & ->)
       |(G & S & A & C & ->)]]]];
    try (split; [discriminate | intros (? & ? & ? & ? & _); tauto || lia]).
  assert (Hpos : 0 <= start2 + 15 + k2) by (unfold gap_accepted in G; lia).
  destruct (tag_blocks_outcome dict r start2 k2 (block1_of r start1)
              (block2_of r start1 k1 start2) Hne Hpos)
    as [(c1 & c2 & c3 & F1 & F2 & F3 & ->)|[Hnone ->]].
  - split.
    + intros [= <- <-]. repeat split; auto. exists c1, c2, c3. auto.
    + intros (_ & _ & _ & _ & (d1 & d2 & d3 & E1 & E2 & E3 & ->) & ->).
      congruence.
  - split; [discriminate|].
    intros (_ & _ & _ & _ & (d1 & d2 & d3 & E1 & E2 & E3 & _) & _).
    destruct Hnone as [H|[H|H]]; congruence.
Qed.

Lemma make_tags_success_iff_witness :
  make_tags Pairwise2.localxs example_barcodes example_read
  = Ok [("XB", "TTTGGGAAACCCCCCTTT", "Z"); ("XU", "AACCGGTT", "Z")]
  <->
  gap_accepted 6 0 27 /\ 5 <= 6
  /\ ~ far (symbols_at (upper example_read) (27 + 21 + 0) 3) "ACG"
  /\ ~ far (symbols_at (upper example_read) (27 + 32 + 0) 3) "GAC"
  /\ (exists c1 c2 c3,
         fix_block example_barcodes (block1_of (upper example_read) 6)
         = Ok (Some c1)
         /\ fix_block example_barcodes (block2_of (upper example_read) 6 0 27)
            = Ok (Some c2)
         /\ fix_block example_barcodes (block3_of (upper example_read) 27 0)
            = Ok (Some c3)
         /\ "TTTGGGAAACCCCCCTTT" = c1 ++ c2 ++ c3)
  /\ "AACCGGTT" = symbols_at (upper example_read) (27 + 24 + 0) 8.
Proof.
  exact (make_tags_success_iff Pairwise2.localxs example_barcodes
           example_read 6 0 27 0 "TTTGGGAAACCCCCCTTT" "AACCGGTT"
           example_read_located example_barcodes_nonempty).
Defined.

(** X16. [make_tags] raises [IndexError] exactly when the aligner returns an
    empty list for one of the two linkers, and it raises [TypeError] only
    when the dictionary holds an empty entry. *)
Theorem make_tags_exceptions local_alignment dict (read : string) :
  (make_tags local_alignment dict read = Raise IndexError <->
   local_alignment (upper read) linker1 (-2) (-1) = []
   \/ local_alignment (upper read) linker2 (-2) (-1) = [])
  /\ (make_tags local_alignment dict read = Raise TypeError -> In "" dict).
Proof.
  assert (Hcases :
            (local_alignment (upper read) linker1 (-2) (-1) = []
             \/ local_alignment (upper read) linker2 (-2) (-1) = [])
            /\ make_tags local_alignment dict read = Raise IndexError
            \/ exists l1 l2,
                local_alignment (upper read) linker1 (-2) (-1) <> []
                /\ local_alignment (upper read) linker2 (-2) (-1) <> []
                /\ make_tags local_alignment dict read
                   = match truthy l1, truthy l2 with
                     | None, None => Ok (XE "LX")
                     | None, Some _ => Ok (XE "L1")
                     | Some _, None => Ok (XE "L2")
                     | Some (start1, k1), Some (start2, k2) =>
                         tag_bc2 dict (upper read) start1 k1 start2 k2
                     end).
  { unfold make_tags, locate.
    destruct (local_alignment (upper read) linker1 (-2) (-1)) as [|a1 r1];
      cbn [item0 bind]; [left; auto|].
    destruct (local_alignment (upper read) linker2 (-2) (-1)) as [|a2 r2];
      cbn [item0 bind]; [left; auto|].
    right. exists (classify a1), (classify a2).
    repeat split; congruence. }
  destruct Hcases as [[He ->]|(l1 & l2 & N1 & N2 & ->)].
  - split; [tauto | discriminate].
  - split.
    + split; [|tauto]. intros H. exfalso.
      destruct (truthy l1) as [[s1 k1]|], (truthy l2) as [[s2 k2]|];
        try discriminate.
      apply tag_bc2_raises in H. discriminate.
    + intros H. destruct (in_dec string_dec "" dict) as [Hin|Hnin];
        [exact Hin|]. exfalso.
      assert (Hne : Forall (fun bc => bc <> "") dict).
      { apply Forall_forall. intros bc Hbc ->. contradiction. }
      destruct (truthy l1) as [[s1 k1]|], (truthy l2) as [[s2 k2]|];
        try discriminate.
      destruct (tag_bc2_returns dict (upper read) s1 k1 s2 k2 Hne) as [t Ht].
      congruence.
Qed.

Lemma make_tags_exceptions_witness : In "" ["TTTGGG"; ""].
Proof.
  apply (proj2 (make_tags_exceptions Pairwise2.localxs ["TTTGGG"; ""]
                  example_read)).
  vm_compute. reflexivity.
Defined.

(** X17. [make_tags] gives a read and its upper-case spelling the same
    result, and the UMI of a success is in upper case. *)
Theorem make_tags_case_insensitive local_alignment dict (read : string) :
  make_tags local_alignment dict (upper read)
  = make_tags local_alignment dict read
  /\ forall barcode umi,
       make_tags local_alignment dict read
       = Ok [("XB", barcode, "Z"); ("XU", umi, "Z")] ->
       upper umi = umi.
Proof.
  split.
  - unfold make_tags. now rewrite upper_idempotent.
  - intros barcode umi H. pose proof H as H'. apply make_tags_cases in H'.
    destruct H' as [E|[E|[E|(s1 & k1 & s2 & k2 & Hloc & _)]]];
      try discriminate.
    rewrite (make_tags_located _ dict _ _ _ _ _ Hloc) in H.
    destruct (located_bounds _ _ _ _ _ _ Hloc) as [[Hs Hk1] [_ Hk2]].
    destruct (tag_bc2_outcome dict (upper read) s1 k1 s2 k2 Hs Hk1 Hk2)
      as [(G & E)|[(G & S & E)|[(G & S & A & E)|[(G & S & A & C & E)
         |(G & S & A & C & E)]]]];
      rewrite E in H; try discriminate.
    apply tag_blocks_cases in H.
    destruct H as [H|(c1 & c2 & c3 & _ & _ & _ & H)]; [discriminate|].
    injection H as _ ->. now rewrite upper_slice, upper_idempotent.
Qed.

Lemma make_tags_case_insensitive_witness : upper "AACCGGTT" = "AACCGGTT".
Proof.
  apply (proj2 (make_tags_case_insensitive Pairwise2.localxs example_barcodes
                  example_read) "TTTGGGAAACCCCCCTTT" "AACCGGTT").
  vm_compute. reflexivity.
Defined.

(** X18. A read of fewer than 58 symbols is never tagged with a cell
    barcode: whatever the aligner reports, every tag list that [make_tags]
    returns for it is an error tag. *)
Theorem make_tags_short_read
  local_alignment dict (read : string) (tags : list tag) :
  (String.length read < 58)%nat ->
  make_tags local_alignment dict read = Ok tags ->
  is_failure tags.
Proof.
  intros Hlen H. pose proof H as H'. apply make_tags_cases in H'.
  destruct H' as [->|[->|[->|(s1 & k1 & s2 & k2 & Hloc & H')]]];
    try (apply failure_code; simpl; tauto).
  destruct (located_bounds _ _ _ _ _ _ Hloc) as [[Hs Hk1] [_ Hk2]].
  destruct (tag_bc2_outcome dict (upper read) s1 k1 s2 k2 Hs Hk1 Hk2)
    as [(G & E)|[(G & S & E)|[(G & S & A & E)|[(G & S & A & C & E)
       |(G & S & A & C & E)]]]];
    rewrite E in H'; try (injection H' as <-; apply failure_code; simpl; tauto).
  exfalso. apply not_far_length in C. unfold symbols_at in C.
  rewrite substring_length, upper_length in C. cbn [String.length] in C.
  unfold gap_accepted in G. lia.
Qed.

Lemma make_tags_short_read_witness : is_failure (XE "L2").
Proof.
  apply (make_tags_short_read Pairwise2.localxs example_barcodes
           ("TTTGGG" ++ linker1 ++ "AAACCC") (XE "L2")).
  - vm_compute. lia.
  - vm_compute. reflexivity.
Defined.

(** ** End to end: substitutions in the blocks *)

(** On a read of the end-to-end layout every check before the barcode
    correction passes, whatever the blocks are. *)
Lemma synthetic_read_reaches_blocks
  local_alignment dict (b1 b2 b3 umi : string) :
  String.length b1 = 6%nat -> String.length b2 = 6%nat ->
  String.length b3 = 6%nat -> String.length umi = 8%nat ->
  upper b1 = b1 -> upper b2 = b2 -> upper b3 = b3 -> upper umi = umi ->
  exact_hit local_alignment (synthetic_read b1 b2 b3 umi) linker1 ->
  exact_hit local_alignment (synthetic_read b1 b2 b3 umi) linker2 ->
  make_tags local_alignment dict (synthetic_read b1 b2 b3 umi)
  = (fixed <- fix_blocks dict [b1; b2; b3] [] ;;
     match fixed with
     | None => Ok (XE "B")
     | Some barcode => Ok [("XB", join barcode, "Z"); ("XU", umi, "Z")]
     end).
Proof.
  intros L1 L2 L3 L4 U1 U2 U3 U4 X1 X2.
  pose proof (synthetic_read_located local_alignment b1 b2 b3
                umi L1 L2 L3 L4 U1 U2 U3 U4 X1 X2) as Hloc.
  rewrite (make_tags_located _ dict _ _ _ _ _ Hloc).
  rewrite synthetic_read_upper by assumption.
  destruct (synthetic_read_layout b1 b2 b3 umi L1 L2 L3 L4)
    as (E1 & E2 & E3 & Eacg & Eumi & Egac).
  set (r := synthetic_read b1 b2 b3 umi) in *.
  destruct (tag_bc2_cases dict r 6 0 27 0) as (H21 & _); try lia.
  rewrite H21 by lia.
  destruct (tag_bc1_cases dict r 6 27 0 (symbols_before r 27 6))
    as (_ & _ & H6).
  rewrite H6 by lia. rewrite E1, E2.
  destruct (tag_checkpoints_cases dict r 27 0 b1 b2 ltac:(lia))
    as [[Hfar _]|[(_ & Hfar & _)|(_ & _ & ->)]].
  - rewrite Eacg in Hfar. now apply not_far_self in Hfar.
  - rewrite Egac in Hfar. now apply not_far_self in Hfar.
  - unfold tag_blocks. now rewrite E3, Eumi.
Qed.

Lemma fix_block_nearest (dict : list string) (block e : string) :
  Forall (fun bc => len bc = 6) dict ->
  pairwise_apart 3 dict = true ->
  String.length block = 6%nat ->
  In e dict -> mismatches e block <= 1 ->
  fix_block dict block = Ok (Some e) /\ e <> "".
Proof.
  intros Hd Hsep Hb Hin Hm. split.
  - rewrite fix_block_find_substitution by (assumption || (unfold len; lia)).
    destruct (find (fun e => mismatches e block <=? 1) dict) as [c|] eqn:Hf.
    + apply find_some in Hf. destruct Hf as [Hc Hcm]. rewrite Z.leb_le in Hcm.
      destruct (pairwise_apart_spec 3 dict c e Hsep Hc Hin) as [->|Hfar];
        [reflexivity|].
      rewrite Forall_forall in Hd.
      pose proof (mismatches_triangle c block e) as T.
      rewrite (mismatches_sym block e) in T.
      specialize (T ltac:(rewrite (Hd c Hc); unfold len; lia)
                    ltac:(rewrite (Hd e Hin); unfold len; lia)).
      lia.
    + apply (find_none _ _ Hf) in Hin. rewrite Z.leb_gt in Hin. lia.
  - rewrite Forall_forall in Hd. intros ->. specialize (Hd "" Hin).
    discriminate Hd.
Qed.

(** X19. End to end, with the reference aligner and a dictionary of 6-symbol
    entries that differ pairwise in at least 3 positions: a read block1 +
    linker1 + block2 + linker2 + block3 + ACG + umi + GAC whose blocks are
    each within one mismatch of an entry is tagged with the concatenation of
    these three entries and with the UMI. *)
Theorem substitutions_corrected
  (dict : list string) (e1 e2 e3 b1 b2 b3 umi : string) :
  Forall (fun bc => len bc = 6) dict ->
  pairwise_apart 3 dict = true ->
  In e1 dict -> In e2 dict -> In e3 dict ->
  String.length b1 = 6%nat -> String.length b2 = 6%nat ->
  String.length b3 = 6%nat -> String.length umi = 8%nat ->
  upper b1 = b1 -> upper b2 = b2 -> upper b3 = b3 -> upper umi = umi ->
  mismatches e1 b1 <= 1 -> mismatches e2 b2 <= 1 -> mismatches e3 b3 <= 1 ->
  make_tags Pairwise2.localxs dict (synthetic_read b1 b2 b3 umi)
  = Ok [("XB", e1 ++ e2 ++ e3, "Z"); ("XU", umi, "Z")].
Proof.
  intros Hd Hsep I1 I2 I3 L1 L2 L3 L4 U1 U2 U3 U4 M1 M2 M3.
  destruct (synthetic_read_exact_hits b1 b2 b3 umi L1 L2 L3 L4) as [X1 X2].
  rewrite synthetic_read_reaches_blocks by assumption.
  destruct (fix_block_nearest dict b1 e1 Hd Hsep L1 I1 M1) as [F1 N1].
  destruct (fix_block_nearest dict b2 e2 Hd Hsep L2 I2 M2) as [F2 N2].
  destruct (fix_block_nearest dict b3 e3 Hd Hsep L3 I3 M3) as [F3 N3].
  rewrite (fix_blocks_fixed dict b1 b2 b3 e1 e2 e3) by assumption.
  cbn [bind join fold_right]. now rewrite append_empty_r.
Qed.

Lemma substitutions_corrected_witness :
  make_tags Pairwise2.localxs example_barcodes
    (synthetic_read "TTTGAG" "AAACCG" "TCCTTT" "AACCGGTT")
  = Ok [("XB", "TTTGGG" ++ "AAACCC" ++ "CCCTTT", "Z"); ("XU", "AACCGGTT", "Z")].
Proof.
  apply (substitutions_corrected example_barcodes
           "TTTGGG" "AAACCC" "CCCTTT" "TTTGAG" "AAACCG" "TCCTTT" "AACCGGTT");
    try reflexivity; try (vm_compute; tauto); try (vm_compute; discriminate).
  repeat constructor.
Defined.

(** X20. End to end, with the reference aligner and a dictionary of 6-symbol
    entries: a read of the same layout is given error B exactly when one of
    its three blocks differs from every entry in two positions or more. *)
Theorem unmatched_block_rejected
  (dict : list string) (b1 b2 b3 umi : string) :
  Forall (fun bc => len bc = 6) dict ->
  String.length b1 = 6%nat -> String.length b2 = 6%nat ->
  String.length b3 = 6%nat -> String.length umi = 8%nat ->
  upper b1 = b1 -> upper b2 = b2 -> upper b3 = b3 -> upper umi = umi ->
  (make_tags Pairwise2.localxs dict (synthetic_read b1 b2 b3 umi)
   = Ok (XE "B")
   <-> exists b,
         In b [b1; b2; b3] /\ Forall (fun e => 1 < mismatches e b) dict).
Proof.
  intros Hd L1 L2 L3 L4 U1 U2 U3 U4.
  destruct (synthetic_read_exact_hits b1 b2 b3 umi L1 L2 L3 L4) as [X1 X2].
  rewrite synthetic_read_reaches_blocks by assumption.
  assert (Hne := six_symbols_nonempty dict Hd).
  assert (Hnone : forall b, String.length b = 6%nat ->
            (fix_block dict b = Ok None <->
             Forall (fun e => 1 < mismatches e b) dict)).
  { intros b Hb.
    rewrite fix_block_find_substitution by (assumption || (unfold len; lia)).
    split.
    - intros [= H]. apply find_none_Forall in H. revert H.
      apply Forall_impl. intros e He. now apply Z.leb_gt.
    - intros H. f_equal. apply find_none_Forall. revert H.
      apply Forall_impl. intros e He. now apply Z.leb_gt. }
  assert (Hmem : forall b c, fix_block dict b = Ok (Some c) ->
                             String.eqb c "" = false).
  { intros b c H. apply fix_block_member in H. rewrite Forall_forall in Hne.
    apply String.eqb_neq. now apply Hne. }
  cbn [fix_blocks In].
  destruct (fix_block_returns dict b1 Hne) as [[c1|] F1]; rewrite F1;
    cbn [bind].
  2: { split; [|reflexivity]. intros _. exists b1. split; [tauto|].
       now apply Hnone. }
  rewrite (Hmem _ _ F1).
  destruct (fix_block_returns dict b2 Hne) as [[c2|] F2]; rewrite F2;
    cbn [bind].
  2: { split; [|reflexivity]. intros _. exists b2. split; [tauto|].
       now apply Hnone. }
  rewrite (Hmem _ _ F2).
  destruct (fix_block_returns dict b3 Hne) as [[c3|] F3]; rewrite F3;
    cbn [bind].
  2: { split; [|reflexivity]. intros _. exists b3. split; [tauto|].
       now apply Hnone. }
  rewrite (Hmem _ _ F3). cbn [bind].
  split; [discriminate|].
  intros (b & [<-|[<-|[<-|[]]]] & Hall); apply Hnone in Hall; try assumption;
    congruence.
Qed.

Lemma unmatched_block_rejected_witness :
  make_tags Pairwise2.localxs example_barcodes
    (synthetic_read "TTTGGG" "AAACGG" "CCCTTT" "AACCGGTT") = Ok (XE "B")
  <-> exists b, In b ["TTTGGG"; "AAACGG"; "CCCTTT"]
                /\ Forall (fun e => 1 < mismatches e b) example_barcodes.
Proof.
  apply (unmatched_block_rejected example_barcodes
           "TTTGGG" "AAACGG" "CCCTTT" "AACCGGTT"); try reflexivity.
  repeat constructor.
Defined.

(** ** End to end: a deletion or an insertion in block 2 *)

Ltac occurs_once L1 L2 L3 L4 H p :=
  explode L1; explode L2; explode L3; explode L4;
  let Hp := fresh "Hp" in
  assert (Hp : (p <= 48)%nat)
    by (apply (f_equal String.length) in H; rewrite substring_length in H;
        vm_compute String.length in H; lia);
  do 49 (destruct p as [|p];
         [try reflexivity; vm_compute in H; discriminate H|]);
  lia.

Lemma linker1_occurs_once_short (b1 b2 b3 umi : string) (p : nat) :
  String.length b1 = 6%nat -> String.length b2 = 5%nat ->
  String.length b3 = 6%nat -> String.length umi = 8%nat ->
  substring p 15 (synthetic_read b1 b2 b3 umi) = linker1 -> p = 6%nat.
Proof. intros L1 L2 L3 L4 H. occurs_once L1 L2 L3 L4 H p. Qed.

Lemma linker2_occurs_once_short (b1 b2 b3 umi : string) (p : nat) :
  String.length b1 = 6%nat -> String.length b2 = 5%nat ->
  String.length b3 = 6%nat -> String.length umi = 8%nat ->
  substring p 15 (synthetic_read b1 b2 b3 umi) = linker2 -> p = 26%nat.
Proof. intros L1 L2 L3 L4 H. occurs_once L1 L2 L3 L4 H p. Qed.

Lemma linker1_occurs_once_long (b1 b2 b3 umi : string) (p : nat) :
  String.length b1 = 6%nat -> String.length b2 = 7%nat ->
  String.length b3 = 6%nat -> String.length umi = 8%nat ->
  substring p 15 (synthetic_read b1 b2 b3 umi) = linker1 -> p = 6%nat.
Proof. intros L1 L2 L3 L4 H. occurs_once L1 L2 L3 L4 H p. Qed.

Lemma linker2_occurs_once_long (b1 b2 b3 umi : string) (p : nat) :
  String.length b1 = 6%nat -> String.length b2 = 7%nat ->
  String.length b3 = 6%nat -> String.length umi = 8%nat ->
  substring p 15 (synthetic_read b1 b2 b3 umi) = linker2 -> p = 28%nat.
Proof. intros L1 L2 L3 L4 H. occurs_once L1 L2 L3 L4 H p. Qed.

Lemma indel_read_layout (b1 b2 b3 umi : string) (n : nat) :
  String.length b1 = 6%nat -> String.length b2 = n -> n = 5%nat \/ n = 7%nat ->
  String.length b3 = 6%nat -> String.length umi = 8%nat ->
  let r := synthetic_read b1 b2 b3 umi in
  let start2 := Z.of_nat (21 + n) in
  symbols_before r 6 6 = b1
  /\ symbols_before r start2 (start2 - 6 - 15 - 0) = b2
  /\ slice r (start2 + 15 + 0) (start2 + 21 + 0) = b3
  /\ symbols_at r (start2 + 21 + 0) 3 = "ACG"
  /\ slice r (start2 + 24 + 0) (start2 + 32 + 0) = umi
  /\ symbols_at r (start2 + 32 + 0) 3 = "GAC".
Proof.
  intros H1 H2 [-> | ->] H3 H4;
    explode H1; explode H2; explode H3; explode H4;
    repeat split; reflexivity.
Qed.

Lemma indel_read_exact_hits (b1 b2 b3 umi : string) (n : nat) :
  String.length b1 = 6%nat -> String.length b2 = n -> n = 5%nat \/ n = 7%nat ->
  String.length b3 = 6%nat -> String.length umi = 8%nat ->
  Pairwise2.localxs (synthetic_read b1 b2 b3 umi) linker1 (-2) (-1)
    <> []
  /\ Pairwise2.localxs (synthetic_read b1 b2 b3 umi) linker2 (-2) (-1) <> []
  /\ locate Pairwise2.localxs (synthetic_read b1 b2 b3 umi) linker1
     = Ok (Some (6, 0))
  /\ locate Pairwise2.localxs (synthetic_read b1 b2 b3 umi) linker2
     = Ok (Some (Z.of_nat (21 + n), 0)).
Proof.
  intros L1 L2 Hn L3 L4.
  assert (O1 : substring 6 (String.length linker1)
                 (synthetic_read b1 b2 b3 umi) = linker1).
  { destruct Hn as [-> | ->];
      explode L1; explode L2; explode L3; explode L4; reflexivity. }
  assert (O2 : substring (21 + n) (String.length linker2)
                 (synthetic_read b1 b2 b3 umi) = linker2).
  { destruct Hn as [-> | ->];
      explode L1; explode L2; explode L3; explode L4; reflexivity. }
  assert (U1 : forall q, substring q (String.length linker1)
                           (synthetic_read b1 b2 b3 umi) = linker1 ->
                         q = 6%nat).
  { intros q Hq. destruct Hn as [-> | ->].
    - exact (linker1_occurs_once_short b1 b2 b3 umi q L1 L2 L3 L4 Hq).
    - exact (linker1_occurs_once_long b1 b2 b3 umi q L1 L2 L3 L4 Hq). }
  assert (U2 : forall q, substring q (String.length linker2)
                           (synthetic_read b1 b2 b3 umi) = linker2 ->
                         q = (21 + n)%nat).
  { intros q Hq. destruct Hn as [-> | ->].
    - exact (linker2_occurs_once_short b1 b2 b3 umi q L1 L2 L3 L4 Hq).
    - exact (linker2_occurs_once_long b1 b2 b3 umi q L1 L2 L3 L4 Hq). }
  destruct (AlignerFacts.localxs_unique_occurrence
              (synthetic_read b1 b2 b3 umi) linker1 6
              ltac:(discriminate) O1 U1) as (sA1 & sB1 & E1).
  destruct (AlignerFacts.localxs_unique_occurrence
              (synthetic_read b1 b2 b3 umi) linker2 (21 + n)
              ltac:(discriminate) O2 U2) as (sA2 & sB2 & E2).
  unfold locate. rewrite E1, E2. cbn [item0 bind].
  repeat split; try discriminate.
  unfold classify. cbn [score begin_ end_].
  change (len linker2) with 15. change (String.length linker2) with 15%nat.
  replace (Z.of_nat (21 + n + 15) - Z.of_nat (21 + n)) with 15 by lia.
  reflexivity.
Qed.

(** A read of the end-to-end layout whose block 2 has 5 or 7 symbols
    reaches the barcode correction with that block. *)
Lemma indel_read_reaches_blocks dict (b1 b2 b3 umi : string) (n : nat) :
  String.length b1 = 6%nat -> String.length b2 = n -> n = 5%nat \/ n = 7%nat ->
  String.length b3 = 6%nat -> String.length umi = 8%nat ->
  upper b1 = b1 -> upper b2 = b2 -> upper b3 = b3 -> upper umi = umi ->
  make_tags Pairwise2.localxs dict (synthetic_read b1 b2 b3 umi)
  = (fixed <- fix_blocks dict [b1; b2; b3] [] ;;
     match fixed with
     | None => Ok (XE "B")
     | Some barcode => Ok [("XB", join barcode, "Z"); ("XU", umi, "Z")]
     end).
Proof.
  intros L1 L2 Hn L3 L4 U1 U2 U3 U4.
  destruct (indel_read_exact_hits b1 b2 b3 umi n L1 L2 Hn L3 L4)
    as (_ & _ & H1 & H2).
  assert (Hloc : linkers_located Pairwise2.localxs
                   (synthetic_read b1 b2 b3 umi) 6 0 (Z.of_nat (21 + n)) 0).
  { unfold linkers_located. rewrite synthetic_read_upper by assumption.
    repeat split; try assumption; lia. }
  rewrite (make_tags_located _ dict _ _ _ _ _ Hloc).
  rewrite synthetic_read_upper by assumption.
  destruct (indel_read_layout b1 b2 b3 umi n L1 L2 Hn L3 L4)
    as (E1 & E2 & E3 & Eacg & Eumi & Egac).
  set (r := synthetic_read b1 b2 b3 umi) in *.
  set (start2 := Z.of_nat (21 + n)) in *.
  assert (Hgap : gap_accepted 6 0 start2)
    by (unfold gap_accepted; subst start2; lia).
  rewrite tag_bc2_accepted by (assumption || lia). rewrite E2.
  destruct (tag_bc1_cases dict r 6 start2 0 b2) as (_ & _ & H6).
  rewrite H6 by lia. rewrite E1.
  destruct (tag_checkpoints_cases dict r start2 0 b1 b2
              ltac:(subst start2; lia))
    as [[Hfar _]|[(_ & Hfar & _)|(_ & _ & ->)]].
  - rewrite Eacg in Hfar. now apply not_far_self in Hfar.
  - rewrite Egac in Hfar. now apply not_far_self in Hfar.
  - unfold tag_blocks. now rewrite E3, Eumi.
Qed.

Lemma first_entry_fix_block (P : string -> Prop) (dict : list string)
  (block e : string) :
  Forall (fun bc => len bc = 6) dict ->
  (forall e, In e dict ->
     (qualifies block (block_score e block) = true <-> P e)) ->
  first_entry P dict e ->
  fix_block dict block = Ok (Some e) /\ e <> "".
Proof.
  intros Hd HP Hfirst.
  assert (Hne := six_symbols_nonempty dict Hd).
  destruct (fix_block_reading P dict block Hne HP) as [Hsome _].
  split; [now apply Hsome|].
  destruct Hfirst as (pre & post & -> & _). rewrite Forall_forall in Hne.
  apply Hne, in_elt.
Qed.

(** X21. End to end, with the reference aligner: when block 2 of such a read
    has 5 symbols, the linkers are found 20 symbols apart and the read is
    tagged with the first entry from which block 2 arises by removing one
    symbol, between the entries matched to blocks 1 and 3. *)
Theorem block2_deletion_corrected
  (dict : list string) (e1 e2 e3 b1 b2 b3 umi : string) :
  Forall (fun bc => len bc = 6) dict ->
  pairwise_apart 3 dict = true ->
  In e1 dict -> In e3 dict ->
  String.length b1 = 6%nat -> String.length b2 = 5%nat ->
  String.length b3 = 6%nat -> String.length umi = 8%nat ->
  upper b1 = b1 -> upper b2 = b2 -> upper b3 = b3 -> upper umi = umi ->
  mismatches e1 b1 <= 1 -> mismatches e3 b3 <= 1 ->
  first_entry (fun e => removed_one e b2 = true) dict e2 ->
  make_tags Pairwise2.localxs dict (synthetic_read b1 b2 b3 umi)
  = Ok [("XB", e1 ++ e2 ++ e3, "Z"); ("XU", umi, "Z")].
Proof.
  intros Hd Hsep I1 I3 L1 L2 L3 L4 U1 U2 U3 U4 M1 M3 F2.
  rewrite (indel_read_reaches_blocks dict b1 b2 b3 umi 5) by auto.
  destruct (fix_block_nearest dict b1 e1 Hd Hsep L1 I1 M1) as [F1 N1].
  destruct (fix_block_nearest dict b3 e3 Hd Hsep L3 I3 M3) as [F3 N3].
  assert (HP : forall e, In e dict ->
            (qualifies b2 (block_score e b2) = true
             <-> removed_one e b2 = true)).
  { rewrite Forall_forall in Hd. intros e He.
    apply qualifies_deletion; [auto | unfold len; lia]. }
  destruct (first_entry_fix_block _ dict b2 e2 Hd HP F2) as [F2' N2].
  rewrite (fix_blocks_fixed dict b1 b2 b3 e1 e2 e3) by assumption.
  cbn [bind join fold_right]. now rewrite append_empty_r.
Qed.

Lemma block2_deletion_corrected_witness :
  make_tags Pairwise2.localxs example_barcodes
    (synthetic_read "TTTGGG" "AACCC" "CCCTTT" "AACCGGTT")
  = Ok [("XB", "TTTGGG" ++ "AAACCC" ++ "CCCTTT", "Z"); ("XU", "AACCGGTT", "Z")].
Proof.
  apply (block2_deletion_corrected example_barcodes
           "TTTGGG" "AAACCC" "CCCTTT" "TTTGGG" "AACCC" "CCCTTT" "AACCGGTT");
    try reflexivity; try (vm_compute; tauto); try (vm_compute; discriminate).
  - repeat constructor.
  - exists ["TTTGGG"], ["CCCTTT"; "GGGAAA"].
    split; [reflexivity|]. split; [reflexivity|].
    repeat constructor. vm_compute. discriminate.
Defined.

(** X22. End to end, with the reference aligner: when block 2 of such a read
    has 7 symbols, the linkers are found 22 symbols apart and the read is
    tagged with the first entry that arises from block 2 by removing one
    symbol, between the entries matched to blocks 1 and 3. *)
Theorem block2_insertion_corrected
  (dict : list string) (e1 e2 e3 b1 b2 b3 umi : string) :
  Forall (fun bc => len bc = 6) dict ->
  pairwise_apart 3 dict = true ->
  In e1 dict -> In e3 dict ->
  String.length b1 = 6%nat -> String.length b2 = 7%nat ->
  String.length b3 = 6%nat -> String.length umi = 8%nat ->
  upper b1 = b1 -> upper b2 = b2 -> upper b3 = b3 -> upper umi = umi ->
  mismatches e1 b1 <= 1 -> mismatches e3 b3 <= 1 ->
  first_entry (fun e => removed_one b2 e = true) dict e2 ->
  make_tags Pairwise2.localxs dict (synthetic_read b1 b2 b3 umi)
  = Ok [("XB", e1 ++ e2 ++ e3, "Z"); ("XU", umi, "Z")].
Proof.
  intros Hd Hsep I1 I3 L1 L2 L3 L4 U1 U2 U3 U4 M1 M3 F2.
  rewrite (indel_read_reaches_blocks dict b1 b2 b3 umi 7) by auto.
  destruct (fix_block_nearest dict b1 e1 Hd Hsep L1 I1 M1) as [F1 N1].
  destruct (fix_block_nearest dict b3 e3 Hd Hsep L3 I3 M3) as [F3 N3].
  assert (HP : forall e, In e dict ->
            (qualifies b2 (block_score e b2) = true
             <-> removed_one b2 e = true)).
  { rewrite Forall_forall in Hd. intros e He.
    apply qualifies_insertion; [auto | unfold len; lia]. }
  destruct (first_entry_fix_block _ dict b2 e2 Hd HP F2) as [F2' N2].
  rewrite (fix_blocks_fixed dict b1 b2 b3 e1 e2 e3) by assumption.
  cbn [bind join fold_right]. now rewrite append_empty_r.
Qed.

Lemma block2_insertion_corrected_witness :
  make_tags Pairwise2.localxs example_barcodes
    (synthetic_read "TTTGGG" "AAAGCCC" "CCCTTT" "AACCGGTT")
  = Ok [("XB", "TTTGGG" ++ "AAACCC" ++ "CCCTTT", "Z"); ("XU", "AACCGGTT", "Z")].
Proof.
  apply (block2_insertion_corrected example_barcodes
           "TTTGGG" "AAACCC" "CCCTTT" "TTTGGG" "AAAGCCC" "CCCTTT" "AACCGGTT");
    try reflexivity; try (vm_compute; tauto); try (vm_compute; discriminate).
  - repeat constructor.
  - exists ["TTTGGG"], ["CCCTTT"; "GGGAAA"].
    split; [reflexivity|]. split; [reflexivity|].
    repeat constructor. vm_compute. discriminate.
Defined.

(** ** main: the barcode file *)

Lemma app_empty_l_eq (w : string) (c : ascii) : w ++ String c "" <> "".
Proof. destruct w; discriminate. Qed.

Lemma eqb_app_symbol (w : string) (c : ascii) :
  String.eqb (w ++ String c "") "" = false.
Proof. apply String.eqb_neq, app_empty_l_eq. Qed.

Lemma app_assoc_string (a b c : string) : (a ++ b) ++ c = a ++ (b ++ c).
Proof. induction a as [|x a IH]; cbn; [reflexivity | now rewrite IH]. Qed.

Lemma all_symbols_app (f : ascii -> bool) (a b : string) :
  all_symbols f (a ++ b) = all_symbols f a && all_symbols f b.
Proof.
  induction a as [|x a IH]; cbn; [reflexivity|].
  now rewrite IH, andb_assoc.
Qed.

Lemma split_from_blank (s : string) :
  blank s = true ->
  forall w, Str.split_from w s = if String.eqb w "" then [] else [w].
Proof.
  unfold blank. induction s as [|c s IH]; intros Hb w; [reflexivity|].
  cbn in Hb. apply andb_true_iff in Hb. destruct Hb as [Hc Hs].
  cbn [Str.split_from]. rewrite Hc, (IH Hs ""). cbn.
  reflexivity.
Qed.

Lemma split_from_nil (s : string) :
  forall w, Str.split_from w s = [] <-> w = "" /\ blank s = true.
Proof.
  unfold blank. induction s as [|c s IH]; intros w; cbn [Str.split_from all_symbols].
  - destruct (String.eqb_spec w ""); split; try tauto; try discriminate;
      try (intros [? _]; contradiction).
  - destruct (Str.isspace c) eqn:Hc; cbn [andb].
    + destruct (String.eqb_spec w "") as [->|Hw].
      * rewrite IH. tauto.
      * split; [discriminate | tauto].
    + rewrite IH. split; [intros [H _]; now apply app_empty_l_eq in H|].
      intros [_ H]. discriminate.
Qed.

Lemma rstrip_empty (s : string) : Str.rstrip s = "" <-> blank s = true.
Proof.
  unfold blank. induction s as [|c s IH]; cbn [Str.rstrip all_symbols].
  - tauto.
  - destruct (Str.rstrip s) as [|d t] eqn:E.
    + destruct (Str.isspace c); cbn [andb].
      * rewrite <- IH. tauto.
      * split; discriminate.
    + split; [discriminate|]. intros H. apply andb_true_iff in H.
      destruct H as [_ H]. apply IH in H. discriminate.
Qed.

(** The [Str.rstrip()] of line 159 has no effect on the words. *)
Lemma split_from_rstrip (s : string) :
  forall w, Str.split_from w (Str.rstrip s) = Str.split_from w s.
Proof.
  induction s as [|c s IH]; intros w; [reflexivity|].
  assert (K : Str.split_from w (String c (Str.rstrip s)) = Str.split_from w (String c s)).
  { cbn [Str.split_from].
    destruct (Str.isspace c); [destruct (String.eqb w "")|]; now rewrite IH. }
  cbn [Str.rstrip]. destruct (Str.rstrip s) as [|d t] eqn:E; [clear K | exact K].
  assert (Hb : blank s = true) by now apply rstrip_empty.
  destruct (Str.isspace c) eqn:Hc; cbn [Str.split_from]; rewrite Hc.
  - rewrite (split_from_blank s Hb ""). cbn.
    destruct (String.eqb w ""); reflexivity.
  - rewrite (split_from_blank s Hb). now rewrite eqb_app_symbol.
Qed.

Lemma split_from_words (s : string) :
  forall w,
    all_symbols (fun c => negb (Str.isspace c)) w = true ->
    Forall word (Str.split_from w s).
Proof.
  induction s as [|c s IH]; intros w Hw; cbn [Str.split_from].
  - destruct (String.eqb_spec w ""); constructor; [|constructor].
    split; assumption.
  - destruct (Str.isspace c) eqn:Hc.
    + destruct (String.eqb_spec w "").
      * now apply IH.
      * constructor; [split; assumption | now apply IH].
    + apply IH. rewrite all_symbols_app, Hw. cbn. now rewrite Hc.
Qed.

(** Reading a run of non-whitespace symbols. *)
Lemma split_from_run (m : string) :
  all_symbols (fun c => negb (Str.isspace c)) m = true ->
  forall w tail, Str.split_from w (m ++ tail) = Str.split_from (w ++ m) tail.
Proof.
  induction m as [|c m IH]; intros Hm w tail.
  - now rewrite append_empty_r.
  - cbn in Hm. apply andb_true_iff in Hm. destruct Hm as [Hc Hm].
    apply negb_true_iff in Hc. cbn [String.append Str.split_from]. rewrite Hc.
    rewrite (IH Hm). f_equal. rewrite app_assoc_string. reflexivity.
Qed.

Lemma split_from_lead (lead : string) :
  blank lead = true ->
  forall s, Str.split_from "" (lead ++ s) = Str.split_from "" s.
Proof.
  unfold blank. induction lead as [|c lead IH]; intros Hb s; [reflexivity|].
  cbn in Hb. apply andb_true_iff in Hb. destruct Hb as [Hc Hb].
  cbn [String.append Str.split_from]. rewrite Hc. cbn. now apply IH.
Qed.

Lemma item0_split_first_word (line w : string) :
  item0 (Str.split line) = Ok w <-> first_word line w.
Proof.
  unfold Str.split. split.
  - (* the word returned is preceded by whitespace and followed by
       whitespace or the end of the line *)
    assert (G : forall s acc,
               all_symbols (fun c => negb (Str.isspace c)) acc = true ->
               item0 (Str.split_from acc s) = Ok w ->
               (acc <> "" ->
                exists m tail,
                  s = m ++ tail /\ w = acc ++ m
                  /\ all_symbols (fun c => negb (Str.isspace c)) m = true
                  /\ (tail = "" \/ exists c t,
                         tail = String c t /\ Str.isspace c = true))
               /\ (acc = "" -> first_word s w)).
    { induction s as [|c s IH]; intros acc Hacc H; cbn [Str.split_from] in H.
      - destruct (String.eqb_spec acc "") as [->|Hne]; [discriminate|].
        injection H as <-. split; [|contradiction].
        intros _. exists "", "".
        repeat split; auto; now rewrite append_empty_r.
      - destruct (Str.isspace c) eqn:Hc.
        + destruct (String.eqb_spec acc "") as [->|Hne].
          * split; [contradiction|]. intros _.
            destruct (IH "" eq_refl H) as [_ F]. specialize (F eq_refl).
            destruct F as (lead & tail & -> & Hl & Hw & Ht).
            exists (String c lead), tail. repeat split; auto; try apply Hw.
            unfold blank in *. cbn. now rewrite Hc.
          * injection H as <-. split; [|contradiction]. intros _.
            exists "", (String c s). rewrite append_empty_r.
            repeat split; auto. right. eauto.
        + assert (Hacc' : all_symbols (fun c => negb (Str.isspace c))
                            (acc ++ String c "") = true).
          { rewrite all_symbols_app, Hacc. cbn. now rewrite Hc. }
          destruct (IH _ Hacc' H) as [F _].
          specialize (F (app_empty_l_eq acc c)).
          destruct F as (m & tail & -> & -> & Hm & Ht).
          assert (Hcm : all_symbols (fun c => negb (Str.isspace c))
                          (String c m) = true)
            by (cbn; now rewrite Hc, Hm).
          split.
          * intros _. exists (String c m), tail. repeat split; auto.
            now rewrite app_assoc_string.
          * intros ->. exists "", tail. cbn [String.append].
            repeat split; auto. discriminate. }
    intros H. now apply (G line "" eq_refl H).
  - intros (lead & tail & -> & Hl & [Hne Hw] & Ht).
    rewrite (split_from_lead lead Hl), (split_from_run w Hw).
    cbn [String.append].
    destruct Ht as [->|(c & t & -> & Hc)]; cbn [Str.split_from].
    + apply String.eqb_neq in Hne. now rewrite Hne.
    + rewrite Hc. apply String.eqb_neq in Hne. now rewrite Hne.
Qed.

Lemma line_entry (line w : string) :
  item0 (Str.split (Str.rstrip line)) = Ok w <-> first_word line w.
Proof.
  unfold Str.split. rewrite split_from_rstrip. apply item0_split_first_word.
Qed.

Lemma line_blank (line : string) (e : exn) :
  item0 (Str.split (Str.rstrip line)) = Raise e <-> e = IndexError /\ blank line = true.
Proof.
  unfold Str.split. rewrite split_from_rstrip.
  destruct (Str.split_from "" line) as [|w ws] eqn:E; cbn [item0].
  - apply split_from_nil in E. destruct E as [_ E].
    split; [now intros [= <-] | now intros [-> _]].
  - split; [discriminate|]. intros [_ H].
    assert (N : Str.split_from "" line = []) by now apply split_from_nil.
    congruence.
Qed.

Lemma first_words_Forall2 (lines dict : list string) :
  first_words lines = Ok dict <-> Forall2 first_word lines dict.
Proof.
  revert dict. induction lines as [|line lines IH]; intros dict;
    cbn [first_words].
  - split; [intros [= <-]; constructor | now inversion 1].
  - destruct (item0 (Str.split (Str.rstrip line))) as [w|e] eqn:E; cbn [bind].
    + apply line_entry in E.
      destruct (first_words lines) as [ws|e'] eqn:E'; cbn [bind].
      * split.
        -- intros [= <-]. constructor; [exact E | now apply IH].
        -- inversion 1 as [|? w' ? ws' Hw Hws]; subst.
           apply line_entry in Hw, E. apply IH in Hws. congruence.
      * split; [discriminate|].
        inversion 1 as [|? w' ? ws' Hw Hws]; subst.
        apply IH in Hws. discriminate.
    + apply line_blank in E. destruct E as [-> Hb].
      split; [discriminate|].
      inversion 1 as [|? w' ? ws' Hw Hws]; subst.
      apply line_entry in Hw.
      assert (R : item0 (Str.split (Str.rstrip line)) = Raise IndexError)
        by now apply line_blank.
      congruence.
Qed.

Lemma first_words_raises (lines : list string) (e : exn) :
  first_words lines = Raise e <->
  e = IndexError /\ Exists (fun line => blank line = true) lines.
Proof.
  induction lines as [|line lines IH]; cbn [first_words].
  - split; [discriminate | intros [_ H]; inversion H].
  - destruct (item0 (Str.split (Str.rstrip line))) as [w|e'] eqn:E; cbn [bind].
    + assert (Hnb : blank line <> true).
      { intros Hb.
        assert (R : item0 (Str.split (Str.rstrip line)) = Raise IndexError)
          by now apply line_blank.
        congruence. }
      destruct (first_words lines) as [ws|e''] eqn:E'; cbn [bind].
      * split; [discriminate|]. intros [-> H].
        inversion H as [? ? Hb|? ? Hex]; subst; [contradiction|].
        assert (R : Ok ws = Raise IndexError :> result (list string))
          by (apply IH; auto).
        discriminate.
      * split.
        -- intros [= <-].
           destruct (proj1 IH eq_refl) as [-> Hex]. auto.
        -- intros [-> H].
           inversion H as [? ? Hb|? ? Hex]; subst; [contradiction|].
           apply IH. auto.
    + apply line_blank in E. destruct E as [-> Hb]. split.
      * intros [= <-]. auto.
      * now intros [-> _].
Qed.

Lemma word_nonempty (dict : list string) :
  Forall word dict -> Forall (fun bc => bc <> "") dict.
Proof. apply Forall_impl. now intros bc [H _]. Qed.

Lemma first_words_entries (lines dict : list string) :
  first_words lines = Ok dict ->
  List.length dict = List.length lines /\ Forall word dict.
Proof.
  intros H. apply first_words_Forall2 in H.
  induction H as [|line w lines dict Hw _ [IH1 IH2]].
  - split; [reflexivity | constructor].
  - split; [cbn; now rewrite IH1|].
    constructor; [|exact IH2]. now destruct Hw as (_ & _ & _ & _ & Hw & _).
Qed.

Lemma make_tags_type_error local_alignment dict (read : string) :
  make_tags local_alignment dict read = Raise TypeError -> In "" dict.
Proof.
  intros H. destruct (in_dec string_dec "" dict) as [Hin|Hnin];
    [exact Hin|]. exfalso.
  assert (Hne : Forall (fun bc => bc <> "") dict).
  { apply Forall_forall. intros bc Hbc ->. contradiction. }
  unfold make_tags in H.
  destruct (locate local_alignment (upper read) linker1) as [l1|e1] eqn:H1;
    cbn [bind] in H.
  2: { apply locate_raises in H1. destruct H1 as [-> _]. discriminate. }
  destruct (locate local_alignment (upper read) linker2) as [l2|e2] eqn:H2;
    cbn [bind] in H.
  2: { apply locate_raises in H2. destruct H2 as [-> _]. discriminate. }
  destruct (truthy l1) as [[s1 k1]|], (truthy l2) as [[s2 k2]|];
    try discriminate.
  destruct (tag_bc2_returns dict (upper read) s1 k1 s2 k2 Hne) as [t Ht].
  congruence.
Qed.

(** X23. The barcode list that [main] loads holds, for each of the first 96
    lines of the file and in their order, the first whitespace-delimited
    word of the line; later lines and later words of a line are ignored, and
    the [rstrip()] changes nothing. Whitespace is what [str.isspace] takes
    for it, so that U+0085 ends a word and U+00A0 may come before it. *)
Theorem load_barcodes_first_words (lines dict : list string) :
  (load_barcodes lines = Ok dict <->
   Forall2 first_word (firstn 96 lines) dict)
  /\ load_barcodes ["TTTGGG" ++ NEL ++ "X"; NBSP ++ "AAACCC 2" ++ LF]
     = Ok ["TTTGGG"; "AAACCC"].
Proof.
  split; [apply first_words_Forall2 | vm_compute; reflexivity].
Qed.

(** X24. Loading the barcode file raises exactly when one of its first 96
    lines is empty or holds whitespace only, and the exception is then the
    [IndexError] of [[0]], which [main] does not catch. A line that holds
    only the no-break space U+00A0 is such a line. *)
Theorem load_barcodes_blank_line (lines : list string) (e : exn) :
  (load_barcodes lines = Raise e <->
   e = IndexError
   /\ Exists (fun line => blank line = true) (firstn 96 lines))
  /\ blank (NBSP ++ LF) = true
  /\ load_barcodes ["TTTGGG" ++ LF; NBSP ++ LF] = Raise IndexError.
Proof.
  split; [apply first_words_raises|].
  split; vm_compute; reflexivity.
Qed.

(** X25. A barcode list that was loaded has one entry for each of the first
    96 lines, all of them non-empty and free of whitespace; with it
    [fix_block] returns for every block, and [make_tags] does not raise
    the [TypeError] that an empty entry gives, whatever the read and the
    aligner. *)
Theorem loaded_barcodes_usable (lines dict : list string) :
  load_barcodes lines = Ok dict ->
  List.length dict = Nat.min 96 (List.length lines)
  /\ Forall word dict
  /\ (forall block, exists fixed, fix_block dict block = Ok fixed)
  /\ (forall local_alignment read,
         make_tags local_alignment dict read <> Raise TypeError).
Proof.
  intros H. apply first_words_entries in H. destruct H as [Hlen Hw].
  rewrite length_firstn in Hlen.
  assert (Hne := word_nonempty dict Hw).
  split; [exact Hlen|]. split; [exact Hw|]. split.
  - intros block. now apply fix_block_returns.
  - intros la read Hr.
    apply make_tags_type_error in Hr.
    rewrite Forall_forall in Hne. now destruct (Hne "" Hr).
Qed.

Lemma example_lines_loaded : load_barcodes example_lines = Ok example_barcodes.
Proof. vm_compute. reflexivity. Defined.

Lemma loaded_barcodes_usable_witness :
  List.length example_barcodes = Nat.min 96 (List.length example_lines)
  /\ Forall word example_barcodes
  /\ (forall block, exists fixed, fix_block example_barcodes block = Ok fixed)
  /\ (forall local_alignment read,
         make_tags local_alignment example_barcodes read <> Raise TypeError).
Proof.
  exact (loaded_barcodes_usable example_lines example_barcodes
           example_lines_loaded).
Defined.

Example load_barcodes_blank_example :
  load_barcodes ["TTTGGG" ++ LF; LF; "AAACCC" ++ LF] = Raise IndexError.
Proof. vm_compute. reflexivity. Qed.

(** ** main: R1, R2 and the summary *)

Lemma islice_from_nth {A : Type} (step : nat) (l : list A) :
  forall skip i,
    nth_error (islice_from (S step) skip l) i = nth_error l (skip + S step * i).
Proof.
  induction l as [|x l IH]; intros skip i; cbn [islice_from].
  - now rewrite !nth_error_nil.
  - destruct skip as [|skip].
    + destruct i as [|i]; cbn [nth_error].
      * now rewrite Nat.mul_0_r.
      * rewrite IH. replace (0 + S step * S i)%nat
          with (S (S step - 1 + S step * i)) by lia.
        reflexivity.
    + rewrite IH. reflexivity.
Qed.

Lemma islice_nth {A : Type} (l : list A) (start i : nat) :
  nth_error (islice l start 2) i = nth_error l (start + 2 * i).
Proof. apply islice_from_nth. Qed.

Lemma islice_lengths {A : Type} (l : list A) :
  List.length (islice_from 2 0 l) = ((List.length l + 1) / 2)%nat
  /\ List.length (islice_from 2 1 l) = (List.length l / 2)%nat.
Proof.
  induction l as [|x l [IH0 IH1]]; [split; reflexivity|].
  cbn [islice_from List.length Nat.sub]. rewrite IH0, IH1. split.
  - replace (S (List.length l) + 1)%nat with (List.length l + 1 * 2)%nat by lia.
    rewrite Nat.div_add by lia. lia.
  - replace (S (List.length l)) with (List.length l + 1)%nat by lia. reflexivity.
Qed.

Lemma get_set (d : Dict.counts) (key k : string) (v default : Z) :
  Dict.get (Dict.set d key v) k default
  = if String.eqb key k then v else Dict.get d k default.
Proof.
  induction d as [|[k' v'] d IH]; cbn [Dict.set Dict.get].
  - reflexivity.
  - destruct (String.eqb_spec k' key) as [->|Hne]; cbn [Dict.get].
    + destruct (String.eqb key k); reflexivity.
    + rewrite IH. destruct (String.eqb_spec k' k) as [->|Hk]; [|reflexivity].
      destruct (String.eqb_spec key k) as [->|]; [contradiction | reflexivity].
Qed.

Lemma sum_values_set (d : Dict.counts) (key : string) (v : Z) :
  Dict.sum_values (Dict.set d key v) = Dict.sum_values d - Dict.get d key 0 + v.
Proof.
  unfold Dict.sum_values. induction d as [|[k' v'] d IH]; cbn [Dict.set Dict.get].
  - cbn. lia.
  - destruct (String.eqb k' key); cbn [map fold_right snd] in *; lia.
Qed.

Lemma sum_over_set (keys : list string) (d : Dict.counts) (key : string) (v : Z) :
  sum_over keys (Dict.set d key v)
  = sum_over keys d
    + Z.of_nat (count_occ string_dec keys key) * (v - Dict.get d key 0).
Proof.
  unfold sum_over. induction keys as [|k keys IH]; cbn [map fold_right].
  - cbn. lia.
  - rewrite IH, get_set. cbn [count_occ].
    destruct (string_dec k key) as [->|Hne].
    + rewrite String.eqb_refl. lia.
    + destruct (String.eqb_spec key k) as [->|]; [contradiction | lia].
Qed.

Lemma make_tags_shape local_alignment dict (read : string) (t : list tag) :
  make_tags local_alignment dict read = Ok t ->
  (exists code, In code error_codes /\ t = XE code)
  \/ exists barcode umi, t = [("XB", barcode, "Z"); ("XU", umi, "Z")].
Proof.
  intros H. apply make_tags_cases in H.
  destruct H as [->|[->|[->|(s1 & k1 & s2 & k2 & Hloc & H)]]];
    try (left; eexists; split; [|reflexivity]; simpl; tauto).
  destruct (located_bounds _ _ _ _ _ _ Hloc) as [[Hs Hk1] [_ Hk2]].
  destruct (tag_bc2_variant dict _ s1 k1 s2 k2 t Hs Hk1 Hk2 H)
    as [(code & Hc & ->)|(b1 & b2 & b3 & umi & _ & _ & _ & _ & ->)].
  - left. eauto.
  - right. eauto.
Qed.

Lemma number_of_snoc (f : Pysam.segment -> bool) (l : list Pysam.segment)
  (r : Pysam.segment) :
  number_of f (l ++ [r]) = number_of f l + (if f r then 1 else 0).
Proof.
  unfold number_of. rewrite filter_app, length_app. cbn [filter].
  destruct (f r); cbn [List.length]; lia.
Qed.

Lemma ordered_tags_once (key : string) :
  In key ordered_tags -> count_occ string_dec ordered_tags key = 1%nat.
Proof.
  intros H. cbn in H.
  repeat (destruct H as [<-|H]; [reflexivity|]). contradiction.
Qed.

Lemma error_code_ordered (code : string) :
  In code error_codes -> In code ordered_tags /\ code <> "PASS".
Proof.
  intros H. cbn in H.
  repeat (destruct H as [<-|H]; [split; [cbn; tauto | discriminate]|]).
  contradiction.
Qed.

Section Loop.

Variable local_alignment : string -> string -> Z -> Z -> list alignment.
Variable dict : list string.
Variable summary : bool.

Lemma tag_reads_spec (tags : list (list tag)) (reads : list Pysam.segment) :
  forall (st : tally) (i : nat),
    (forall j read, nth_error reads j = Some read ->
       exists r1 t,
         nth_error tags (i + j) = Some t
         /\ make_tags local_alignment dict (Pysam.query_sequence r1) = Ok t) ->
    exists st',
      tag_reads summary tags st i reads = Ok st'
      /\ List.length (written st') = (List.length (written st) + List.length reads)%nat
      /\ (forall j, (j < List.length (written st))%nat ->
            nth_error (written st') j = nth_error (written st) j)
      /\ (forall j read t,
            nth_error reads j = Some read ->
            nth_error tags (i + j) = Some t ->
            nth_error (written st') (List.length (written st) + j)
            = Some (Pysam.set_flag (Pysam.set_tags read t) 4))
      /\ (summary = true -> consistent st -> consistent st').
Proof.
  induction reads as [|read reads IH]; intros st i Htags; cbn [tag_reads].
  - exists st. split; [reflexivity|]. split; [cbn [List.length]; lia|].
    split; [reflexivity|]. split; [|auto].
    intros j r t H. destruct j; discriminate.
  - destruct (Htags 0%nat read eq_refl) as (r1 & t & Ht & Hmk).
    rewrite Nat.add_0_r in Ht.
    assert (Hstep : exists st1,
               tag_read summary tags st i read = Ok st1
               /\ written st1
                  = (written st
                     ++ [Pysam.set_flag (Pysam.set_tags read t) 4])%list
               /\ (summary = true -> consistent st -> consistent st1)).
    { unfold tag_read, getitem. rewrite Ht. cbn [bind].
      destruct summary; [|eexists; repeat split; discriminate].
      apply make_tags_shape in Hmk.
      destruct Hmk as [(code & Hc & ->)|(bc & umi & ->)];
        cbn [XE item0 bind String.eqb Ascii.eqb Bool.eqb andb];
        eexists; (split; [reflexivity|]); (split; [reflexivity|]);
        intros _ (C1 & C2 & C3 & C4 & C5); unfold consistent;
        cbn [written cell_count error_count].
      - apply error_code_ordered in Hc. destruct Hc as [Hin Hnp].
        rewrite length_app. cbn [List.length].
        rewrite sum_values_set, sum_over_set, get_set.
        rewrite (ordered_tags_once code Hin).
        destruct (String.eqb_spec code "PASS"); [contradiction|].
        split; [lia|]. split; [lia|]. split; [lia|]. split.
        + intros k. rewrite !number_of_snoc.
          unfold tagged, reports in *. cbn. rewrite get_set.
          destruct (String.eqb_spec code k) as [->|Hk]; rewrite (C4 k).
          * destruct (String.eqb_spec k "PASS"); [contradiction | lia].
          * destruct (String.eqb k "PASS"); lia.
        + intros bc. rewrite number_of_snoc, C5.
          unfold reports in *. cbn. lia.
      - rewrite length_app. cbn [List.length].
        rewrite !sum_values_set, sum_over_set, get_set.
        rewrite (ordered_tags_once "PASS") by (cbn; tauto).
        rewrite String.eqb_refl.
        split; [lia|]. split; [lia|]. split; [lia|]. split.
        + intros k. rewrite !number_of_snoc.
          unfold tagged, reports in *. cbn. rewrite get_set.
          rewrite (String.eqb_sym "PASS" k).
          destruct (String.eqb_spec k "PASS") as [->|Hk].
          * rewrite (C4 "PASS"). cbn. lia.
          * rewrite (C4 k). apply String.eqb_neq in Hk. rewrite Hk. lia.
        + intros b. rewrite number_of_snoc.
          unfold reports in *. cbn. rewrite get_set.
          destruct (String.eqb_spec bc b) as [->|Hb]; rewrite (C5 b); lia. }
    destruct Hstep as (st1 & -> & Hw & Hc1). cbn [bind].
    destruct (IH st1 (S i)) as (st' & Hrun & Hlen & Hold & Hnew & Hc').
    { intros j r Hj. destruct (Htags (S j) r Hj) as (r1' & t' & Ht' & Hmk').
      exists r1', t'. split; [|exact Hmk'].
      now replace (S i + j)%nat with (i + S j)%nat by lia. }
    exists st'. split; [exact Hrun|]. rewrite Hw, length_app in *.
    cbn [List.length] in *. split; [|split; [|split]].
    + lia.
    + intros j Hj. rewrite Hold by lia. now rewrite nth_error_app1 by lia.
    + intros j r t' Hj Ht'. destruct j as [|j].
      * rewrite Nat.add_0_r in *. rewrite Hold by lia.
        rewrite nth_error_app2 by lia. rewrite Nat.sub_diag. cbn.
        cbn in Hj. congruence.
      * cbn in Hj.
        replace (List.length (written st) + S j)%nat
          with (List.length (written st) + 1 + j)%nat by lia.
        apply Hnew; [exact Hj|].
        now replace (S i + j)%nat with (i + S j)%nat by lia.
    + auto.
Qed.

End Loop.

Lemma Forall2_nth {A B : Type} (R : A -> B -> Prop) (l1 : list A)
  (l2 : list B) :
  Forall2 R l1 l2 ->
  forall j a, nth_error l1 j = Some a ->
              exists b, nth_error l2 j = Some b /\ R a b.
Proof.
  induction 1 as [|x y l1 l2 Hxy _ IH]; intros j a Hj.
  - destruct j; discriminate.
  - destruct j as [|j]; cbn in *.
    + injection Hj as <-. eauto.
    + now apply IH.
Qed.

Lemma consistent_start : consistent (mkTally [] [] []).
Proof.
  unfold consistent. cbn. repeat split; try reflexivity.
  intros k. now destruct (String.eqb k "PASS").
Qed.

(** What lines 174-194 do, for islice_from list of records. *)
Lemma add_tags_spec local_alignment dict summary
  (records : list Pysam.segment) (tags : list (list tag)) :
  tags_of_R1 local_alignment dict records tags ->
  exists st,
    add_tags summary tags records = Ok st
    /\ List.length (written st) = (List.length records / 2)%nat
    /\ (forall i r1 r2,
          nth_error records (2 * i) = Some r1 ->
          nth_error records (2 * i + 1) = Some r2 ->
          exists t,
            make_tags local_alignment dict (Pysam.query_sequence r1) = Ok t
            /\ nth_error (written st) i
               = Some (Pysam.mkSegment (Pysam.query_name r2)
                         (Pysam.query_sequence r2) 4 t))
    /\ (summary = true -> consistent st).
Proof.
  intros Htags. unfold add_tags.
  assert (Hpair : forall j read,
             nth_error (islice records 1 2) j = Some read ->
             exists r1 t,
               nth_error tags (0 + j) = Some t
               /\ make_tags local_alignment dict (Pysam.query_sequence r1)
                  = Ok t
               /\ nth_error records (2 * j) = Some r1).
  { intros j read Hj. rewrite islice_nth in Hj.
    destruct (nth_error records (2 * j)) as [r1|] eqn:E1.
    - assert (E0 : nth_error (islice records 0 2) j = Some r1)
        by now rewrite islice_nth.
      destruct (Forall2_nth _ _ _ Htags j r1 E0) as (t & Ht & Hmk).
      exists r1, t. auto.
    - apply nth_error_None in E1.
      assert (nth_error records (1 + 2 * j) <> None) by congruence.
      apply nth_error_Some in H. lia. }
  destruct (tag_reads_spec local_alignment dict summary tags
              (islice records 1 2) (mkTally [] [] []) 0)
    as (st & Hrun & Hlen & _ & Hnew & Hc).
  { intros j read Hj. destruct (Hpair j read Hj) as (r1 & t & Ht & Hmk & _).
    eauto. }
  exists st. split; [exact Hrun|]. cbn [written List.length] in *.
  split; [|split].
  - rewrite Hlen. unfold islice. apply islice_lengths.
  - intros i r1 r2 H1 H2.
    assert (E2 : nth_error (islice records 1 2) i = Some r2).
    { rewrite islice_nth. now replace (1 + 2 * i)%nat with (2 * i + 1)%nat
        by lia. }
    destruct (Hpair i r2 E2) as (r1' & t & Ht & Hmk & H1').
    assert (r1' = r1) by congruence. subst r1'.
    exists t. split; [exact Hmk|].
    apply (Hnew i r2 t E2 Ht).
  - intros Hs. apply Hc; [exact Hs | apply consistent_start].
Qed.

(** X26. When [make_tags] returns for every R1 sequence, the loop over R2
    never runs out of tags; it writes one record for each complete pair, and
    the i-th written record is the second record of the i-th pair with flag
    4 and with the tags that [make_tags] returns for the sequence of the
    first record of that pair. A last record without mate is dropped. *)
Theorem tags_of_R1_written_on_R2 local_alignment dict summary
  (records : list Pysam.segment) (tags : list (list tag)) :
  tags_of_R1 local_alignment dict records tags ->
  exists st,
    add_tags summary tags records = Ok st
    /\ List.length (written st) = (List.length records / 2)%nat
    /\ (forall i r1 r2,
          nth_error records (2 * i) = Some r1 ->
          nth_error records (2 * i + 1) = Some r2 ->
          exists t,
            make_tags local_alignment dict (Pysam.query_sequence r1) = Ok t
            /\ nth_error (written st) i
               = Some (Pysam.mkSegment (Pysam.query_name r2)
                         (Pysam.query_sequence r2) 4 t)).
Proof.
  intros Htags.
  destruct (add_tags_spec local_alignment dict summary records tags Htags)
    as (st & H1 & H2 & H3 & _).
  eauto.
Qed.

(** X27. With a summary, at the end of the loop the count of each error code
    is the number of written records that carry it, the count of PASS is the
    number of records with a cell barcode and equals the sum of the cell
    counts, the count of each cell barcode is the number of records that
    carry it, and the counts of the nine rows of the errors file add up to
    the number of written records. *)
Theorem summary_counts local_alignment dict
  (records : list Pysam.segment) (tags : list (list tag)) (st : tally) :
  tags_of_R1 local_alignment dict records tags ->
  add_tags true tags records = Ok st ->
  (forall code, In code error_codes ->
     Dict.get (error_count st) code 0 = number_of (reports "XE" code) (written st))
  /\ Dict.get (error_count st) "PASS" 0 = number_of tagged (written st)
  /\ (forall bc,
        Dict.get (cell_count st) bc 0 = number_of (reports "XB" bc) (written st))
  /\ Dict.sum_values (cell_count st) = number_of tagged (written st)
  /\ sum_over ordered_tags (error_count st)
     = Z.of_nat (List.length records / 2)
  /\ Dict.sum_values (error_count st) = Z.of_nat (List.length records / 2).
Proof.
  intros Htags Hrun.
  destruct (add_tags_spec local_alignment dict true records tags Htags)
    as (st' & H1 & H2 & _ & Hc).
  assert (st' = st) by congruence. subst st'.
  destruct (Hc eq_refl) as (C1 & C2 & C3 & C4 & C5).
  split; [|split; [|split; [|split; [|split]]]].
  - intros code Hcode. rewrite C4.
    apply error_code_ordered in Hcode. destruct Hcode as [_ Hnp].
    now destruct (String.eqb_spec code "PASS").
  - now rewrite C4.
  - exact C5.
  - rewrite <- C3. now rewrite C4.
  - rewrite C2, C1. now rewrite H2.
  - rewrite C1. now rewrite H2.
Qed.

Lemma errors_rows_some (keys : list string) (d : Dict.counts) :
  Dict.sum_values d <> 0 ->
  errors_rows keys d
  = Some (map (fun tag => (tag, Dict.get d tag 0, (Dict.get d tag 0, Dict.sum_values d)))
            keys).
Proof.
  intros Hz. induction keys as [|k keys IH]; cbn [errors_rows map].
  - reflexivity.
  - destruct (Dict.sum_values d =? 0) eqn:E; [lia|]. now rewrite IH.
Qed.

(** X28. With a summary, writing the errors file raises [ZeroDivisionError]
    when the input holds fewer than 2 records, since no record was counted;
    otherwise every one of the nine rows is written, with the number of
    pairs as the divisor of its fraction. *)
Theorem errors_table local_alignment dict
  (records : list Pysam.segment) (tags : list (list tag)) (st : tally) :
  tags_of_R1 local_alignment dict records tags ->
  add_tags true tags records = Ok st ->
  ((List.length records < 2)%nat ->
   errors_rows ordered_tags (error_count st) = None)
  /\ ((2 <= List.length records)%nat ->
      errors_rows ordered_tags (error_count st)
      = Some (map (fun tag =>
                     (tag, Dict.get (error_count st) tag 0,
                      (Dict.get (error_count st) tag 0,
                       Z.of_nat (List.length records / 2))))
                ordered_tags)).
Proof.
  intros Htags Hrun.
  destruct (add_tags_spec local_alignment dict true records tags Htags)
    as (st' & H1 & H2 & _ & Hc).
  assert (st' = st) by congruence. subst st'.
  destruct (Hc eq_refl) as (C1 & _). rewrite H2 in C1.
  split; intros Hn.
  - assert (E : (List.length records / 2 = 0)%nat)
      by (apply Nat.div_small; lia).
    rewrite E in C1. cbn [errors_rows ordered_tags]. now rewrite C1.
  - assert (E : (1 <= List.length records / 2)%nat)
      by (apply Nat.div_le_lower_bound; lia).
    rewrite errors_rows_some by lia. now rewrite C1.
Qed.

Lemma example_tags_of_R1 :
  tags_of_R1 Pairwise2.localxs example_barcodes example_records example_tags.
Proof. repeat constructor; vm_compute; reflexivity. Defined.

Lemma example_records_tagged :
  add_tags true example_tags example_records
  = Ok (mkTally
          [Pysam.mkSegment "pair1" "GATTACAGATTACA" 4
             [("XB", "TTTGGGAAACCCCCCTTT", "Z"); ("XU", "AACCGGTT", "Z")]]
          [("TTTGGGAAACCCCCCTTT", 1)] [("PASS", 1)]).
Proof. vm_compute. reflexivity. Defined.

Lemma tags_of_R1_written_on_R2_witness :
  exists st,
    add_tags true example_tags example_records = Ok st
    /\ List.length (written st) = (List.length example_records / 2)%nat
    /\ (forall i r1 r2,
          nth_error example_records (2 * i) = Some r1 ->
          nth_error example_records (2 * i + 1) = Some r2 ->
          exists t,
            make_tags Pairwise2.localxs example_barcodes
              (Pysam.query_sequence r1) = Ok t
            /\ nth_error (written st) i
               = Some (Pysam.mkSegment (Pysam.query_name r2)
                         (Pysam.query_sequence r2) 4 t)).
Proof.
  exact (tags_of_R1_written_on_R2 Pairwise2.localxs example_barcodes true
           example_records example_tags example_tags_of_R1).
Defined.

Lemma summary_counts_witness :
  Dict.get [("PASS", 1)] "PASS" 0
  = number_of tagged
      [Pysam.mkSegment "pair1" "GATTACAGATTACA" 4
         [("XB", "TTTGGGAAACCCCCCTTT", "Z"); ("XU", "AACCGGTT", "Z")]].
Proof.
  exact (proj1 (proj2 (summary_counts Pairwise2.localxs example_barcodes
                         example_records example_tags _
                         example_tags_of_R1 example_records_tagged))).
Defined.

Lemma errors_table_witness :
  errors_rows ordered_tags [("PASS", 1)]
  = Some (map (fun tag =>
                 (tag, Dict.get [("PASS", 1)] tag 0,
                  (Dict.get [("PASS", 1)] tag 0,
                   Z.of_nat (List.length example_records / 2))))
            ordered_tags).
Proof.
  apply (proj2 (errors_table Pairwise2.localxs example_barcodes
                  example_records example_tags _
                  example_tags_of_R1 example_records_tagged)).
  vm_compute. lia.
Defined.

Example errors_table_no_pair :
  exists st,
    add_tags true [] [] = Ok st
    /\ errors_rows ordered_tags (error_count st) = None.
Proof. eexists. split; reflexivity. Qed.

(** * The decision tree by the tags it returns *)

(** ** The Hamming distance of the specification *)

Lemma filter_map_length {A B : Type} (f : B -> bool) (g : A -> B)
  (l : list A) :
  List.length (filter f (map g l))
  = List.length (filter (fun x => f (g x)) l).
Proof.
  induction l as [|x l IH]; cbn [map filter]; [reflexivity|].
  destruct (f (g x)); cbn [List.length]; now rewrite IH.
Qed.

(** On strings of the same length the loop of [hamming_dist] counts the
    positions at which they differ. *)
Lemma mismatches_hamming_distance (a : string) :
  forall b,
    String.length a = String.length b ->
    mismatches a b = Z.of_nat (hamming_distance a b).
Proof.
  induction a as [|x a IH]; intros [|y b] Hlen; try discriminate Hlen.
  - reflexivity.
  - injection Hlen as Hlen. cbn [mismatches]. rewrite (IH b Hlen).
    unfold hamming_distance at 2. cbn [String.length seq].
    rewrite <- seq_shift. cbn [filter].
    change (differs_at (String x a) (String y b) 0)
      with (negb (Ascii.eqb x y)).
    destruct (Ascii.eqb x y); cbn [negb List.length];
      rewrite filter_map_length;
      change (fun i => differs_at (String x a) (String y b) (S i))
        with (differs_at a b);
      fold (hamming_distance a b); lia.
Qed.

Lemma far_distant (sub tri : string) : far sub tri <-> distant sub tri.
Proof.
  unfold far, distant.
  destruct (Nat.eq_dec (String.length sub) (String.length tri)) as [E|N].
  - rewrite (mismatches_hamming_distance sub tri E).
    split; intros [H|H]; try contradiction; right; lia.
  - split; intros _; now left.
Qed.

(** ** Block 2 and the gap between the linkers *)

(** C4. On a read that begins with linker 1 and has 9 symbols between
    the linkers, both linkers are located, at the offsets 0 and 24; the
    gap of 24 is none of the three that give a block 2, so the read
    should be given error I; [make_tags] returns L1, because the test
    [not starts[0]] takes the offset 0 for a missing linker. The same
    read with one symbol before it is given error I. *)
Theorem C4_gap_error_lost_at_offset_0 :
  locate Pairwise2.localxs (upper read_linker1_gap24) linker1
  = Ok (Some (0, 0))
  /\ locate Pairwise2.localxs (upper read_linker1_gap24) linker2
     = Ok (Some (24, 0))
  /\ ~ gap_accepted 0 0 24
  /\ make_tags Pairwise2.localxs example_barcodes read_linker1_gap24
     = Ok (XE "L1")
  /\ make_tags Pairwise2.localxs example_barcodes read_linker1_gap24
     <> Ok (XE "I")
  /\ make_tags Pairwise2.localxs example_barcodes
       ("A" ++ read_linker1_gap24)
     = Ok (XE "I").
Proof.
  split; [vm_compute; reflexivity|].
  split; [vm_compute; reflexivity|].
  split; [unfold gap_accepted; lia|].
  split; [vm_compute; reflexivity|].
  split; [vm_compute; discriminate | vm_compute; reflexivity].
Qed.

(** ** Block 1 *)




(** ** The checkpoints *)

(** C6. For every read that reaches the checkpoints (both linkers pass
    the linker step, the gap is accepted and [start1 >= 5]): [make_tags]
    returns error J exactly when the 3 symbols at offset
    [start2 + 21 + k2] are at Hamming distance more than 1 from ACG, and,
    when they are not, returns error K exactly when the 3 symbols at
    offset [start2 + 32 + k2] are at distance more than 1 from GAC; a
    substring of another length, as in a read that is too short, counts
    as infinitely far and nothing is raised. With the reference aligner:
    TTT in the place of ACG gives J and ACT does not; TTT in the place of
    GAC gives K and GAT does not; a read cut inside ACG gives J, one
    cut inside GAC gives K. *)
Theorem C6_checkpoint_errors
  local_alignment dict (read : string) (start1 k1 start2 k2 : Z) :
  linkers_located local_alignment read start1 k1 start2 k2 ->
  gap_accepted start1 k1 start2 ->
  5 <= start1 ->
  let acg := symbols_at (upper read) (start2 + 21 + k2) 3 in
  let gac := symbols_at (upper read) (start2 + 32 + k2) 3 in
  (make_tags local_alignment dict read = Ok (XE "J") <-> distant acg "ACG")
  /\ (~ distant acg "ACG" ->
      (make_tags local_alignment dict read = Ok (XE "K")
       <-> distant gac "GAC"))
  /\ (hamming_distance "TTT" "ACG" = 3%nat
      /\ hamming_distance "ACT" "ACG" = 1%nat
      /\ make_tags Pairwise2.localxs example_barcodes read_acg_far
         = Ok (XE "J")
      /\ make_tags Pairwise2.localxs example_barcodes read_acg_near
         = Ok [("XB", "TTTGGGAAACCCCCCTTT", "Z"); ("XU", "AACCGGTT", "Z")]
      /\ make_tags Pairwise2.localxs example_barcodes read_gac_far
         = Ok (XE "K")
      /\ make_tags Pairwise2.localxs example_barcodes read_gac_near
         = Ok [("XB", "TTTGGGAAACCCCCCTTT", "Z"); ("XU", "AACCGGTT", "Z")]
      /\ make_tags Pairwise2.localxs example_barcodes read_cut_in_acg
         = Ok (XE "J")
      /\ make_tags Pairwise2.localxs example_barcodes read_cut_in_gac
         = Ok (XE "K")).
Proof.
  intros Hloc Hgap H5 acg gac.
  destruct (make_tags_checkpoint_errors local_alignment dict read
              start1 k1 start2 k2 Hloc Hgap H5) as [HJ HK].
  fold acg gac in HJ, HK.
  split; [|split].
  - now rewrite HJ, far_distant.
  - intros Hacg. rewrite <- far_distant in Hacg.
    now rewrite (HK Hacg), far_distant.
  - repeat split; vm_compute; reflexivity.
Qed.

Lemma read_acg_far_located :
  linkers_located Pairwise2.localxs read_acg_far 6 0 27 0.
Proof.
  repeat split; try (vm_compute; reflexivity); discriminate.
Defined.

Lemma C6_checkpoint_errors_witness :
  (make_tags Pairwise2.localxs example_barcodes read_acg_far = Ok (XE "J")
   <-> distant (symbols_at (upper read_acg_far) (27 + 21 + 0) 3) "ACG")
  /\ distant (symbols_at (upper read_acg_far) (27 + 21 + 0) 3) "ACG".
Proof.
  assert (Hgap : gap_accepted 6 0 27) by (left; reflexivity).
  assert (H5 : 5 <= 6) by discriminate.
  split.
  - exact (proj1 (C6_checkpoint_errors Pairwise2.localxs example_barcodes
                    read_acg_far 6 0 27 0 read_acg_far_located Hgap H5)).
  - right. vm_compute. repeat constructor.
Defined.

(** ** Reads without an alignment *)

(** C9. For the empty read, and for a read none of whose symbols occurs
    in a linker, the aligner returns no alignment of linker 1, taking the
    first element of the empty list raises [IndexError], and
    [make_tags] returns no tag list, where the linker step should report
    that no linker was found (LX). *)
Theorem C9_read_without_alignment_raises :
  Pairwise2.localxs "" linker1 (-2) (-1) = []
  /\ Pairwise2.localxs read_all_N linker1 (-2) (-1) = []
  /\ make_tags Pairwise2.localxs example_barcodes "" = Raise IndexError
  /\ make_tags Pairwise2.localxs example_barcodes read_all_N
     = Raise IndexError
  /\ (forall tags,
        make_tags Pairwise2.localxs example_barcodes "" <> Ok tags)
  /\ (forall tags,
        make_tags Pairwise2.localxs example_barcodes read_all_N <> Ok tags).
Proof.
  assert (E1 : make_tags Pairwise2.localxs example_barcodes ""
               = Raise IndexError) by (vm_compute; reflexivity).
  assert (E2 : make_tags Pairwise2.localxs example_barcodes read_all_N
               = Raise IndexError) by (vm_compute; reflexivity).
  split; [vm_compute; reflexivity|].
  split; [vm_compute; reflexivity|].
  split; [exact E1|]. split; [exact E2|].
  split; intros tags H; [rewrite E1 in H | rewrite E2 in H]; discriminate.
Qed.
